(** * System monitor: logger, metric collectors, alert policy and report

    A shallow embedding of [custom-logger.js] (classes [SystemLogger] and
    [SystemMonitor] and the module-level wiring) together with the
    properties its specification states about it.

    Conventions of the embedding.

    - A JavaScript string is the list of its UTF-16 code units.
    - A JavaScript number is a double.  One that holds an integer (byte
      counts, tick counters, array lengths) is a [Z], taken below [2^53] in
      magnitude, where every integer is a double and [+] and [-] are exact.
      A finite number that need not be an integer is the rational it
      equals, and every operation that can leave the integers, [/], [*] by
      a percentage and [1 - x], rounds its exact result to the nearest
      double, as IEEE 754 does, before [toFixed(2)] rounds to two decimals.
    - Effects are explicit: a computation is a function from the state of
      the world to the new state and an outcome, normal return or exception.
      The effects already performed when an exception is thrown stay.
    - A value read from the operating system ([os.totalmem()], [os.cpus()],
      ...) is a parameter of the function that reads it, one per call. *)

From Stdlib Require Import ZArith NArith QArith Qround Qabs Qpower.
From Stdlib Require Import Lia Lqa String Ascii.
From stdpp Require Import base decidable option list gmap.

Local Open Scope Z_scope.

(** ** Strings *)

Definition jsstring : Type := list N.

(** An ASCII literal as a JavaScript string. *)
Definition lit (s : string) : jsstring :=
  List.map N_of_ascii (list_ascii_of_string s).

Definition LF : N := 10%N.
Definition SPACE : N := 32%N.

(** [WhiteSpace] and [LineTerminator] code points of ECMAScript, the
    characters [String.prototype.trim] strips. *)
Definition is_white_space (c : N) : bool :=
  (existsb (N.eqb c)
     [9; 10; 11; 12; 13; 32; 160; 5760; 8232; 8233; 8239; 8287; 12288; 65279]%N
   || ((8192 <=? c) && (c <=? 8202))%N)%bool.

Fixpoint trimStart (s : jsstring) : jsstring :=
  match s with
  | [] => []
  | c :: s' => if is_white_space c then trimStart s' else s
  end.

Definition trimEnd (s : jsstring) : jsstring := rev (trimStart (rev s)).

Definition trim (s : jsstring) : jsstring := trimEnd (trimStart s).

(** Truthiness of a string value: only the empty string is falsy. *)
Definition truthy (s : jsstring) : bool :=
  match s with [] => false | _ :: _ => true end.

(** [s.split(sep)] for a separator of one character, the only kind the
    program uses.  The result is never empty: the empty string splits into
    one empty piece. *)
Fixpoint split (s : jsstring) (sep : N) : list jsstring :=
  match s with
  | [] => [[]]
  | c :: s' =>
      if N.eqb c sep then [] :: split s' sep
      else match split s' sep with
           | [] => [[c]]
           | piece :: pieces => (c :: piece) :: pieces
           end
  end.

Fixpoint startsWith (s prefix : jsstring) : bool :=
  match prefix, s with
  | [], _ => true
  | _ :: _, [] => false
  | a :: prefix', b :: s' => N.eqb a b && startsWith s' prefix'
  end.

(** [s.includes(needle)]. *)
Fixpoint includes (s needle : jsstring) : bool :=
  startsWith s needle ||
  match s with
  | [] => false
  | _ :: s' => includes s' needle
  end.

Definition is_high_surrogate (c : N) : bool :=
  ((0xD800 <=? c) && (c <=? 0xDBFF))%N.

Definition is_low_surrogate (c : N) : bool :=
  ((0xDC00 <=? c) && (c <=? 0xDFFF))%N.

(** [s.isWellFormed()]: every surrogate of [s] is half of a pair, a high
    surrogate followed by a low one. *)
Fixpoint isWellFormed (s : jsstring) : bool :=
  match s with
  | [] => true
  | c :: s' =>
      if is_high_surrogate c then
        match s' with
        | c' :: s'' => is_low_surrogate c' && isWellFormed s''
        | [] => false
        end
      else negb (is_low_surrogate c) && isWellFormed s'
  end.

(** [s.toWellFormed()]: [s] with U+FFFD in place of every surrogate that is
    not half of a pair.  It is also what a string becomes when it is
    written to a file in UTF-8, as [fs.appendFileSync] writes it, and read
    back. *)
Fixpoint toWellFormed (s : jsstring) : jsstring :=
  match s with
  | [] => []
  | c :: s' =>
      if is_high_surrogate c then
        match s' with
        | c' :: s'' =>
            if is_low_surrogate c' then c :: c' :: toWellFormed s''
            else 0xFFFD%N :: toWellFormed s'
        | [] => [0xFFFD%N]
        end
      else if is_low_surrogate c then 0xFFFD%N :: toWellFormed s'
      else c :: toWellFormed s'
  end.

(** [a[k]] for an array [a] and an integer-valued index [k]: [None] stands
    for [undefined], which is what any index outside [0 .. length-1]
    yields, negative ones included. *)
Definition index {A} (a : list A) (k : Z) : option A :=
  if k <? 0 then None else a !! Z.to_nat k.

(** Decimal digits of a natural number, as [String(n)] prints them. *)
Fixpoint uint_chars (d : Decimal.uint) : jsstring :=
  match d with
  | Decimal.Nil => []
  | Decimal.D0 d => 48%N :: uint_chars d
  | Decimal.D1 d => 49%N :: uint_chars d
  | Decimal.D2 d => 50%N :: uint_chars d
  | Decimal.D3 d => 51%N :: uint_chars d
  | Decimal.D4 d => 52%N :: uint_chars d
  | Decimal.D5 d => 53%N :: uint_chars d
  | Decimal.D6 d => 54%N :: uint_chars d
  | Decimal.D7 d => 55%N :: uint_chars d
  | Decimal.D8 d => 56%N :: uint_chars d
  | Decimal.D9 d => 57%N :: uint_chars d
  end.

Definition show_N (n : N) : jsstring := uint_chars (N.to_uint n).

Definition show_nat (n : nat) : jsstring := show_N (N.of_nat n).

(** A value interpolated in a template literal; [undefined] prints as the
    word. *)
Definition show_or_undefined (v : option jsstring) : jsstring :=
  from_option id (lit "undefined") v.

(** ** Numbers *)

(** A number: a finite value, [NaN] or a signed infinity. *)
Inductive number : Type :=
  | Fin (q : Q)
  | NaN
  | Infinity (negative : bool).

(** The integer part of the base-2 logarithm of a positive rational. *)
Definition floor_log2 (q : Q) : Z :=
  let e := Z.log2 (Qnum q) - Z.log2 (Z.pos (Qden q)) in
  if Qle_bool (2 ^ e) q then e else e - 1.

(** The integer nearest to [x], the even one of two equally near. *)
Definition round_half_even (x : Q) : Z :=
  let f := Qfloor x in
  match (x - inject_Z f ?= 1 # 2)%Q with
  | Lt => f
  | Gt => f + 1
  | Eq => if Z.even f then f else f + 1
  end.

(** The double nearest to a rational, which is how IEEE 754 rounds the
    exact result of an operation: 53 significant bits, a unit in the last
    place no smaller than [2^-1074], a tie to the even significand, and
    infinity once the rounded magnitude reaches [2^1024].  The sign of a
    zero is not kept: the program never observes it. *)
Definition double_round (q : Q) : number :=
  if Qeq_bool q 0 then Fin 0
  else
    let a := Qabs q in
    let e := Z.max (floor_log2 a) (-1022) in
    let ulp := (2 ^ (e - 52))%Q in
    let r := (inject_Z (round_half_even (a / ulp)) * ulp)%Q in
    if Qle_bool (2 ^ 1024) r then Infinity (Qnum q <? 0)
    else Fin (if Qnum q <? 0 then - r else r)%Q.

(** [Number(n)] for a BigInt [n]. *)
Definition Number_of_BigInt (n : Z) : number := double_round (inject_Z n).

(** [x / b] for an integer-valued [b]. *)
Definition js_div_by (x : number) (b : Z) : number :=
  match x with
  | Fin q =>
      if b =? 0 then
        if Qeq_bool q 0 then NaN else Infinity (Qnum q <? 0)
      else double_round (q / inject_Z b)
  | NaN => NaN
  | Infinity negative => Infinity (xorb negative (b <? 0))
  end.

(** [a / b] for integer-valued [a] and [b]. *)
Definition js_div (a b : Z) : number :=
  if b =? 0 then
    if a =? 0 then NaN else Infinity (a <? 0)
  else double_round (inject_Z a / inject_Z b).

(** [a - x] for an integer-valued [a]. *)
Definition js_sub_from (a : Z) (x : number) : number :=
  match x with
  | Fin q => double_round (inject_Z a - q)
  | NaN => NaN
  | Infinity negative => Infinity (negb negative)
  end.

(** [x * k] for an integer-valued [k]. *)
Definition js_mul (x : number) (k : Z) : number :=
  match x with
  | Fin q => double_round (q * inject_Z k)
  | NaN => NaN
  | Infinity negative =>
      if k =? 0 then NaN else Infinity (xorb negative (k <? 0))
  end.

(** The result of [parseFloat(x.toFixed(2))]: a decimal with two fraction
    digits, counted in hundredths, or one of the special values, which
    [toFixed] prints by name and [parseFloat] reads back. *)
Inductive fixed2 : Type :=
  | Hundredths (h : Z)
  | NotANumber
  | Infinite (negative : bool).

(** [toFixed] picks the integer [n] with [n / 100] nearest to the value of
    the double, which it takes exactly, and, of two equally near, the
    larger in magnitude. *)
Definition nearest_hundredth (q : Q) : Z :=
  let n := Qnum q in
  let d := Z.pos (Qden q) in
  if 0 <=? n then (200 * n + d) / (2 * d)
  else - ((200 * (- n) + d) / (2 * d)).

(** The values the program rounds stay far below [10^21], from which on
    [toFixed] would switch to exponent notation. *)
Definition parseFloat_toFixed2 (x : number) : fixed2 :=
  match x with
  | Fin q => Hundredths (nearest_hundredth q)
  | NaN => NotANumber
  | Infinity negative => Infinite negative
  end.

(** [x > t] for an integer threshold [t]; every comparison with [NaN]
    is false. *)
Definition gt_int (x : fixed2) (t : Z) : bool :=
  match x with
  | Hundredths h => 100 * t <? h
  | NotANumber => false
  | Infinite negative => negb negative
  end.

Definition digit (d : Z) : N := (48 + Z.to_N d)%N.

(** [String(x)] for a rounded value: the shortest decimal that reads back
    as the same number, so trailing zeros of the fraction are dropped. *)
Definition show_fixed2 (x : fixed2) : jsstring :=
  match x with
  | Hundredths h =>
      let a := Z.abs h in
      let fraction := a mod 100 in
      (if h <? 0 then lit "-" else []) ++ show_N (Z.to_N (a / 100)) ++
      (if fraction =? 0 then []
       else lit "." ++ digit (fraction / 10) ::
            (if fraction mod 10 =? 0 then [] else [digit (fraction mod 10)]))
  | NotANumber => lit "NaN"
  | Infinite negative => if negative then lit "-Infinity" else lit "Infinity"
  end.

(** ** The world: log file, console, clock, timers, the two objects *)

Inductive exception : Type :=
  | TypeError
  | SystemError (code : jsstring)
  | ListenerError (reason : jsstring).

Inductive outcome (A : Type) : Type :=
  | Returned (a : A)
  | Thrown (e : exception).
Arguments Returned {A} a.
Arguments Thrown {A} e.

(** The object passed to the listeners of the ["logged"] event. *)
Record LogEntry : Type := {
  timestamp : jsstring;
  type : jsstring;
  message : jsstring
}.

(** A listener of ["logged"].  It is called with the entry, can read the
    log file as it is at that moment, writes to the console and returns or
    throws.  These are the listeners the model has: one that writes to the
    log file, arms a timer or calls the monitor is outside it.  The only
    listener the program registers is [console_mirror]. *)
Definition listener : Type :=
  LogEntry -> option jsstring -> list jsstring ->
  list jsstring * option exception.

Record world : Type := {
  (** the file [./logs/system-monitor.log]: [None] while it does not
      exist, its text otherwise *)
  log_file : option jsstring;
  (** the lines written by [console.log], oldest first *)
  console : list jsstring;
  (** the listeners registered with [logger.on("logged", _)], in
      registration order *)
  listeners : list listener;
  (** the entries given to [emit("logged", _)] so far, oldest first *)
  emitted : list LogEntry;
  (** the system clock: [clock k] is what the [k]-th evaluation of
      [new Date().toISOString()] yields; [clock_reads] counts the
      evaluations so far *)
  clock : nat -> jsstring;
  clock_reads : nat;
  (** the interval timers that are armed, with their period in
      milliseconds, and the next free timer handle *)
  timers : gmap nat Z;
  next_timer : nat;
  (** the fields of the [SystemMonitor] object *)
  monitoring : bool;
  monitorInterval : option nat
}.

Definition set_log_file (f : option jsstring) (w : world) : world :=
  {| log_file := f; console := console w; listeners := listeners w;
     emitted := emitted w; clock := clock w; clock_reads := clock_reads w;
     timers := timers w; next_timer := next_timer w;
     monitoring := monitoring w; monitorInterval := monitorInterval w |}.

Definition set_console (c : list jsstring) (w : world) : world :=
  {| log_file := log_file w; console := c; listeners := listeners w;
     emitted := emitted w; clock := clock w; clock_reads := clock_reads w;
     timers := timers w; next_timer := next_timer w;
     monitoring := monitoring w; monitorInterval := monitorInterval w |}.

Definition set_listeners (l : list listener) (w : world) : world :=
  {| log_file := log_file w; console := console w; listeners := l;
     emitted := emitted w; clock := clock w; clock_reads := clock_reads w;
     timers := timers w; next_timer := next_timer w;
     monitoring := monitoring w; monitorInterval := monitorInterval w |}.

Definition set_emitted (e : list LogEntry) (w : world) : world :=
  {| log_file := log_file w; console := console w; listeners := listeners w;
     emitted := e; clock := clock w; clock_reads := clock_reads w;
     timers := timers w; next_timer := next_timer w;
     monitoring := monitoring w; monitorInterval := monitorInterval w |}.

Definition set_clock_reads (n : nat) (w : world) : world :=
  {| log_file := log_file w; console := console w; listeners := listeners w;
     emitted := emitted w; clock := clock w; clock_reads := n;
     timers := timers w; next_timer := next_timer w;
     monitoring := monitoring w; monitorInterval := monitorInterval w |}.

Definition set_timers (t : gmap nat Z) (n : nat) (w : world) : world :=
  {| log_file := log_file w; console := console w; listeners := listeners w;
     emitted := emitted w; clock := clock w; clock_reads := clock_reads w;
     timers := t; next_timer := n;
     monitoring := monitoring w; monitorInterval := monitorInterval w |}.

Definition set_monitoring (b : bool) (w : world) : world :=
  {| log_file := log_file w; console := console w; listeners := listeners w;
     emitted := emitted w; clock := clock w; clock_reads := clock_reads w;
     timers := timers w; next_timer := next_timer w;
     monitoring := b; monitorInterval := monitorInterval w |}.

Definition set_monitorInterval (i : option nat) (w : world) : world :=
  {| log_file := log_file w; console := console w; listeners := listeners w;
     emitted := emitted w; clock := clock w; clock_reads := clock_reads w;
     timers := timers w; next_timer := next_timer w;
     monitoring := monitoring w; monitorInterval := i |}.

(** Computations: state passing with exceptions. *)
Definition M (A : Type) : Type := world -> world * outcome A.

#[global] Instance M_ret : MRet M := fun A (a : A) w => (w, Returned a).

#[global] Instance M_bind : MBind M := fun A B (f : A -> M B) (m : M A) w =>
  match m w with
  | (w', Returned a) => f a w'
  | (w', Thrown e) => (w', Thrown e)
  end.

Definition throw {A} (e : exception) : M A := fun w => (w, Thrown e).

Definition gets {A} (f : world -> A) : M A := fun w => (w, Returned (f w)).

Definition modify (f : world -> world) : M unit := fun w => (f w, Returned tt).

(** ** SystemLogger *)

Definition INFO : jsstring := lit "INFO".
Definition WARN : jsstring := lit "WARN".
Definition ERROR : jsstring := lit "ERROR".

(** [new Date().toISOString()]: one reading of the clock. *)
Definition toISOString_now : M jsstring := fun w =>
  (set_clock_reads (S (clock_reads w)) w, Returned (clock w (clock_reads w))).

(** [fs.appendFileSync(this.logFile, data)] creates the file when it does
    not exist.  The file is kept as the text that reading it gives: what
    is appended is [data] itself, which is what the UTF-8 encoding gives
    back for a well-formed [data], one with [toWellFormed data = data];
    the replacement of a lone surrogate by U+FFFD is not modelled.  Faults
    of the file system (no space, no permission) are outside the model. *)
Definition appendFileSync (data : jsstring) : M unit :=
  modify (fun w => set_log_file (Some (from_option id [] (log_file w) ++ data)) w).

(** What [emit] does with the listeners: it calls them one after the
    other in registration order and does not catch what they throw. *)
Fixpoint call_listeners (ls : list listener) (entry : LogEntry) : M unit :=
  match ls with
  | [] => mret tt
  | l :: ls' => fun w =>
      match l entry (log_file w) (console w) with
      | (out, None) => call_listeners ls' entry (set_console out w)
      | (out, Some e) => (set_console out w, Thrown e)
      end
  end.

(** [this.emit("logged", entry)]. *)
Definition emit (entry : LogEntry) : M unit :=
  modify (fun w => set_emitted (emitted w ++ [entry]) w);;
  ls ← gets listeners;
  call_listeners ls entry.

(** [log(message, type = "INFO")]; an omitted [type] is [None]. *)
Definition log (message : jsstring) (type : option jsstring) : M unit :=
  let type := from_option id INFO type in
  timestamp ← toISOString_now;
  let logEntry := timestamp ++ lit " [" ++ type ++ lit "] " ++ message ++ [LF] in
  appendFileSync logEntry;;
  emit {| timestamp := timestamp; type := type; message := message |}.

Definition error (message : jsstring) : M unit := log message (Some ERROR).

Definition warn (message : jsstring) : M unit := log message (Some WARN).

Definition info (message : jsstring) : M unit := log message (Some INFO).

(** The listener the program registers:
    [(entry) => console.log(`[${entry.type}] ${entry.message}`)]. *)
Definition console_mirror : listener := fun entry _ out =>
  (out ++ [lit "[" ++ type entry ++ lit "] " ++ message entry], None).

(** ** SystemMonitor *)

Definition setInterval (interval : Z) : M nat := fun w =>
  (set_timers (<[next_timer w := interval]> (timers w)) (S (next_timer w)) w,
   Returned (next_timer w)).

(** [clearInterval(handle)]; a [null] handle is ignored. *)
Definition clearInterval (handle : option nat) : M unit :=
  modify (fun w =>
    match handle with
    | Some h => set_timers (delete h (timers w)) (next_timer w) w
    | None => w
    end).

(** [startMonitoring(interval = 5000)].  The timer's callback is always
    [collectSystemMetrics], so a timer is recorded by its period alone. *)
Definition startMonitoring (interval : option Z) : M unit :=
  let interval := from_option id 5000 interval in
  running ← gets monitoring;
  if running : bool then mret tt
  else
    modify (set_monitoring true);;
    info (lit "System monitoring started");;
    handle ← setInterval interval;
    modify (set_monitorInterval (Some handle)).

Definition stopMonitoring : M unit :=
  running ← gets monitoring;
  if negb running then mret tt
  else
    handle ← gets monitorInterval;
    clearInterval handle;;
    modify (set_monitoring false);;
    info (lit "System monitoring stopped").

(** *** Collectors *)

Record MemoryInfo : Type := {
  total : Z;
  free : Z;
  used : Z;
  usedPercent : fixed2;
  totalFormatted : jsstring;
  freeFormatted : jsstring;
  usedFormatted : jsstring
}.

(** One element of [os.cpus()]: the tick counters of a core, by category. *)
Record CpuTimes : Type := {
  user : Z;
  nice : Z;
  sys : Z;
  idle : Z;
  irq : Z
}.

Record CpuCore : Type := {
  core_model : jsstring;
  times : CpuTimes
}.

Record CPUInfo : Type := {
  cores : nat;
  model : jsstring;
  loadAverage : list fixed2;
  usagePercent : fixed2
}.

(** [Math.floor(Math.log(bytes) / Math.log(1024))] for [bytes] other than
    zero, with exact logarithms: the integer part of the base-2 logarithm,
    divided by ten.  [Math.log] is an approximation that the language
    leaves to the implementation; the quotient of its two results has the
    same integer part as the exact one unless [bytes] is within a few
    units in the last place of a power of 1024, which for a power from the
    fifth on, with 50 bits and more, happens just below it.  The logarithm
    of a negative number is [NaN], here [None]. *)
Definition floor_log_1024 (bytes : Z) : option Z :=
  if bytes <? 0 then None else Some (Z.log2 bytes / 10).

Definition sizes : list jsstring :=
  [lit "Bytes"; lit "KB"; lit "MB"; lit "GB"; lit "TB"].

Definition formatBytes (bytes : Z) : jsstring :=
  if bytes =? 0 then lit "0 Bytes"
  else
    let k := 1024 in
    match floor_log_1024 bytes with
    | Some i =>
        show_fixed2 (parseFloat_toFixed2 (js_div bytes (k ^ i)))
          ++ lit " " ++ show_or_undefined (index sizes i)
    | None =>
        show_fixed2 (parseFloat_toFixed2 NaN)
          ++ lit " " ++ show_or_undefined None
    end.

(** [getMemoryInfo()]; the parameters are the values of [os.totalmem()]
    and [os.freemem()]. *)
Definition getMemoryInfo (totalmem freemem : Z) : MemoryInfo :=
  let total := totalmem in
  let free := freemem in
  let used := total - free in
  let usedPercent := parseFloat_toFixed2 (js_mul (js_div used total) 100) in
  {| total := total; free := free; used := used;
     usedPercent := usedPercent;
     totalFormatted := formatBytes total;
     freeFormatted := formatBytes free;
     usedFormatted := formatBytes used |}.

(** The values [for (const type in cpu.times)] visits. *)
Definition tick_categories (t : CpuTimes) : list Z :=
  [user t; nice t; sys t; idle t; irq t].

(** [getCPUUsage()]; the parameter is the value of its one call of
    [os.cpus()].  The state of the loop is [(totalIdle, totalTick)]. *)
Definition getCPUUsage (cpus : list CpuCore) : number :=
  let '(totalIdle, totalTick) :=
    fold_left
      (fun '(totalIdle, totalTick) cpu =>
         let totalTick :=
           fold_left (fun acc ticks => acc + ticks)
             (tick_categories (times cpu)) totalTick in
         (totalIdle + idle (times cpu), totalTick))
      cpus (0, 0) in
  js_sub_from 1 (js_div totalIdle totalTick).

(** [getCPUInfo()]; [cpus] and [loadavg] are the values of its own calls of
    [os.cpus()] and [os.loadavg()], [cpus_again] the value of the call of
    [os.cpus()] that [getCPUUsage] makes.  A load average is given as a
    rational and reaches the program as the nearest double, itself when it
    is one. *)
Definition getCPUInfo (cpus : list CpuCore) (loadavg : list Q)
    (cpus_again : list CpuCore) : CPUInfo :=
  let loadAverage :=
    List.map (fun avg => parseFloat_toFixed2 (double_round avg)) loadavg in
  let usagePercent := getCPUUsage cpus_again in
  {| cores := length cpus;
     model :=
       match cpus !! 0%nat with
       | Some cpu =>
           if truthy (core_model cpu) then core_model cpu else lit "Unknown"
       | None => lit "Unknown"
       end;
     loadAverage := loadAverage;
     usagePercent := parseFloat_toFixed2 (js_mul usagePercent 100) |}.

(** *** Alerts *)

(** The police-light emoji U+1F6A8, a surrogate pair. *)
Definition SIREN : jsstring := [0xD83D; 0xDEA8]%N.

(** The warning sign U+26A0 with the variation selector U+FE0F. *)
Definition WARNING_SIGN : jsstring := [0x26A0; 0xFE0F]%N.

Definition checkAlerts (memory : MemoryInfo) (cpu : CPUInfo) : M unit :=
  (if gt_int (usedPercent memory) 85 then
     error (SIREN ++ lit " CRITICAL: Memory usage at "
              ++ show_fixed2 (usedPercent memory) ++ lit "%")
   else if gt_int (usedPercent memory) 70 then
     warn (WARNING_SIGN ++ lit "  WARNING: Memory usage at "
             ++ show_fixed2 (usedPercent memory) ++ lit "%")
   else mret tt);;
  (if gt_int (usagePercent cpu) 80 then
     error (SIREN ++ lit " CRITICAL: CPU usage at "
              ++ show_fixed2 (usagePercent cpu) ++ lit "%")
   else if gt_int (usagePercent cpu) 60 then
     warn (WARNING_SIGN ++ lit "  WARNING: CPU usage at "
             ++ show_fixed2 (usagePercent cpu) ++ lit "%")
   else mret tt).

(** *** Report *)

Definition existsSync : M bool :=
  gets (fun w => match log_file w with Some _ => true | None => false end).

Definition readFileSync : M jsstring := fun w =>
  match log_file w with
  | Some content => (w, Returned content)
  | None => (w, Thrown (SystemError (lit "ENOENT")))
  end.

(** The receiver of a method call: calling a method of [undefined] throws
    a [TypeError]. *)
Definition receiver {A} (v : option A) : M A :=
  match v with
  | Some a => mret a
  | None => throw TypeError
  end.

Definition NO_DATA : jsstring := lit "No log data available".

Definition RULE : jsstring := lit "===============================".

(** The template literal that [generateReport] returns, with the five
    fields of [stats] interpolated. *)
Definition report_text (totalEntries errors warnings : nat)
    (startTime endTime : option jsstring) : jsstring :=
  [LF] ++ RULE ++ [LF]
  ++ lit "  SYSTEM MONITOR REPORT" ++ [LF]
  ++ RULE ++ [LF]
  ++ lit "Total Log Entries: " ++ show_nat totalEntries ++ [LF]
  ++ lit "Errors: " ++ show_nat errors ++ [LF]
  ++ lit "Warnings: " ++ show_nat warnings ++ [LF]
  ++ lit "Start Time: " ++ show_or_undefined startTime ++ [LF]
  ++ lit "End Time: " ++ show_or_undefined endTime ++ [LF]
  ++ RULE ++ [LF].

Definition generateReport : M jsstring :=
  present ← existsSync;
  if negb present then mret NO_DATA
  else
    content ← readFileSync;
    let lines := List.filter (fun line => truthy (trim line)) (split content LF) in
    if Nat.eqb (length lines) 0 then mret NO_DATA
    else
      let totalEntries := length lines in
      let errors :=
        length (List.filter (fun line => includes line (lit "[ERROR]")) lines) in
      let warnings :=
        length (List.filter (fun line => includes line (lit "[WARN]")) lines) in
      first ← receiver (index lines 0);
      let startTime := index (split first SPACE) 0 in
      before_last ← receiver (index lines (Z.of_nat (length lines) - 2));
      let endTime := index (split before_last SPACE) 0 in
      mret (report_text totalEntries errors warnings startTime endTime).

(** *** The program's wiring *)

(** The world once the module has created [logger] and [monitor] and
    registered the console listener, before the first call of [log], given
    the log file the previous runs left and the clock. *)
Definition initial_world (file : option jsstring) (clock : nat -> jsstring)
    : world :=
  {| log_file := file; console := []; listeners := [console_mirror];
     emitted := []; clock := clock; clock_reads := 0;
     timers := ∅; next_timer := 0;
     monitoring := false; monitorInterval := None |}.

(** ** Notions of the specification *)

(** The text whose lines are [pieces]: the pieces with [sep] between
    them. *)
Fixpoint join (sep : N) (pieces : list jsstring) : jsstring :=
  match pieces with
  | [] => []
  | piece :: rest =>
      match rest with
      | [] => piece
      | _ :: _ => piece ++ sep :: join sep rest
      end
  end.

(** The lines of a text: the pieces between its line feeds. *)
Definition lines_of (content : jsstring) (pieces : list jsstring) : Prop :=
  pieces ≠ [] ∧ Forall (λ piece : jsstring, LF ∉ piece) pieces ∧
  content = join LF pieces.

(** A blank line has white space only. *)
Definition blank (line : jsstring) : Prop :=
  Forall (λ c, is_white_space c = true) line.

#[global] Instance blank_dec (line : jsstring) : Decision (blank line) :=
  Forall_dec (λ c, is_white_space c = true) line.

(** [s] has [needle] as a substring. *)
Definition contains (s needle : jsstring) : Prop :=
  ∃ before after : jsstring, s = before ++ needle ++ after.

(** [counts P l n]: exactly [n] elements of [l] satisfy [P]. *)
Inductive counts {A} (P : A → Prop) : list A → nat → Prop :=
  | counts_nil : counts P [] 0
  | counts_hit x l n : P x → counts P l n → counts P (x :: l) (S n)
  | counts_miss x l n : ¬ P x → counts P l n → counts P (x :: l) n.

(** [token] is what precedes the first space of [line], the whole line
    when it has no space. *)
Definition first_token (line token : jsstring) : Prop :=
  (SPACE ∉ token) ∧ (line = token ∨ ∃ rest, line = token ++ SPACE :: rest).

(** [token] is the first token of [line] when any white space delimits
    tokens: a run of characters that are not white space, with nothing but
    white space before it and white space or the end of the line after
    it. *)
Definition whitespace_token (line token : jsstring) : Prop :=
  token ≠ [] ∧ Forall (λ c, is_white_space c = false) token ∧
  ∃ before after,
    blank before ∧ line = before ++ token ++ after ∧
    (after = [] ∨ ∃ c rest, after = c :: rest ∧ is_white_space c = true).

(** [h] hundredths is the fraction [n / d] rounded to two decimals: no
    decimal with two fraction digits is nearer to [n / d]. *)
Definition rounded_to_2_decimals (n d h : Z) : Prop :=
  2 * Z.abs (h * d - 100 * n) ≤ d.

(** [h] hundredths is what rounding the fraction [n / d], a percentage of
    at most 100, to two decimals gives once the fraction has been computed
    in doubles, by up to three operations: it is no further from [n / d]
    than half a hundredth and [2^-44]. *)
Definition rounded_in_doubles (n d h : Z) : Prop :=
  2 ^ 45 * Z.abs (h * d - 100 * n) ≤ (2 ^ 44 + 200) * d.

(** A rounded value is above the integer threshold [t]. *)
Definition exceeds (x : fixed2) (t : Z) : Prop :=
  match x with
  | Hundredths h => 100 * t < h
  | NotANumber => False
  | Infinite negative => negative = false
  end.

(** The sum of a tick counter over the cores. *)
Definition sum_ticks (f : CpuTimes → Z) (cpus : list CpuCore) : Z :=
  foldr (λ cpu acc, f (times cpu) + acc) 0 cpus.

Definition all_ticks (t : CpuTimes) : Z :=
  user t + nice t + sys t + idle t + irq t.

(** No listener throws, whatever it is called with. *)
Definition listeners_return (w : world) : Prop :=
  ∀ l : listener, l ∈ listeners w →
    ∀ entry file out, (l entry file out).2 = None.

(** [delivery entry file ls out out' r]: notifying the listeners [ls] of
    [entry], each of them seeing the log file [file], takes the console
    from [out] to [out'] and ends with [r]; the first listener that throws
    ends the delivery with its exception. *)
Inductive delivery (entry : LogEntry) (file : option jsstring) :
    list listener → list jsstring → list jsstring → outcome unit → Prop :=
  | delivery_done out :
      delivery entry file [] out out (Returned tt)
  | delivery_next l ls out out' out'' r :
      l entry file out = (out', None) →
      delivery entry file ls out' out'' r →
      delivery entry file (l :: ls) out out'' r
  | delivery_throw l ls out out' e :
      l entry file out = (out', Some e) →
      delivery entry file (l :: ls) out out' (Thrown e).

(** The entries emitted between two states of the world, as pairs of
    level and message. *)
Definition raised (w w' : world) : list (jsstring * jsstring) :=
  (λ entry, (type entry, message entry)) <$>
    drop (length (emitted w)) (emitted w').

(** The alert messages. *)
Definition critical (subject : jsstring) (percent : fixed2) : jsstring :=
  SIREN ++ lit " CRITICAL: " ++ subject ++ lit " usage at "
    ++ show_fixed2 percent ++ lit "%".

Definition warning (subject : jsstring) (percent : fixed2) : jsstring :=
  WARNING_SIGN ++ lit "  WARNING: " ++ subject ++ lit " usage at "
    ++ show_fixed2 percent ++ lit "%".

(** A call of the logger by one of its four methods. *)
Inductive call : Type :=
  | Log (message : jsstring) (type : option jsstring)
  | Info (message : jsstring)
  | Warn (message : jsstring)
  | Error (message : jsstring).

Definition perform (c : call) : M unit :=
  match c with
  | Log message type => log message type
  | Info message => info message
  | Warn message => warn message
  | Error message => error message
  end.

Definition level_of (c : call) : jsstring :=
  match c with
  | Log _ (Some type) => type
  | Log _ None | Info _ => INFO
  | Warn _ => WARN
  | Error _ => ERROR
  end.

Definition message_of (c : call) : jsstring :=
  match c with
  | Log message _ | Info message | Warn message | Error message => message
  end.

(** The world after a sequence of calls, each made whether or not the one
    before it returned normally. *)
Fixpoint perform_all (calls : list call) (w : world) : world :=
  match calls with
  | [] => w
  | c :: calls' => perform_all calls' (perform c w).1
  end.

(** The line a call writes when the clock reads [stamp]. *)
Definition log_line (stamp : jsstring) (c : call) : jsstring :=
  stamp ++ lit " [" ++ level_of c ++ lit "] " ++ message_of c.

Definition is_digit (c : N) : bool := ((48 <=? c) && (c <=? 57))%N.

(** [s] has the shape of [pattern], where the letter [d] of the pattern
    stands for a decimal digit and any other character for itself. *)
Fixpoint has_shape (pattern s : jsstring) : bool :=
  match pattern, s with
  | [], [] => true
  | p :: pattern', c :: s' =>
      (if N.eqb p 100 then is_digit c else N.eqb c p) && has_shape pattern' s'
  | _, _ => false
  end.

(** The format of [toISOString] for the years 0 to 9999:
    [YYYY-MM-DDTHH:mm:ss.sssZ]. *)
Definition is_iso_timestamp (s : jsstring) : bool :=
  has_shape (lit "dddd-dd-ddTdd:dd:dd.dddZ") s.

(** The lines that a sequence of calls writes when the clock has been
    read [k] times before the first of them. *)
Fixpoint expected_lines (clock : nat → jsstring) (k : nat) (calls : list call)
    : list jsstring :=
  match calls with
  | [] => []
  | c :: calls' => log_line (clock k) c :: expected_lines clock (S k) calls'
  end.

(** The entry that [log(message, type)] builds in the world [w], and the
    world once it has appended the entry's line, emitted the entry and the
    listeners have left the console as [out]. *)
Definition entry_of (w : world) (message : jsstring) (type : option jsstring)
    : LogEntry :=
  {| timestamp := clock w (clock_reads w);
     type := from_option id INFO type;
     message := message |}.

Definition line_of (entry : LogEntry) : jsstring :=
  timestamp entry ++ lit " [" ++ type entry ++ lit "] " ++ message entry
    ++ [LF].

Definition logged (entry : LogEntry) (out : list jsstring) (w : world)
    : world :=
  {| log_file := Some (from_option id [] (log_file w) ++ line_of entry);
     console := out; listeners := listeners w;
     emitted := emitted w ++ [entry];
     clock := clock w; clock_reads := S (clock_reads w);
     timers := timers w; next_timer := next_timer w;
     monitoring := monitoring w; monitorInterval := monitorInterval w |}.

(** ** Sample inputs *)

(** A clock that stands still. *)
Definition noon (k : nat) : jsstring := lit "2024-01-01T12:00:00.000Z".

(** A listener that always throws, and the world in which it has been
    registered after the listener of the program. *)
Definition failing_listener : listener := fun _ _ out =>
  (out, Some (ListenerError (lit "listener failed"))).

Definition world_with_failing_listener : world :=
  set_listeners [console_mirror; failing_listener] (initial_world None noon).

(** Calls of the logger by each of its methods, a call whose message has
    two lines, and the world in which monitoring runs. *)
Definition sample_calls : list call :=
  [Info (lit "System Monitor Backend Initialized");
   Log (lit "Process ID: 4242") None;
   Warn (WARNING_SIGN ++ lit "  WARNING: CPU usage at 61.5%");
   Error (SIREN ++ lit " CRITICAL: Memory usage at 90%")].

Definition multiline_call : call :=
  Info (lit "disk" ++ [LF] ++ lit "full").

(** A call whose message ends with the first half of the siren. *)
Definition cut_call : call :=
  Info (lit "alert " ++ [0xD83D%N]).


(** A machine of two cores that uses nine tenths of its memory and about
    two thirds of its processor time. *)
Definition busy_cpus : list CpuCore :=
  [{| core_model := lit "Example CPU @ 3.00GHz";
      times := {| user := 5000; nice := 0; sys := 1400; idle := 3500;
                  irq := 100 |} |};
   {| core_model := lit "Example CPU @ 3.00GHz";
      times := {| user := 5200; nice := 10; sys := 1390; idle := 3300;
                  irq := 100 |} |}].

Definition busy_memory : MemoryInfo := getMemoryInfo 17179869184 1717986918.

(** A machine whose memory in use comes to 32.735000000000003 hundredths
    of the total, and one for the processor time in use, at 72.735 and a
    little: the doubles for these percentages are below the tie. *)
Definition uneven_memory : MemoryInfo :=
  getMemoryInfo 1125899906842624 757336572337691.

Definition uneven_cpus : list CpuCore :=
  [{| core_model := lit "Example CPU @ 3.00GHz";
      times := {| user := 764315915660; nice := 0; sys := 0;
                  idle := 286506818457; irq := 0 |} |}].

Definition busy_cpu : CPUInfo := getCPUInfo busy_cpus [] busy_cpus.

(** A log with a single entry, and one with three entries. *)
Definition one_entry_log : jsstring :=
  lit "2024-01-01T12:00:00.000Z [INFO] System Monitor Backend Initialized"
    ++ [LF].

(** A log whose first line has a tab before its first space. *)
Definition tabbed_log : jsstring :=
  lit "12:00" ++ [9%N] ++ lit "boot ok" ++ [LF]
  ++ lit "12:01 [INFO] up" ++ [LF]
  ++ lit "12:02 [INFO] down" ++ [LF].

Definition three_entry_log : jsstring :=
  lit "2024-01-01T12:00:00.000Z [INFO] System monitoring started" ++ [LF]
  ++ lit "2024-01-01T12:00:03.000Z [ERROR] overheated" ++ [LF]
  ++ lit "2024-01-01T12:00:06.000Z [INFO] System monitoring stopped" ++ [LF].

(** ** The rest of the monitor: the other collectors, the tick, the program *)

Record ProcessInfo : Type := {
  memoryUsed : Z;
  memoryUsedFormatted : jsstring;
  uptime : fixed2
}.

(** [getProcessInfo()]; [rss] is the value of [process.memoryUsage().rss],
    [hrtime] the value of [process.hrtime.bigint()], in nanoseconds, and
    [startTime] the field that the constructor filled with the reading of
    the same counter.  The difference of the two BigInts is exact; its
    conversion to a number and the division round. *)
Definition getProcessInfo (rss hrtime startTime : Z) : ProcessInfo :=
  let uptime :=
    js_div_by (Number_of_BigInt (hrtime - startTime)) 1000000000 in
  {| memoryUsed := rss;
     memoryUsedFormatted := formatBytes rss;
     uptime := parseFloat_toFixed2 uptime |}.

Record UserInfo : Type := {
  username : jsstring;
  homedir : jsstring
}.

(** What the expression [os.userInfo ? os.userInfo() : {}] meets: no such
    function, a function that returns the record of the user, or one that
    throws, as [os.userInfo] does for a user without name or home. *)
Inductive userInfo_reading : Type :=
  | UserInfoMissing
  | UserInfoValue (user : UserInfo)
  | UserInfoThrows (e : exception).

(** The field [userInfo] is [None] for the empty object. *)
Record SystemInfo : Type := {
  hostname : jsstring;
  platform : jsstring;
  arch : jsstring;
  os_uptime : number;
  userInfo : option UserInfo
}.

(** [getSystemInfo()]; the parameters are the values of [os.hostname()],
    [os.platform()], [os.arch()] and [os.uptime()], and the reading of
    [os.userInfo].  The uptime is given as a rational and reaches the
    program as the nearest double. *)
Definition getSystemInfo (hostname platform arch : jsstring) (uptime : Q)
    (user : userInfo_reading) : M SystemInfo :=
  match user with
  | UserInfoMissing =>
      mret {| hostname := hostname; platform := platform; arch := arch;
              os_uptime := double_round uptime; userInfo := None |}
  | UserInfoValue u =>
      mret {| hostname := hostname; platform := platform; arch := arch;
              os_uptime := double_round uptime; userInfo := Some u |}
  | UserInfoThrows e => throw e
  end.

Record NetworkInfo : Type := {
  interfaces : nat;
  details : gmap (list N) (list jsstring)
}.

(** [getNetworkInfo()]; the parameter is the object that
    [os.networkInterfaces()] returns, the addresses by interface name. *)
Definition getNetworkInfo (networkInterfaces : gmap (list N) (list jsstring))
    : NetworkInfo :=
  let interfaceCount := size networkInterfaces in
  {| interfaces := interfaceCount; details := networkInterfaces |}.

(** What one tick reads from the operating system and the process, in the
    order of the reads. *)
Record os_readings : Type := {
  os_totalmem : Z;
  os_freemem : Z;
  os_cpus : list CpuCore;
  os_loadavg : list Q;
  os_cpus_again : list CpuCore;
  process_rss : Z;
  process_hrtime : Z;
  os_hostname : jsstring;
  os_platform : jsstring;
  os_arch : jsstring;
  os_uptime_seconds : Q;
  os_userInfo : userInfo_reading;
  os_networkInterfaces : gmap (list N) (list jsstring)
}.

(** [collectSystemMetrics()], the callback of the timer; [startTime] is
    the field of the monitor. *)
Definition collectSystemMetrics (startTime : Z) (os : os_readings) : M unit :=
  let memory := getMemoryInfo (os_totalmem os) (os_freemem os) in
  info (lit "Memory: " ++ show_fixed2 (usedPercent memory) ++ lit "% ("
          ++ usedFormatted memory ++ lit "/" ++ totalFormatted memory
          ++ lit ")");;
  let cpu := getCPUInfo (os_cpus os) (os_loadavg os) (os_cpus_again os) in
  info (lit "CPU: " ++ show_nat (cores cpu) ++ lit " cores, " ++ model cpu);;
  info (lit "CPU Usage: " ++ show_fixed2 (usagePercent cpu) ++ lit "%");;
  let processInfo :=
    getProcessInfo (process_rss os) (process_hrtime os) startTime in
  info (lit "Process: " ++ memoryUsedFormatted processInfo
          ++ lit ", Uptime: " ++ show_fixed2 (uptime processInfo) ++ lit "s");;
  system ← getSystemInfo (os_hostname os) (os_platform os) (os_arch os)
             (os_uptime_seconds os) (os_userInfo os);
  info (lit "System: " ++ platform system ++ lit " " ++ arch system
          ++ lit " (" ++ hostname system ++ lit ")");;
  let network := getNetworkInfo (os_networkInterfaces os) in
  info (lit "Network Interfaces: " ++ show_nat (interfaces network));;
  checkAlerts memory cpu.

(** What the module does when it is loaded, once the listener is
    registered: it starts the monitor and then writes its three entries;
    [version] is [process.version] and [pid] is [process.pid]. *)
Definition startup (version : jsstring) (pid : N) : M unit :=
  startMonitoring (Some 3000);;
  info (lit "System Monitor Backend Initialized");;
  info (lit "Node.js Version: " ++ version);;
  info (lit "Process ID: " ++ show_N pid).

(** The process around the world of the logger and the monitor: the file
    [./monitor-report.txt] and the status [process.exit] was called
    with. *)
Record process : Type := {
  env : world;
  report_file : option jsstring;
  exit_code : option Z
}.

Definition console_log (line : jsstring) : M unit :=
  modify (fun w => set_console (console w ++ [line]) w).

(** The handler of [SIGINT].  An exception leaves it at once: the report
    file is then not written and [process.exit(0)] is not reached. *)
Definition on_SIGINT (p : process) : process * outcome unit :=
  match
    (console_log (LF :: lit "Shutting down monitor...");;
     stopMonitoring;;
     generateReport) (env p)
  with
  | (w, Returned report) =>
      ({| env := (console_log (lit "Report saved to monitor-report.txt") w).1;
          report_file := Some report;
          exit_code := Some 0 |},
       Returned tt)
  | (w, Thrown e) =>
      ({| env := w; report_file := report_file p; exit_code := exit_code p |},
       Thrown e)
  end.

(** The process once the module is loaded. *)
Definition loaded (file report : option jsstring) (clock : nat → jsstring)
    (version : jsstring) (pid : N) : process :=
  {| env := (startup version pid (initial_world file clock)).1;
     report_file := report;
     exit_code := None |}.

(** *** Notions for the properties of these functions *)

(** The number of lines of a text that are not blank. *)
Definition line_count (content : jsstring) : nat :=
  length (filter (λ line, ¬ blank line) (split content LF)).

(** Every armed timer has a handle below the next free one. *)
Definition handles_below (w : world) : Prop :=
  ∀ h, is_Some (timers w !! h) → (h < next_timer w)%nat.

(** The tick counters of all cores are not negative. *)
Definition counters_nonnegative (cpus : list CpuCore) : Prop :=
  Forall (λ cpu, 0 ≤ user (times cpu) ∧ 0 ≤ nice (times cpu) ∧
                 0 ≤ sys (times cpu) ∧ 0 ≤ idle (times cpu) ∧
                 0 ≤ irq (times cpu)) cpus.

(** The readings whose integers the doubles of the program hold, add,
    subtract and print exactly: a positive total of memory and a resident
    set of at most one kilobyte short of 1024 TB, free memory within the
    total, tick counters that are not negative and sum to [2^53] at most,
    and a reading of the nanosecond counter, which has 64 bits, that is
    not before the one the monitor started with. *)
Definition readings_in_range (startTime : Z) (os : os_readings) : Prop :=
  0 < os_totalmem os ≤ 1024 ^ 5 - 1024 ∧
  0 ≤ os_freemem os ≤ os_totalmem os ∧
  0 ≤ process_rss os ≤ 1024 ^ 5 - 1024 ∧
  counters_nonnegative (os_cpus_again os) ∧
  sum_ticks all_ticks (os_cpus_again os) ≤ 2 ^ 53 ∧
  0 ≤ startTime ≤ process_hrtime os ∧ process_hrtime os < 2 ^ 64.

(** What the console listener of the program prints for a call. *)
Definition mirror_line (c : call) : jsstring :=
  lit "[" ++ level_of c ++ lit "] " ++ message_of c.

(** The calls of the logger that [checkAlerts] makes. *)
Definition alert_calls (memory : MemoryInfo) (cpu : CPUInfo) : list call :=
  (if gt_int (usedPercent memory) 85
   then [Error (critical (lit "Memory") (usedPercent memory))]
   else if gt_int (usedPercent memory) 70
   then [Warn (warning (lit "Memory") (usedPercent memory))]
   else [])
  ++
  (if gt_int (usagePercent cpu) 80
   then [Error (critical (lit "CPU") (usagePercent cpu))]
   else if gt_int (usagePercent cpu) 60
   then [Warn (warning (lit "CPU") (usagePercent cpu))]
   else []).

(** The first four entries of a tick: memory, processor, processor usage,
    process. *)
Definition metric_calls_before_system (startTime : Z) (os : os_readings)
    : list call :=
  let memory := getMemoryInfo (os_totalmem os) (os_freemem os) in
  let cpu := getCPUInfo (os_cpus os) (os_loadavg os) (os_cpus_again os) in
  let processInfo :=
    getProcessInfo (process_rss os) (process_hrtime os) startTime in
  [Info (lit "Memory: " ++ show_fixed2 (usedPercent memory) ++ lit "% ("
           ++ usedFormatted memory ++ lit "/" ++ totalFormatted memory
           ++ lit ")");
   Info (lit "CPU: " ++ show_nat (cores cpu) ++ lit " cores, " ++ model cpu);
   Info (lit "CPU Usage: " ++ show_fixed2 (usagePercent cpu) ++ lit "%");
   Info (lit "Process: " ++ memoryUsedFormatted processInfo
           ++ lit ", Uptime: " ++ show_fixed2 (uptime processInfo)
           ++ lit "s")].

(** The last two of its six entries: system and network. *)
Definition metric_calls_from_system (os : os_readings) : list call :=
  [Info (lit "System: " ++ os_platform os ++ lit " " ++ os_arch os
           ++ lit " (" ++ os_hostname os ++ lit ")");
   Info (lit "Network Interfaces: "
           ++ show_nat (interfaces (getNetworkInfo (os_networkInterfaces os))))].

(** The calls of the logger when the module is loaded and when it is shut
    down at once. *)
Definition startup_calls (version : jsstring) (pid : N) : list call :=
  [Info (lit "System monitoring started");
   Info (lit "System Monitor Backend Initialized");
   Info (lit "Node.js Version: " ++ version);
   Info (lit "Process ID: " ++ show_N pid)].

(** The entries that a sequence of calls emits when the clock has been
    read [k] times before the first of them. *)
Fixpoint expected_entries (clock : nat → jsstring) (k : nat)
    (calls : list call) : list LogEntry :=
  match calls with
  | [] => []
  | c :: calls' =>
      {| timestamp := clock k; type := level_of c; message := message_of c |}
        :: expected_entries clock (S k) calls'
  end.

(** The log file and the process of a sample run: loaded at noon on no
    log file, by version 20 of the runtime, as process 4242. *)
Definition sample_startup_body : jsstring :=
  lit "2024-01-01T12:00:00.000Z [INFO] System monitoring started" ++ [LF]
  ++ lit "2024-01-01T12:00:00.000Z [INFO] System Monitor Backend Initialized"
  ++ [LF]
  ++ lit "2024-01-01T12:00:00.000Z [INFO] Node.js Version: v20.11.0" ++ [LF]
  ++ lit "2024-01-01T12:00:00.000Z [INFO] Process ID: 4242".

Definition sample_process : process :=
  loaded None None noon (lit "v20.11.0") 4242.

(** *** Sample readings *)

Definition sample_readings : os_readings :=
  {| os_totalmem := 17179869184; os_freemem := 1717986918;
     os_cpus := busy_cpus; os_loadavg := [(3 # 2)%Q];
     os_cpus_again := busy_cpus;
     process_rss := 47185920; process_hrtime := 9000000000;
     os_hostname := lit "host"; os_platform := lit "linux";
     os_arch := lit "x64"; os_uptime_seconds := (1000 # 1)%Q;
     os_userInfo := UserInfoValue {| username := lit "monitor";
                                     homedir := lit "/home/monitor" |};
     os_networkInterfaces := {[ lit "lo" := [lit "127.0.0.1"] ]} |}.

Definition readings_without_user : os_readings :=
  {| os_totalmem := 17179869184; os_freemem := 1717986918;
     os_cpus := busy_cpus; os_loadavg := [];
     os_cpus_again := busy_cpus;
     process_rss := 47185920; process_hrtime := 9000000000;
     os_hostname := lit "host"; os_platform := lit "linux";
     os_arch := lit "x64"; os_uptime_seconds := (1000 # 1)%Q;
     os_userInfo := UserInfoThrows (SystemError (lit "ENOENT"));
     os_networkInterfaces := ∅ |}.

(** * Properties *)

(** A closed decidable proposition, settled by evaluating its decision
    procedure. *)
Ltac by_computation :=
  match goal with
  | |- ?P => apply (bool_decide_unpack P); vm_compute; exact I
  end.

(** ** Strings *)

Lemma split_not_nil (s : jsstring) (sep : N) : split s sep ≠ [].
Proof.
  induction s as [|c s IH]; simpl; [done|].
  destruct (N.eqb c sep); [done|].
  by destruct (split s sep).
Qed.

Lemma split_without_sep (s : jsstring) (sep : N) :
  sep ∉ s → split s sep = [s].
Proof.
  induction s as [|c s IH]; simpl; [done|].
  intros Hnotin. apply not_elem_of_cons in Hnotin as [Hne Hnotin].
  destruct (N.eqb_spec c sep) as [->|_]; [done|].
  by rewrite IH.
Qed.

Lemma split_app_sep (piece rest : jsstring) (sep : N) :
  sep ∉ piece → split (piece ++ sep :: rest) sep = piece :: split rest sep.
Proof.
  induction piece as [|c piece IH]; simpl; intros Hnotin.
  - by rewrite N.eqb_refl.
  - apply not_elem_of_cons in Hnotin as [Hne Hnotin].
    destruct (N.eqb_spec c sep) as [->|_]; [done|].
    by rewrite IH.
Qed.

(** Splitting a text at its line feeds gives back its lines. *)
Lemma split_join (pieces : list jsstring) (sep : N) :
  pieces ≠ [] → Forall (λ piece : jsstring, sep ∉ piece) pieces →
  split (join sep pieces) sep = pieces.
Proof.
  induction pieces as [|piece rest IH]; [done|].
  intros _ Hall. apply Forall_cons in Hall as [Hpiece Hrest].
  destruct rest as [|next rest].
  - simpl. by apply split_without_sep.
  - change (join sep (piece :: next :: rest))
      with (piece ++ sep :: join sep (next :: rest)).
    rewrite split_app_sep by done. by rewrite IH.
Qed.

Lemma trimStart_nil (s : jsstring) : trimStart s = [] ↔ blank s.
Proof.
  unfold blank. induction s as [|c s IH]; simpl.
  - split; [constructor|done].
  - destruct (is_white_space c) eqn:Hc.
    + rewrite IH. split; [by constructor|]. by intros [_ ?]%Forall_cons.
    + split; [done|]. intros [? _]%Forall_cons. congruence.
Qed.

Lemma trimStart_blank (s : jsstring) : blank (trimStart s) ↔ blank s.
Proof.
  unfold blank. induction s as [|c s IH]; simpl; [done|].
  destruct (is_white_space c) eqn:Hc; [|done].
  rewrite IH. split; [by constructor|]. by intros [_ ?]%Forall_cons.
Qed.

(** A line survives [filter((line) => line.trim())] exactly when it is not
    blank. *)
Lemma truthy_trim (s : jsstring) : truthy (trim s) = true ↔ ¬ blank s.
Proof.
  assert (trim s = [] ↔ blank s) as Hnil.
  { unfold trim, trimEnd. rewrite <- trimStart_blank.
    transitivity (trimStart (rev (trimStart s)) = []).
    - split; intros H.
      + apply (f_equal (@rev N)) in H. by rewrite rev_involutive in H.
      + by rewrite H.
    - rewrite trimStart_nil. unfold blank. split; intros H.
      + rewrite <- (rev_involutive (trimStart s)). by apply Forall_rev.
      + by apply Forall_rev. }
  destruct (trim s) eqn:Ht; simpl.
  - split; [done|]. intros Hnb. destruct Hnb. by apply Hnil.
  - split; [|done]. intros _ Hb. apply Hnil in Hb. done.
Qed.

Lemma startsWith_prefix (s prefix : jsstring) :
  startsWith s prefix = true ↔ ∃ rest, s = prefix ++ rest.
Proof.
  revert s. induction prefix as [|a prefix IH]; intros s; simpl.
  - split; [intros _; by exists s|by destruct s].
  - destruct s as [|b s]; simpl.
    + split; [done|]. by intros [rest ?].
    + rewrite andb_true_iff, IH, N.eqb_eq. split.
      * intros [-> [rest ->]]. by exists rest.
      * intros [rest [= -> ->]]. split; [done|by exists rest].
Qed.

(** [includes] finds exactly the substrings. *)
Lemma includes_contains (s needle : jsstring) :
  includes s needle = true ↔ contains s needle.
Proof.
  unfold contains. induction s as [|c s IH].
  - change (includes [] needle) with (startsWith [] needle || false).
    rewrite orb_false_r, startsWith_prefix. split.
    + intros [rest ->]. by exists [], rest.
    + intros [before [after Heq]]. symmetry in Heq.
      apply app_eq_nil in Heq as [-> Heq]. by exists after.
  - change (includes (c :: s) needle)
      with (startsWith (c :: s) needle || includes s needle).
    rewrite orb_true_iff, startsWith_prefix, IH. split.
    + intros [[rest ->]|[before [after ->]]].
      * by exists [], rest.
      * by exists (c :: before), after.
    + intros [before [after Heq]]. destruct before as [|b before].
      * left. by exists after.
      * right. injection Heq as -> ->. by exists before, after.
Qed.

(** The first piece of [line.split(" ")] is the first token of the line. *)
Lemma split_first_token (line : jsstring) :
  ∃ token, index (split line SPACE) 0 = Some token ∧ first_token line token.
Proof.
  unfold first_token, index. simpl.
  induction line as [|c line (token & Hlook & Hnotin & Hshape)]; simpl.
  - exists []. split; [done|]. split; [apply not_elem_of_nil|by left].
  - destruct (N.eqb_spec c SPACE) as [->|Hne].
    + exists []. split; [done|]. split; [apply not_elem_of_nil|].
      right. by exists line.
    + destruct (split line SPACE) as [|piece pieces]; [done|].
      injection Hlook as ->. exists (c :: token). split; [done|]. split.
      * apply not_elem_of_cons. split; [congruence|done].
      * destruct Hshape as [->|[rest ->]]; [by left|right; by exists rest].
Qed.

(** A token is determined by its line. *)
Lemma first_token_unique (line token token' : jsstring) :
  first_token line token → first_token line token' → token = token'.
Proof.
  revert token token'.
  induction line as [|c line IH]; intros token token' [Hn H] [Hn' H'].
  - destruct H as [<-|[rest H]], H' as [<-|[rest' H']]; try done.
    + by destruct token'.
    + by destruct token.
    + by destruct token.
  - assert (∀ t, SPACE ∉ t →
              (c :: line = t ∨ ∃ rest, c :: line = t ++ SPACE :: rest) →
              (c = SPACE ∧ t = []) ∨
              (c ≠ SPACE ∧ ∃ t', t = c :: t' ∧ first_token line t')) as Hcase.
    { intros t Hnt Ht. destruct t as [|a t].
      - left. destruct Ht as [?|[rest [= -> _]]]; done.
      - right. apply not_elem_of_cons in Hnt as [Hne Hnt].
        assert (a = c) as -> by (destruct Ht as [[= ->]|[rest [= ->]]]; done).
        split; [congruence|]. exists t. split; [done|]. split; [done|].
        destruct Ht as [[= ->]|[rest [= ->]]]; [by left|right; by exists rest]. }
    destruct (Hcase token Hn H) as [[-> ->]|[Hc (t & -> & Ht)]],
      (Hcase token' Hn' H') as [[? ->]|[Hc' (t' & -> & Ht')]]; try done.
    f_equal. by apply IH.
Qed.

(** Counting with a boolean test that decides the property. *)
Lemma counts_filter {A} (P : A → Prop) (f : A → bool) (l : list A) :
  (∀ x, f x = true ↔ P x) → counts P l (length (List.filter f l)).
Proof.
  intros Hf. induction l as [|x l IH]; simpl; [constructor|].
  destruct (f x) eqn:Hx.
  - simpl. constructor; [by apply Hf|done].
  - constructor; [|done]. rewrite <- Hf. congruence.
Qed.

Lemma counts_unique {A} (P : A → Prop) (l : list A) (n m : nat) :
  counts P l n → counts P l m → n = m.
Proof.
  intros Hn. revert m. induction Hn; intros m Hm; inversion Hm; subst;
    try done; f_equal; auto.
Qed.

(** The array [lines] of [generateReport]: the lines that are not blank. *)
Lemma filter_truthy_trim (pieces : list jsstring) :
  List.filter (λ line, truthy (trim line)) pieces
  = filter (λ line, ¬ blank line) pieces.
Proof.
  induction pieces as [|piece pieces IH]; [done|].
  rewrite filter_cons. simpl. rewrite IH.
  destruct (truthy (trim piece)) eqn:Ht.
  - apply truthy_trim in Ht. by rewrite decide_True.
  - rewrite decide_False; [done|]. rewrite <- truthy_trim. congruence.
Qed.

Lemma join_split (s : jsstring) (sep : N) : join sep (split s sep) = s.
Proof.
  induction s as [|c s IH]; [done|]. simpl.
  pose proof (split_not_nil s sep) as Hne.
  destruct (N.eqb_spec c sep) as [->|_];
    destruct (split s sep) as [|piece pieces]; try done.
  - simpl in *. by rewrite IH.
  - destruct pieces; simpl in *; by rewrite <- IH.
Qed.

Lemma split_pieces_without_sep (s : jsstring) (sep : N) :
  Forall (λ piece : jsstring, sep ∉ piece) (split s sep).
Proof.
  induction s as [|c s IH]; simpl.
  - constructor; [apply not_elem_of_nil|constructor].
  - destruct (N.eqb_spec c sep) as [->|Hne].
    + constructor; [apply not_elem_of_nil|done].
    + destruct (split s sep) as [|piece pieces].
      * constructor; [|constructor].
        apply not_elem_of_cons. split; [congruence|apply not_elem_of_nil].
      * apply Forall_cons in IH as [Hpiece Hpieces]. constructor; [|done].
        apply not_elem_of_cons. split; [congruence|done].
Qed.

(** A text has exactly one list of lines, the one [split] computes. *)
Lemma lines_of_split (content : jsstring) (pieces : list jsstring) :
  lines_of content pieces ↔ pieces = split content LF.
Proof.
  split.
  - intros (Hne & Hall & ->). by rewrite split_join.
  - intros ->. split; [apply split_not_nil|]. split.
    + apply split_pieces_without_sep.
    + by rewrite join_split.
Qed.

(** ** Report *)

(** What [generateReport] does with a log file that exists, by the number
    of its lines that are not blank. *)
Lemma generateReport_present (w : world) (content : jsstring) :
  log_file w = Some content →
  let lines := List.filter (λ line, truthy (trim line)) (split content LF) in
  generateReport w =
    (w,
     match lines with
     | [] => Returned NO_DATA
     | first :: _ =>
         match index lines (Z.of_nat (length lines) - 2) with
         | Some before_last =>
             Returned
               (report_text (length lines)
                  (length (List.filter (λ line, includes line (lit "[ERROR]")) lines))
                  (length (List.filter (λ line, includes line (lit "[WARN]")) lines))
                  (index (split first SPACE) 0)
                  (index (split before_last SPACE) 0))
         | None => Thrown TypeError
         end
     end).
Proof.
  intros Hfile lines.
  unfold generateReport, existsSync, readFileSync, gets, mbind, M_bind.
  rewrite Hfile. simpl. rewrite Hfile. simpl. fold lines.
  destruct lines as [|first rest] eqn:Hlines; [done|].
  cbn [length Nat.eqb receiver index Z.ltb Z.compare Z.to_nat lookup list_lookup].
  unfold mret, M_ret.
  by destruct (index (first :: rest) (Z.of_nat (S (length rest)) - 2)).
Qed.

Lemma generateReport_absent (w : world) :
  log_file w = None → generateReport w = (w, Returned NO_DATA).
Proof.
  intros Hfile.
  unfold generateReport, existsSync, gets, mbind, M_bind. by rewrite Hfile.
Qed.

Lemma index_before_last {A} (l : list A) :
  index l (Z.of_nat (length l) - 2) = reverse l !! 1%nat.
Proof.
  unfold index. destruct (Z.ltb_spec (Z.of_nat (length l) - 2) 0) as [Hlt|Hge].
  - symmetry. apply lookup_ge_None. rewrite length_reverse. lia.
  - replace (Z.to_nat (Z.of_nat (length l) - 2)) with (length l - 2)%nat by lia.
    destruct (reverse l !! 1%nat) as [x|] eqn:Hrev.
    + apply reverse_lookup_Some in Hrev as [Hlook Hlen].
      rewrite <- Hlook. f_equal; lia.
    + apply lookup_ge_None in Hrev. rewrite length_reverse in Hrev. lia.
Qed.

Lemma report_text_not_NO_DATA totalEntries errors warnings startTime endTime :
  report_text totalEntries errors warnings startTime endTime ≠ NO_DATA.
Proof. done. Qed.

Lemma filter_not_blank_nil (pieces : list jsstring) :
  filter (λ line, ¬ blank line) pieces = [] ↔ Forall blank pieces.
Proof.
  induction pieces as [|piece pieces IH]; [by split; [constructor|]|].
  rewrite filter_cons, Forall_cons. case_decide as Hpiece.
  - split; [done|]. by intros [? _].
  - rewrite IH. split; [|by intros [_ ?]].
    intros Hall. split; [|done]. by destruct (decide (blank piece)).
Qed.

(** C2, as amended: for a log file with at least two lines that are not
    blank, [generateReport] returns the report block that embeds the number
    of those lines, the number of them that contain ["[ERROR]"], the number
    that contain ["[WARN]"], the text before the first space of the first of
    them and the text before the first space of the second-to-last of them;
    the world is left as it was. *)
Theorem generateReport_stats (w : world) (content : jsstring)
    (pieces : list jsstring) :
  log_file w = Some content →
  lines_of content pieces →
  (2 ≤ length (filter (λ line, ¬ blank line) pieces))%nat →
  ∃ first before_last startTime endTime errors warnings,
    let lines := filter (λ line, ¬ blank line) pieces in
    lines !! 0%nat = Some first ∧
    reverse lines !! 1%nat = Some before_last ∧
    first_token first startTime ∧
    first_token before_last endTime ∧
    counts (λ line, contains line (lit "[ERROR]")) lines errors ∧
    counts (λ line, contains line (lit "[WARN]")) lines warnings ∧
    generateReport w =
      (w, Returned (report_text (length lines) errors warnings
                      (Some startTime) (Some endTime))).
Proof.
  intros Hfile ->%lines_of_split Hlen.
  rewrite (generateReport_present w content Hfile), filter_truthy_trim.
  set (lines := filter (λ line, ¬ blank line) (split content LF)) in *.
  destruct lines as [|first rest] eqn:Hlines; [simpl in Hlen; lia|].
  rewrite <- Hlines, index_before_last.
  destruct (reverse lines !! 1%nat) as [before_last|] eqn:Hrev.
  2:{ apply lookup_ge_None in Hrev. rewrite length_reverse, Hlines in Hrev.
      lia. }
  destruct (split_first_token first) as (startTime & -> & Hstart).
  destruct (split_first_token before_last) as (endTime & -> & Hend).
  exists first, before_last, startTime, endTime.
  eexists _, _. cbn zeta.
  repeat split; try done.
  - by rewrite Hlines.
  - apply Hstart.
  - apply Hstart.
  - apply Hend.
  - apply Hend.
  - apply counts_filter. intros line. apply includes_contains.
  - apply counts_filter. intros line. apply includes_contains.
Qed.

Lemma generateReport_stats_witness :
  ∃ first before_last startTime endTime errors warnings,
    let lines :=
      filter (λ line, ¬ blank line) (split three_entry_log LF) in
    lines !! 0%nat = Some first ∧
    reverse lines !! 1%nat = Some before_last ∧
    first_token first startTime ∧
    first_token before_last endTime ∧
    counts (λ line, contains line (lit "[ERROR]")) lines errors ∧
    counts (λ line, contains line (lit "[WARN]")) lines warnings ∧
    generateReport (initial_world (Some three_entry_log) noon) =
      (initial_world (Some three_entry_log) noon,
       Returned (report_text (length lines) errors warnings
                   (Some startTime) (Some endTime))).
Proof.
  apply (generateReport_stats (initial_world (Some three_entry_log) noon)
           three_entry_log (split three_entry_log LF)).
  - reflexivity.
  - apply lines_of_split. reflexivity.
  - vm_compute. lia.
Defined.

(** C2 as stated fails on a log with one entry: the file has a line that is
    not blank, and yet no report comes back.  It also fails on a log whose
    first line has a tab before its first space: the start time of the
    report runs up to the space, across the tab, and so is not a token
    delimited by white space. *)
Lemma generateReport_one_entry_no_report :
  (let w := initial_world (Some one_entry_log) noon in
   lines_of one_entry_log
     [lit "2024-01-01T12:00:00.000Z [INFO] System Monitor Backend Initialized";
      []] ∧
   (1 ≤ length (filter (λ line, ¬ blank line) (split one_entry_log LF)))%nat ∧
   ∀ text, generateReport w ≠ (w, Returned text)) ∧
  (let w := initial_world (Some tabbed_log) noon in
   let first := lit "12:00" ++ [9%N] ++ lit "boot ok" in
   let startTime := lit "12:00" ++ [9%N] ++ lit "boot" in
   filter (λ line, ¬ blank line) (split tabbed_log LF) !! 0%nat = Some first ∧
   generateReport w =
     (w, Returned (report_text 3 0 0 (Some startTime) (Some (lit "12:01")))) ∧
   whitespace_token first (lit "12:00") ∧
   ¬ whitespace_token first startTime).
Proof.
  split.
  - split; [by apply lines_of_split|]. split; [vm_compute; lia|].
    intros text. by vm_compute.
  - split; [by vm_compute|]. split; [by vm_compute|]. split.
    + split; [done|]. split; [by repeat constructor|].
      exists [], ([9%N] ++ lit "boot ok").
      split; [constructor|]. split; [done|]. right. by eexists _, _.
    + intros (_ & Hchars & _). revert Hchars. simpl.
      rewrite !Forall_cons. intros (_ & _ & _ & _ & _ & Htab & _). done.
Qed.

(** C5: [generateReport] returns ["No log data available"] exactly when the
    log file does not exist or has no line that is not blank; it then
    returns normally, leaves the world as it was, and the text it returns
    is not a report block. *)
Theorem generateReport_no_data (w : world) :
  (generateReport w = (w, Returned (lit "No log data available")) ↔
     log_file w = None ∨
     ∃ content pieces,
       log_file w = Some content ∧ lines_of content pieces ∧
       Forall blank pieces) ∧
  ∀ totalEntries errors warnings startTime endTime,
    report_text totalEntries errors warnings startTime endTime
    ≠ lit "No log data available".
Proof.
  change (lit "No log data available") with NO_DATA.
  split; [|apply report_text_not_NO_DATA]. split.
  - intros Hreport. destruct (log_file w) as [content|] eqn:Hfile; [|by left].
    right. exists content, (split content LF).
    split; [done|]. split; [by apply lines_of_split|].
    apply filter_not_blank_nil. rewrite <- filter_truthy_trim.
    rewrite (generateReport_present w content Hfile) in Hreport.
    destruct (List.filter _ _) as [|first rest]; [done|].
    destruct (index _ _); [|done].
    exfalso. eapply report_text_not_NO_DATA.
    eapply (λ a b (H : (w, Returned a) = (w, Returned b)),
              f_equal (λ p, match p.2 with Returned t => t | Thrown _ => a end) H).
    exact Hreport.
  - intros [Hfile|(content & pieces & Hfile & ->%lines_of_split & Hblank)].
    + by apply generateReport_absent.
    + rewrite (generateReport_present w content Hfile), filter_truthy_trim.
      apply filter_not_blank_nil in Hblank. by rewrite Hblank.
Qed.

(** C10: on a log file with exactly one line that is not blank,
    [lines[lines.length - 2]] is [undefined] and [generateReport] throws a
    [TypeError] instead of returning a report or the no-data text; on a log
    file with none, or with two or more, it returns. *)
Theorem generateReport_single_line (w : world) (content : jsstring)
    (pieces : list jsstring) :
  log_file w = Some content →
  lines_of content pieces →
  let lines := filter (λ line, ¬ blank line) pieces in
  (length lines = 1%nat →
     index lines (Z.of_nat (length lines) - 2) = None ∧
     generateReport w = (w, Thrown TypeError)) ∧
  (length lines ≠ 1%nat → ∃ text, generateReport w = (w, Returned text)).
Proof.
  intros Hfile ->%lines_of_split lines.
  rewrite (generateReport_present w content Hfile), filter_truthy_trim.
  fold lines. split.
  - intros Hone. destruct lines as [|first [|second rest]]; try done.
  - intros Hlen. destruct lines as [|first rest] eqn:Hlines; [by eexists|].
    rewrite index_before_last.
    destruct (reverse (first :: rest) !! 1%nat) eqn:Hrev; [by eexists|].
    apply lookup_ge_None in Hrev. rewrite length_reverse in Hrev.
    simpl in *. lia.
Qed.

Lemma generateReport_single_line_witness :
  let w := initial_world (Some one_entry_log) noon in
  generateReport w = (w, Thrown TypeError).
Proof.
  intros w.
  apply (generateReport_single_line w one_entry_log (split one_entry_log LF)).
  - reflexivity.
  - apply lines_of_split. reflexivity.
  - vm_compute. reflexivity.
Defined.

(** ** Logger *)

Lemma call_listeners_delivery (ls : list listener) (entry : LogEntry)
    (w : world) :
  ∃ out r,
    call_listeners ls entry w = (set_console out w, r) ∧
    delivery entry (log_file w) ls (console w) out r.
Proof.
  revert w. induction ls as [|l ls IH]; intros w; simpl.
  - exists (console w), (Returned tt). split; [by destruct w|constructor].
  - destruct (l entry (log_file w) (console w)) as [out' [e|]] eqn:Hl.
    + exists out', (Thrown e). split; [done|]. by constructor.
    + destruct (IH (set_console out' w)) as (out & r & -> & Hrest).
      exists out, r. split; [done|]. by econstructor.
Qed.

(** What a call of [log] does: one reading of the clock, the line appended
    to the file, the entry emitted, and then the listeners notified, who
    see the file with the line in it. *)
Lemma log_delivery (message : jsstring) (type : option jsstring) (w : world) :
  let entry := entry_of w message type in
  ∃ out r,
    log message type w = (logged entry out w, r) ∧
    delivery entry (Some (from_option id [] (log_file w) ++ line_of entry))
      (listeners w) (console w) out r.
Proof.
  intros entry.
  destruct (call_listeners_delivery (listeners w) entry
              (logged entry (console w) w)) as (out & r & Hcall & Hdel).
  exists out, r. split; [|done].
  unfold log, toISOString_now, appendFileSync, emit, modify, gets, mbind,
    M_bind. simpl. exact Hcall.
Qed.

Lemma delivery_returns (entry : LogEntry) (file : option jsstring)
    (ls : list listener) (out out' : list jsstring) (r : outcome unit) :
  (∀ l : listener, l ∈ ls → ∀ entry file out, (l entry file out).2 = None) →
  delivery entry file ls out out' r → r = Returned tt.
Proof.
  intros Hreturn Hdel. induction Hdel as [|l ls out out' out'' r Hl _ IH|
                                          l ls out out' e Hl]; [done|..].
  - apply IH. intros l' Hl'. apply Hreturn. by right.
  - specialize (Hreturn l (list_elem_of_here _ _) entry file out).
    rewrite Hl in Hreturn. done.
Qed.

(** When no listener throws, [log] returns. *)
Lemma log_returns (message : jsstring) (type : option jsstring) (w : world) :
  listeners_return w →
  ∃ out, log message type w = (logged (entry_of w message type) out w,
                               Returned tt).
Proof.
  intros Hreturn.
  destruct (log_delivery message type w) as (out & r & Hlog & Hdel).
  exists out. by rewrite Hlog, (delivery_returns _ _ _ _ _ _ Hreturn Hdel).
Qed.



Lemma perform_logged (c : call) (w : world) :
  ∃ out,
    (perform c w).1 =
      logged {| timestamp := clock w (clock_reads w); type := level_of c;
                message := message_of c |} out w.
Proof.
  destruct c as [message [type|]|message|message|message]; simpl;
    unfold info, warn, error;
    match goal with
    | |- context [log ?m ?t w] =>
        destruct (log_delivery m t w) as (out & r & -> & _)
    end; by exists out.
Qed.

Lemma line_of_log_line (c : call) (w : world) :
  line_of {| timestamp := clock w (clock_reads w); type := level_of c;
             message := message_of c |}
  = log_line (clock w (clock_reads w)) c ++ [LF].
Proof.
  unfold line_of, log_line. simpl.
  repeat (rewrite <- app_assoc; simpl). done.
Qed.

(** The file after a sequence of calls: what it held, then one line for
    each call, in the order of the calls. *)
Lemma perform_all_log_file (calls : list call) (w : world) :
  from_option id [] (log_file (perform_all calls w))
  = from_option id [] (log_file w)
    ++ concat ((λ line, line ++ [LF]) <$>
                 expected_lines (clock w) (clock_reads w) calls).
Proof.
  revert w. induction calls as [|c calls IH]; intros w; simpl.
  - by rewrite app_nil_r.
  - destruct (perform_logged c w) as [out ->]. rewrite IH. simpl.
    by rewrite line_of_log_line, <- !app_assoc.
Qed.

Lemma join_terminated (lines : list jsstring) :
  join LF (lines ++ [[]]) = concat ((λ line, line ++ [LF]) <$> lines).
Proof.
  induction lines as [|line lines IH]; [done|].
  change (join LF ((line :: lines) ++ [[]]))
    with (match lines ++ [[]] with
          | [] => line
          | _ :: _ => line ++ LF :: join LF (lines ++ [[]])
          end).
  destruct (lines ++ [[]]) eqn:Hl; [by destruct lines|].
  rewrite IH. simpl. by rewrite <- app_assoc.
Qed.

Lemma has_shape_chars (pattern s : jsstring) :
  has_shape pattern s = true →
  Forall (λ c, is_digit c = true ∨ c ∈ pattern) s.
Proof.
  revert s. induction pattern as [|p pattern IH]; intros [|c s]; simpl;
    try done.
  rewrite andb_true_iff. intros [Hc Hs]. constructor.
  - destruct (N.eqb p 100); [by left|].
    right. apply N.eqb_eq in Hc as ->. by left.
  - eapply Forall_impl; [by apply IH|].
    intros c' [?|?]; [by left|right; by right].
Qed.

Lemma iso_timestamp_without_LF (s : jsstring) :
  is_iso_timestamp s = true → LF ∉ s.
Proof.
  intros Hshape%has_shape_chars Hin.
  rewrite Forall_forall in Hshape. destruct (Hshape LF Hin) as [Hd|Hp].
  - done.
  - revert Hp. by_computation.
Qed.

Lemma expected_lines_length (clock : nat → jsstring) (k : nat)
    (calls : list call) :
  length (expected_lines clock k calls) = length calls.
Proof. revert k. induction calls; intros k; simpl; by f_equal. Qed.

(** *** Well-formed strings *)

Lemma isWellFormed_app (a b : jsstring) :
  isWellFormed a = true → isWellFormed b = true →
  isWellFormed (a ++ b) = true.
Proof.
  intros Ha Hb. remember (length a) as n eqn:Hn.
  assert (length a ≤ n)%nat as Hlen by lia. clear Hn.
  revert a Ha Hlen. induction n as [|n IH]; intros a Ha Hlen.
  - destruct a; [done|simpl in Hlen; lia].
  - destruct a as [|c a]; [done|]. simpl in *.
    destruct (is_high_surrogate c).
    + destruct a as [|c' a]; [done|]. simpl in *.
      apply andb_true_iff in Ha as [-> Ha]. simpl. apply IH; [done|lia].
    + apply andb_true_iff in Ha as [-> Ha]. simpl. apply IH; [done|lia].
Qed.

Lemma isWellFormed_toWellFormed (s : jsstring) :
  isWellFormed s = true → toWellFormed s = s.
Proof.
  remember (length s) as n eqn:Hn.
  assert (length s ≤ n)%nat as Hlen by lia. clear Hn.
  revert s Hlen. induction n as [|n IH]; intros s Hlen Hs.
  - destruct s; [done|simpl in Hlen; lia].
  - destruct s as [|c s]; [done|]. simpl in *.
    destruct (is_high_surrogate c).
    + destruct s as [|c' s]; [done|]. simpl in *.
      apply andb_true_iff in Hs as [-> Hs]. by rewrite IH by (done || lia).
    + apply andb_true_iff in Hs as [Hlow Hs].
      apply negb_true_iff in Hlow as ->. by rewrite IH by (done || lia).
Qed.

(** A string without surrogates is well formed. *)
Lemma isWellFormed_plain (s : jsstring) :
  Forall (λ c, (c < 0xD800)%N) s → isWellFormed s = true.
Proof.
  induction 1 as [|c s Hc _ IH]; [done|]. simpl.
  assert (is_high_surrogate c = false) as ->.
  { unfold is_high_surrogate. apply andb_false_iff. left.
    apply N.leb_gt. exact Hc. }
  assert (is_low_surrogate c = false) as ->.
  { unfold is_low_surrogate. apply andb_false_iff. left.
    apply N.leb_gt. lia. }
  exact IH.
Qed.

Lemma iso_timestamp_isWellFormed (s : jsstring) :
  is_iso_timestamp s = true → isWellFormed s = true.
Proof.
  intros Hshape%has_shape_chars. apply isWellFormed_plain.
  eapply Forall_impl; [exact Hshape|]. intros c [Hdigit|Hin].
  - unfold is_digit in Hdigit. apply andb_true_iff in Hdigit as [_ Hle].
    apply N.leb_le in Hle. lia.
  - revert c Hin. apply Forall_forall. repeat constructor.
Qed.

(** The line of an entry with a timestamp of the clock and a well-formed
    level and message is written to the file as it is. *)
Lemma log_line_isWellFormed (stamp : jsstring) (c : call) :
  is_iso_timestamp stamp = true →
  isWellFormed (level_of c) = true → isWellFormed (message_of c) = true →
  toWellFormed (log_line stamp c ++ [LF]) = log_line stamp c ++ [LF].
Proof.
  intros Hstamp Hlevel Hmessage. apply isWellFormed_toWellFormed.
  unfold log_line.
  repeat (apply isWellFormed_app; try done);
    by (apply iso_timestamp_isWellFormed || reflexivity).
Qed.

(** C6, as amended: starting from a log file that is absent or empty, with
    a clock that yields ISO-8601 timestamps, and for calls whose level and
    message contain no line feed and no lone surrogate, the file after the
    calls consists of one line per call, in the order of the calls, each
    line made of the timestamp read at its call, the level in brackets and
    the message, and each followed by a line feed; none of these lines is
    empty, and each is written to the file as it is.  The level is the one
    passed, ["INFO"] when none is, and ["INFO"], ["WARN"] and ["ERROR"] for
    the three wrappers. *)
Theorem perform_all_lines (w : world) (calls : list call) :
  log_file w = None ∨ log_file w = Some [] →
  (∀ k, is_iso_timestamp (clock w k) = true) →
  Forall (λ c, (LF ∉ level_of c) ∧ (LF ∉ message_of c)) calls →
  Forall (λ c, isWellFormed (level_of c) = true ∧
               isWellFormed (message_of c) = true) calls →
  let lines := expected_lines (clock w) (clock_reads w) calls in
  let content := from_option id [] (log_file (perform_all calls w)) in
  lines_of content (lines ++ [[]]) ∧
  content = concat ((λ line, line ++ [LF]) <$> lines) ∧
  Forall (λ line, line ≠ []) lines ∧
  Forall (λ line, toWellFormed (line ++ [LF]) = line ++ [LF]) lines ∧
  length lines = length calls ∧
  ∀ message type,
    level_of (Log message (Some type)) = type ∧
    level_of (Log message None) = lit "INFO" ∧
    level_of (Info message) = lit "INFO" ∧
    level_of (Warn message) = lit "WARN" ∧
    level_of (Error message) = lit "ERROR".
Proof.
  intros Hempty Hclock Hcalls Hformed.
  assert (∀ k, Forall (λ line : jsstring, (LF ∉ line) ∧ line ≠ [])
                 (expected_lines (clock w) k calls)) as Hlines.
  { clear Hformed.
    induction Hcalls as [|c calls [Hlevel Hmessage] _ IH]; intros k; simpl;
      constructor; [|apply IH].
    split.
    - unfold log_line. rewrite !not_elem_of_app.
      pose proof (iso_timestamp_without_LF _ (Hclock k)).
      repeat split; try done; by_computation.
    - unfold log_line. intros Hnil.
      apply app_eq_nil in Hnil as [_ Hnil]. simpl in Hnil. done. }
  assert (∀ k, Forall (λ line, toWellFormed (line ++ [LF]) = line ++ [LF])
                 (expected_lines (clock w) k calls)) as Hstored.
  { clear Hcalls Hlines.
    induction Hformed as [|c calls [Hlevel Hmessage] _ IH]; intros k; simpl;
      constructor; [|apply IH].
    by apply log_line_isWellFormed. }
  specialize (Hlines (clock_reads w)). specialize (Hstored (clock_reads w)).
  intros lines content. fold lines in Hlines, Hstored.
  assert (content = concat ((λ line, line ++ [LF]) <$> lines)) as Hcontent.
  { unfold content. rewrite perform_all_log_file.
    by destruct Hempty as [->| ->]. }
  split; [|split; [done|split; [|split; [done|split; [|done]]]]].
  - split; [by destruct lines|]. split.
    + apply Forall_app. split.
      * eapply Forall_impl; [exact Hlines|]. by intros line [? _].
      * constructor; [apply not_elem_of_nil|constructor].
    + by rewrite join_terminated.
  - eapply Forall_impl; [exact Hlines|]. by intros line [_ ?].
  - apply expected_lines_length.
Qed.

Lemma perform_all_lines_witness :
  let w := initial_world None noon in
  let lines := expected_lines (clock w) (clock_reads w) sample_calls in
  let content := from_option id [] (log_file (perform_all sample_calls w)) in
  lines_of content (lines ++ [[]]) ∧
  content = concat ((λ line, line ++ [LF]) <$> lines) ∧
  Forall (λ line, line ≠ []) lines ∧
  Forall (λ line, toWellFormed (line ++ [LF]) = line ++ [LF]) lines ∧
  length lines = length sample_calls ∧
  ∀ message type,
    level_of (Log message (Some type)) = type ∧
    level_of (Log message None) = lit "INFO" ∧
    level_of (Info message) = lit "INFO" ∧
    level_of (Warn message) = lit "WARN" ∧
    level_of (Error message) = lit "ERROR".
Proof.
  apply (perform_all_lines (initial_world None noon) sample_calls).
  - left. reflexivity.
  - intros k. reflexivity.
  - repeat constructor; by_computation.
  - repeat constructor; by vm_compute.
Defined.

(** C6 as stated fails for a message that holds a line feed: one call
    leaves two lines that are not empty in the file. *)
Lemma log_multiline_message_two_lines :
  let w := initial_world None noon in
  let content := from_option id [] (log_file (perform_all [multiline_call] w)) in
  lines_of content
    [lit "2024-01-01T12:00:00.000Z [INFO] disk"; lit "full"; []] ∧
  length (filter (λ line : jsstring, line ≠ []) (split content LF)) = 2%nat ∧
  length [multiline_call] = 1%nat.
Proof.
  split; [by apply lines_of_split|]. split; [|done]. by vm_compute.
Qed.

(** A message without line feed that ends with a lone surrogate: the line
    of its entry is not what UTF-8 gives back, which ends with U+FFFD. *)
Lemma log_lone_surrogate_replaced :
  let line := log_line (noon 0) cut_call ++ [LF] in
  (LF ∉ message_of cut_call) ∧
  isWellFormed (message_of cut_call) = false ∧
  toWellFormed line
  = lit "2024-01-01T12:00:00.000Z [INFO] alert " ++ [0xFFFD%N; LF] ∧
  toWellFormed line ≠ line.
Proof. split; [by_computation|]. by vm_compute. Qed.

(** ** Monitor life cycle *)






(** ** Alerts *)

Lemma critical_subjects (p q : fixed2) :
  critical (lit "Memory") p ≠ critical (lit "CPU") q.
Proof. unfold critical. simpl. discriminate. Qed.

Lemma warning_subjects (p q : fixed2) :
  warning (lit "Memory") p ≠ warning (lit "CPU") q.
Proof. unfold warning. simpl. discriminate. Qed.

Lemma raised_logged (w : world) (entries : list LogEntry) :
  ∀ w', emitted w' = emitted w ++ entries →
  raised w w' = (λ entry, (type entry, message entry)) <$> entries.
Proof. intros w' Hw'. unfold raised. by rewrite Hw', drop_app_length. Qed.

(** The alerts of one evaluation: the one for the memory, if any, then
    the one for the processor, if any. *)
Lemma checkAlerts_raised (memory : MemoryInfo) (cpu : CPUInfo) (w : world) :
  listeners_return w →
  (checkAlerts memory cpu w).2 = Returned tt ∧
  raised w (checkAlerts memory cpu w).1 =
    (if gt_int (usedPercent memory) 85
     then [(ERROR, critical (lit "Memory") (usedPercent memory))]
     else if gt_int (usedPercent memory) 70
     then [(WARN, warning (lit "Memory") (usedPercent memory))]
     else [])
    ++
    (if gt_int (usagePercent cpu) 80
     then [(ERROR, critical (lit "CPU") (usagePercent cpu))]
     else if gt_int (usagePercent cpu) 60
     then [(WARN, warning (lit "CPU") (usagePercent cpu))]
     else []).
Proof.
  intros Hreturn.
  assert (∀ message type, ∃ w1,
            log message type w = (w1, Returned tt) ∧
            listeners_return w1 ∧
            emitted w1 = emitted w ++ [entry_of w message type] ∧
            ∀ message' type', ∃ w2,
              log message' type' w1 = (w2, Returned tt) ∧
              emitted w2 = emitted w ++ [entry_of w message type;
                                          entry_of w1 message' type'])
    as Hlog.
  { intros message type.
    destruct (log_returns message type w Hreturn) as [out Hlog].
    eexists. split; [exact Hlog|]. split; [exact Hreturn|]. split; [done|].
    intros message' type'.
    destruct (log_returns message' type'
                (logged (entry_of w message type) out w) Hreturn)
      as [out' Hlog'].
    eexists. split; [exact Hlog'|]. simpl. by rewrite <- app_assoc. }
  unfold checkAlerts, error, warn, mbind, M_bind, mret, M_ret.
  destruct (gt_int (usedPercent memory) 85) eqn:Hm85;
    [|destruct (gt_int (usedPercent memory) 70) eqn:Hm70];
    (destruct (gt_int (usagePercent cpu) 80) eqn:Hc80;
       [|destruct (gt_int (usagePercent cpu) 60) eqn:Hc60]);
    repeat match goal with
      | |- context [log ?m ?t w] =>
          destruct (Hlog m t) as (w1 & -> & _ & Hw1 & Hnext)
      | Hnext : ∀ message' type', ∃ w2, log message' type' ?w1 = _ ∧ _
        |- context [log ?m ?t ?w1] =>
          destruct (Hnext m t) as (w2 & -> & Hw2)
      end;
    simpl; (split; [done|]).
  all: try (by erewrite raised_logged by eassumption).
  all: by rewrite (raised_logged w []) by (by rewrite app_nil_r).
Qed.

Lemma gt_int_exceeds (x : fixed2) (t : Z) : gt_int x t = true ↔ exceeds x t.
Proof.
  destruct x as [h| |[|]]; simpl; [apply Z.ltb_lt|done..].
Qed.

Lemma levels_differ : ERROR ≠ WARN.
Proof. discriminate. Qed.

(** C1: when the listeners return, one evaluation of the alerts returns
    and raises an entry of level ["ERROR"] with the CRITICAL memory message
    exactly when the memory percentage is above 85, an entry of level
    ["WARN"] with the WARNING memory message exactly when it is above 70
    and not above 85, and likewise for the processor with 80 and 60; it
    raises nothing else, each of the two checks raises whatever the other
    does, and at 70 and 60 exactly nothing is raised. *)
Theorem checkAlerts_thresholds (memory : MemoryInfo) (cpu : CPUInfo)
    (w : world) :
  listeners_return w →
  let w' := (checkAlerts memory cpu w).1 in
  let mem := usedPercent memory in
  let load := usagePercent cpu in
  (checkAlerts memory cpu w).2 = Returned tt ∧
  ((lit "ERROR", critical (lit "Memory") mem) ∈ raised w w'
   ↔ exceeds mem 85) ∧
  ((lit "WARN", warning (lit "Memory") mem) ∈ raised w w'
   ↔ exceeds mem 70 ∧ ¬ exceeds mem 85) ∧
  ((lit "ERROR", critical (lit "CPU") load) ∈ raised w w'
   ↔ exceeds load 80) ∧
  ((lit "WARN", warning (lit "CPU") load) ∈ raised w w'
   ↔ exceeds load 60 ∧ ¬ exceeds load 80) ∧
  (∀ alert, alert ∈ raised w w' →
     alert ∈ [(lit "ERROR", critical (lit "Memory") mem);
              (lit "WARN", warning (lit "Memory") mem);
              (lit "ERROR", critical (lit "CPU") load);
              (lit "WARN", warning (lit "CPU") load)]) ∧
  (length (raised w w') ≤ 2)%nat ∧
  (mem = Hundredths 7000 → load = Hundredths 6000 → raised w w' = []).
Proof.
  intros Hreturn w' mem load.
  change (lit "ERROR") with ERROR. change (lit "WARN") with WARN.
  destruct (checkAlerts_raised memory cpu w Hreturn) as [Hresult Hraised].
  fold w' mem load in Hraised. rewrite Hraised. clear Hraised.
  pose proof (critical_subjects mem load) as Hcritical.
  pose proof (warning_subjects mem load) as Hwarning.
  pose proof levels_differ as Hlevels.
  rewrite <- !gt_int_exceeds.
  split; [done|].
  destruct (gt_int mem 85) eqn:Hm85; [|destruct (gt_int mem 70) eqn:Hm70];
    (destruct (gt_int load 80) eqn:Hc80;
       [|destruct (gt_int load 60) eqn:Hc60]);
    simpl; rewrite ?elem_of_cons, ?elem_of_nil;
    (split_and!;
     [intuition congruence | intuition congruence
     | intuition congruence | intuition congruence
     | intros alert; rewrite ?elem_of_cons, ?elem_of_nil; tauto
     | simpl; lia
     | intros Hmem Hload;
       try (rewrite Hmem in Hm85); try (rewrite Hmem in Hm70);
       try (rewrite Hload in Hc80); try (rewrite Hload in Hc60); done]).
Qed.

Lemma initial_world_listeners_return (file : option jsstring)
    (clock : nat → jsstring) :
  listeners_return (initial_world file clock).
Proof. by intros l ->%list_elem_of_singleton entry f out. Qed.

Lemma checkAlerts_thresholds_witness :
  let w := initial_world None noon in
  let w' := (checkAlerts busy_memory busy_cpu w).1 in
  (lit "ERROR", critical (lit "Memory") (usedPercent busy_memory))
    ∈ raised w w' ∧
  (lit "WARN", warning (lit "CPU") (usagePercent busy_cpu)) ∈ raised w w'.
Proof.
  intros w w'.
  destruct (checkAlerts_thresholds busy_memory busy_cpu w
              (initial_world_listeners_return None noon))
    as (_ & Hmemory & _ & _ & Hcpu & _).
  split.
  - apply Hmemory. vm_compute. reflexivity.
  - apply Hcpu. split; vm_compute; [reflexivity|discriminate].
Defined.


(** ** Numbers *)

(** *** Rounding to the nearest double *)

Lemma two_pos (e : Z) : (0 < 2 ^ e)%Q.
Proof. by apply Qpower_0_lt. Qed.

Lemma floor_log2_spec (q : Q) :
  (0 < q)%Q → (2 ^ floor_log2 q <= q)%Q ∧ (q < 2 ^ (floor_log2 q + 1))%Q.
Proof.
  intros Hpos. destruct q as [n d]. unfold floor_log2. cbn [Qnum Qden].
  assert (0 < n) as Hn by (unfold Qlt in Hpos; simpl in Hpos; lia).
  set (a := Z.log2 n). set (b := Z.log2 (Z.pos d)).
  destruct (Z.log2_spec n Hn) as [Hna Hna'].
  destruct (Z.log2_spec (Z.pos d) eq_refl) as [Hdb Hdb'].
  fold a in Hna, Hna'. fold b in Hdb, Hdb'.
  assert (0 ≤ a) as Ha by apply Z.log2_nonneg.
  assert (0 ≤ b) as Hb by apply Z.log2_nonneg.
  assert (n # d == inject_Z n / inject_Z (Z.pos d))%Q as Hq
    by (rewrite Qmake_Qdiv; reflexivity).
  assert (0 < inject_Z (Z.pos d))%Q as Hdpos by (unfold Qlt; simpl; lia).
  assert (∀ k, 0 ≤ k → inject_Z (2 ^ k) == 2 ^ k)%Q as Hpow
    by (intros k Hk; by rewrite Zpower_Qpower).
  assert (2 ^ a <= inject_Z n)%Q as Q1
    by (rewrite <- Hpow by done; by rewrite <- Zle_Qle).
  assert (inject_Z n < 2 ^ (a + 1))%Q as Q2.
  { rewrite <- Hpow by lia. rewrite <- Zlt_Qlt. by rewrite <- Z.add_1_r in Hna'. }
  assert (2 ^ b <= inject_Z (Z.pos d))%Q as Q3
    by (rewrite <- Hpow by done; by rewrite <- Zle_Qle).
  assert (inject_Z (Z.pos d) < 2 ^ (b + 1))%Q as Q4.
  { rewrite <- Hpow by lia. rewrite <- Zlt_Qlt. by rewrite <- Z.add_1_r in Hdb'. }
  assert (2 ^ (a - b - 1) <= n # d)%Q as Hlow.
  { rewrite Hq. apply Qle_shift_div_l; [done|].
    apply Qle_trans with (2 ^ (a - b - 1) * 2 ^ (b + 1))%Q.
    - apply Qmult_le_l; [apply two_pos|]. by apply Qlt_le_weak.
    - rewrite <- Qpower_plus by done.
      replace (a - b - 1 + (b + 1)) with a by lia. exact Q1. }
  assert (n # d < 2 ^ (a - b + 1))%Q as Hhigh.
  { rewrite Hq. apply Qlt_shift_div_r; [done|].
    apply Qlt_le_trans with (2 ^ (a + 1))%Q; [done|].
    replace (a + 1) with (a - b + 1 + b) by lia.
    rewrite Qpower_plus by done.
    apply Qmult_le_l; [apply two_pos|done]. }
  destruct (Qle_bool (2 ^ (a - b)) (n # d)) eqn:Hcmp.
  - apply Qle_bool_iff in Hcmp. split; [exact Hcmp|exact Hhigh].
  - split; [exact Hlow|].
    replace (a - b - 1 + 1) with (a - b) by lia.
    apply Qnot_le_lt. intros Hle. apply Qle_bool_iff in Hle. congruence.
Qed.

Lemma round_half_even_close (x : Q) :
  (x - (1 # 2) <= inject_Z (round_half_even x) <= x + (1 # 2))%Q.
Proof.
  unfold round_half_even.
  pose proof (Qfloor_le x) as Hle. pose proof (Qlt_floor x) as Hlt.
  set (f := Qfloor x) in *. rewrite inject_Z_plus in Hlt.
  change (inject_Z 1) with 1%Q in Hlt.
  destruct (Qcompare_spec (x - inject_Z f) (1 # 2)) as [Heq|Hlt2|Hgt];
    [destruct (Z.even f)|..];
    rewrite ?inject_Z_plus; change (inject_Z 1) with 1%Q; split; lra.
Qed.

Lemma round_half_even_le (x : Q) (k : Z) :
  (x <= inject_Z k)%Q → round_half_even x ≤ k.
Proof.
  intros Hk. unfold round_half_even.
  pose proof (Qfloor_le x) as Hle.
  set (f := Qfloor x) in *.
  assert (f ≤ k) as Hfk by (rewrite Zle_Qle; lra).
  assert ((inject_Z f < x)%Q → f + 1 ≤ k) as Hnext.
  { intros Hlt. assert (f < k); [|lia]. rewrite Zlt_Qlt. lra. }
  destruct (Qcompare_spec (x - inject_Z f) (1 # 2)) as [Heq|Hlt2|Hgt].
  - destruct (Z.even f); [done|]. apply Hnext. lra.
  - done.
  - apply Hnext. lra.
Qed.

Lemma round_half_even_ge (x : Q) (k : Z) :
  (inject_Z k <= x)%Q → k ≤ round_half_even x.
Proof.
  intros Hk. unfold round_half_even.
  pose proof (Qlt_floor x) as Hlt.
  set (f := Qfloor x) in *.
  assert (k < f + 1) as Hfk.
  { rewrite Zlt_Qlt. lra. }
  destruct (x - inject_Z f ?= 1 # 2)%Q; [destruct (Z.even f)|..]; lia.
Qed.

(** What [double_round] computes for a positive rational. *)
Lemma double_round_positive (q : Q) :
  (0 < q)%Q →
  let ulp := (2 ^ (Z.max (floor_log2 q) (-1022) - 52))%Q in
  let r := (inject_Z (round_half_even (q / ulp)) * ulp)%Q in
  double_round q = if Qle_bool (2 ^ 1024) r then Infinity false else Fin r.
Proof.
  intros Hpos. unfold double_round.
  destruct (Qeq_bool q 0) eqn:Hzero.
  { apply Qeq_bool_iff in Hzero. lra. }
  destruct q as [n d]. destruct n as [|n|n]; try done.
Qed.

(** Rounding keeps a value between zero and a power of two there, and
    moves it by half a unit in the last place of that power at most. *)
Lemma double_round_bound (q : Q) (E : Z) :
  -1022 ≤ E ≤ 1023 → (0 <= q <= 2 ^ E)%Q →
  ∃ r, double_round q = Fin r ∧ (0 <= r <= 2 ^ E)%Q ∧
       (- 2 ^ (E - 53) <= r - q <= 2 ^ (E - 53))%Q.
Proof.
  intros HE [Hq0 HqE].
  pose proof (two_pos E) as HposE. pose proof (two_pos (E - 53)) as Hpos53.
  destruct (Qeq_bool q 0) eqn:Hzero.
  { unfold double_round. rewrite Hzero.
    apply Qeq_bool_iff in Hzero. exists 0%Q. split; [done|]. split; lra. }
  assert (0 < q)%Q as Hpos.
  { apply Qle_lteq in Hq0 as [?|Heq]; [done|].
    symmetry in Heq. apply Qeq_bool_iff in Heq. congruence. }
  rewrite (double_round_positive q Hpos). cbv zeta.
  destruct (floor_log2_spec q Hpos) as [Hlow Hhigh].
  set (e0 := floor_log2 q) in *.
  assert (e0 ≤ E) as He0.
  { apply (Qpower_le_compat_l_inv 2); [|done]. lra. }
  set (e := Z.max e0 (-1022)).
  assert (e0 ≤ e ≤ E) as He by lia.
  set (ulp := (2 ^ (e - 52))%Q).
  assert (0 < ulp)%Q as Hulp by apply two_pos.
  set (x := (q / ulp)%Q).
  assert (x * ulp == q)%Q as Hx by (unfold x; field; lra).
  pose proof (round_half_even_close x) as Hclose.
  set (K := 2 ^ (E - e + 52)).
  assert (inject_Z K * ulp == 2 ^ E)%Q as HK.
  { unfold K, ulp. rewrite Zpower_Qpower by lia.
    rewrite <- Qpower_plus by done.
    by replace (E - e + 52 + (e - 52)) with E by lia. }
  assert (round_half_even x ≤ K) as HmK.
  { apply round_half_even_le. apply Qmult_le_r with ulp; [done|].
    rewrite Hx, HK. done. }
  assert (0 ≤ round_half_even x) as Hm0.
  { apply round_half_even_ge. apply Qmult_le_r with ulp; [done|].
    rewrite Hx. change (inject_Z 0) with 0%Q. lra. }
  set (m := round_half_even x) in *.
  assert (0 <= inject_Z m * ulp <= 2 ^ E)%Q as Hr.
  { split.
    - apply Qmult_le_0_compat; [|lra]. by rewrite Zle_Qle in Hm0.
    - rewrite <- HK. apply Qmult_le_compat_r; [|lra]. by rewrite <- Zle_Qle. }
  assert (Qle_bool (2 ^ 1024) (inject_Z m * ulp) = false) as ->.
  { apply not_true_is_false. intros Hle%Qle_bool_iff.
    assert (2 ^ E < 2 ^ 1024)%Q by (apply Qpower_lt_compat_l; [lia|lra]). lra. }
  eexists. split; [done|]. split; [done|].
  assert (ulp * (1 # 2) == 2 ^ (e - 53))%Q as Hhalf.
  { unfold ulp. replace (e - 52) with (e - 53 + 1) by lia.
    rewrite Qpower_plus by done. change (2 ^ 1)%Q with 2%Q. field. }
  assert (2 ^ (e - 53) <= 2 ^ (E - 53))%Q as Hmono
    by (apply Qpower_le_compat_l; [lia|lra]).
  assert ((x - (1 # 2)) * ulp <= inject_Z m * ulp)%Q as H1
    by (apply Qmult_le_compat_r; lra).
  assert (inject_Z m * ulp <= (x + (1 # 2)) * ulp)%Q as H2
    by (apply Qmult_le_compat_r; lra).
  split; lra.
Qed.

(** The quotient of an integer below [2^53] by a power of two that does
    not exceed it is a double: the division is exact. *)
Lemma double_round_dyadic (n j : Z) :
  0 < n < 2 ^ 53 → 0 ≤ j → 2 ^ j ≤ n →
  ∃ r, double_round (inject_Z n / inject_Z (2 ^ j)) = Fin r ∧
       (r == inject_Z n / inject_Z (2 ^ j))%Q.
Proof.
  intros [Hn Hn53] Hj Hjn.
  assert (0 < 2 ^ j) as Hpowj by (apply Z.pow_pos_nonneg; lia).
  set (q := (inject_Z n / inject_Z (2 ^ j))%Q).
  assert (inject_Z (2 ^ j) == 2 ^ j)%Q as Hpj by (by rewrite Zpower_Qpower).
  pose proof (two_pos j) as Hposj.
  assert (q * 2 ^ j == inject_Z n)%Q as Hq.
  { unfold q. rewrite Hpj. field. lra. }
  assert (1 <= q)%Q as Hq1.
  { apply Qmult_le_r with (2 ^ j)%Q; [done|]. rewrite Hq, <- Hpj.
    rewrite Qmult_1_l. by rewrite <- Zle_Qle. }
  assert (0 < q)%Q as Hpos by lra.
  rewrite (double_round_positive q Hpos). cbv zeta.
  destruct (floor_log2_spec q Hpos) as [Hlow Hhigh].
  set (e0 := floor_log2 q) in *.
  assert (0 ≤ e0) as He0.
  { assert (0 < e0 + 1); [|lia].
    apply (Qpower_lt_compat_l_inv 2); [|lra]. change (2 ^ 0)%Q with 1%Q. lra. }
  assert (e0 + j ≤ 52) as He52.
  { assert (e0 + j < 53); [|lia].
    apply (Qpower_lt_compat_l_inv 2); [|lra].
    rewrite Qpower_plus by done.
    apply Qle_lt_trans with (q * 2 ^ j)%Q.
    - apply Qmult_le_compat_r; lra.
    - rewrite Hq. change (2 ^ 53)%Q with (inject_Z (2 ^ 53)).
      by rewrite <- Zlt_Qlt. }
  replace (Z.max e0 (-1022)) with e0 by lia.
  set (ulp := (2 ^ (e0 - 52))%Q).
  assert (0 < ulp)%Q as Hulp by apply two_pos.
  set (k := n * 2 ^ (52 - e0 - j)).
  assert (inject_Z k * ulp == q)%Q as Hk.
  { unfold k, ulp. rewrite inject_Z_mult, Zpower_Qpower by lia.
    apply Qmult_inj_r with (2 ^ j)%Q; [lra|]. rewrite Hq.
    rewrite <- !Qmult_assoc, <- !Qpower_plus by done.
    replace (52 - e0 - j + (e0 - 52 + j)) with 0 by lia.
    change (2 ^ 0)%Q with 1%Q. ring. }
  assert (q / ulp == inject_Z k)%Q as Hx.
  { rewrite <- Hk. field. lra. }
  assert (round_half_even (q / ulp) = k) as ->.
  { apply Z.le_antisymm.
    - apply round_half_even_le. rewrite Hx. apply Qle_refl.
    - apply round_half_even_ge. rewrite Hx. apply Qle_refl. }
  assert (Qle_bool (2 ^ 1024) (inject_Z k * ulp) = false) as ->.
  { apply not_true_is_false. intros Hle%Qle_bool_iff. rewrite Hk in Hle.
    assert (q < 2 ^ (52 + 1))%Q.
    { eapply Qlt_le_trans; [exact Hhigh|]. apply Qpower_le_compat_l; [lia|lra]. }
    assert (2 ^ (52 + 1) < 2 ^ 1024)%Q by (apply Qpower_lt_compat_l; [lia|lra]).
    lra. }
  by eexists.
Qed.

(** *** Rounding to two decimals *)

(** Rounding a quotient of integers with [toFixed(2)]. *)
Lemma nearest_hundredth_rounded (q : Q) (n d : Z) :
  0 < d → (q == inject_Z n / inject_Z d)%Q →
  rounded_to_2_decimals n d (nearest_hundredth q).
Proof.
  intros Hd Hq.
  assert (Qnum q * d = n * Z.pos (Qden q)) as Hcross.
  { assert (inject_Z n / inject_Z d == n # Z.to_pos d)%Q as Hmake.
    { rewrite Qmake_Qdiv, Z2Pos.id by done. reflexivity. }
    rewrite Hmake in Hq. unfold Qeq in Hq. simpl in Hq.
    by rewrite Z2Pos.id in Hq by done. }
  unfold rounded_to_2_decimals, nearest_hundredth.
  set (qn := Qnum q) in *. set (qd := Z.pos (Qden q)) in *.
  assert (0 < qd) as Hqd by done.
  assert (∀ m, 0 ≤ m →
            let h := (200 * m + qd) / (2 * qd) in
            - qd < 2 * qd * h - 200 * m ≤ qd) as Hround.
  { intros m Hm h.
    pose proof (Z.mul_div_le (200 * m + qd) (2 * qd)) as Hle.
    pose proof (Z.mul_succ_div_gt (200 * m + qd) (2 * qd)) as Hgt.
    fold h in Hle, Hgt. lia. }
  apply Z.abs_le.
  destruct (Z.leb_spec 0 qn) as [Hsign|Hsign].
  - specialize (Hround qn Hsign). simpl in Hround.
    set (h := (200 * qn + qd) / (2 * qd)) in *. nia.
  - specialize (Hround (- qn)). simpl in Hround.
    set (h := (200 * - qn + qd) / (2 * qd)) in *. nia.
Qed.

(** What [toFixed(2)] returns is within half a hundredth of the value. *)
Lemma nearest_hundredth_close (r : Q) :
  (- (1 # 2) <= inject_Z (nearest_hundredth r) - 100 * r <= 1 # 2)%Q.
Proof.
  destruct r as [n d].
  assert (n # d == inject_Z n / inject_Z (Z.pos d))%Q as Hq
    by (rewrite Qmake_Qdiv; reflexivity).
  pose proof (nearest_hundredth_rounded (n # d) n (Z.pos d) eq_refl Hq)
    as Hround.
  unfold rounded_to_2_decimals in Hround.
  set (h := nearest_hundredth (n # d)) in *.
  assert (- Z.pos d ≤ 2 * (h * Z.pos d + - (100 * n)) ≤ Z.pos d)
    as [Hlow Hhigh] by lia.
  rewrite Zle_Qle in Hlow, Hhigh.
  rewrite inject_Z_opp in Hlow.
  rewrite !inject_Z_mult, inject_Z_plus, inject_Z_opp, !inject_Z_mult
    in Hlow, Hhigh.
  change (inject_Z 2) with 2%Q in *. change (inject_Z 100) with 100%Q in *.
  set (D := inject_Z (Z.pos d)) in *. set (N := inject_Z n) in *.
  set (H := inject_Z h) in *.
  assert (0 < D)%Q as HD by (unfold D, Qlt; simpl; lia).
  assert ((H - 100 * (n # d)) * D == H * D - 100 * N)%Q as Hscaled.
  { rewrite Hq. field. lra. }
  split; apply Qmult_le_r with D; try done; rewrite Hscaled; lra.
Qed.

(** The percentage of a part [n] of a whole [d], as the collectors compute
    it with [parseFloat(((n / d) * 100).toFixed(2))]: the quotient and
    the product are rounded to doubles, and the product to two decimals. *)
Lemma percent_in_doubles (n d : Z) :
  0 < d → 0 ≤ n ≤ d →
  ∃ h, parseFloat_toFixed2 (js_mul (js_div n d) 100) = Hundredths h ∧
       rounded_in_doubles (100 * n) d h.
Proof.
  intros Hd Hn. unfold js_div.
  destruct (Z.eqb_spec d 0) as [?|_]; [lia|].
  set (D := inject_Z d). set (N := inject_Z n).
  assert (0 < D)%Q as HD
    by (unfold D; change 0%Q with (inject_Z 0); rewrite <- Zlt_Qlt; lia).
  assert (0 <= N <= D)%Q as HN
    by (unfold N, D; change 0%Q with (inject_Z 0); rewrite <- !Zle_Qle; lia).
  set (q := (N / D)%Q).
  assert (q * D == N)%Q as Hq by (unfold q; field; lra).
  assert (0 <= q <= 1)%Q as Hq01.
  { split; apply Qmult_le_r with D; try done; rewrite Hq; lra. }
  destruct (double_round_bound q 0) as (r1 & -> & Hr1 & He1); [lia|done|].
  change (2 ^ 0)%Q with 1%Q in Hr1.
  change (2 ^ (0 - 53))%Q with (1 # 9007199254740992)%Q in He1.
  cbn [js_mul]. change (inject_Z 100) with 100%Q.
  destruct (double_round_bound (r1 * 100) 7) as (r2 & -> & Hr2 & He2);
    [lia|change (2 ^ 7)%Q with 128%Q; lra|].
  change (2 ^ (7 - 53))%Q with (1 # 70368744177664)%Q in He2.
  cbn [parseFloat_toFixed2]. eexists. split; [done|].
  pose proof (nearest_hundredth_close r2) as Hclose.
  set (h := nearest_hundredth r2) in *. set (H := inject_Z h) in *.
  assert (- (17592186044616 # 35184372088832) <= H - 10000 * q
          <= 17592186044616 # 35184372088832)%Q as Hnear by (split; lra).
  assert ((H - 10000 * q) * D == H * D - 10000 * N)%Q as Hscaled.
  { unfold q. field. lra. }
  assert ((- (17592186044616 # 35184372088832)) * D <= H * D - 10000 * N
          <= (17592186044616 # 35184372088832) * D)%Q as [Hlow Hhigh].
  { rewrite <- Hscaled. split; apply Qmult_le_compat_r; lra. }
  unfold rounded_in_doubles.
  change (2 ^ 45) with 35184372088832.
  change (2 ^ 44 + 200) with 17592186044616.
  assert (- (17592186044616 * d)
          ≤ 35184372088832 * (h * d + - (100 * (100 * n)))
          ≤ 17592186044616 * d) as Hz.
  { rewrite !Zle_Qle.
    rewrite inject_Z_opp, !inject_Z_mult, inject_Z_plus, inject_Z_opp,
      !inject_Z_mult.
    fold D N H.
    change (inject_Z 100) with 100%Q.
    change (inject_Z 35184372088832) with (35184372088832 # 1)%Q.
    change (inject_Z 17592186044616) with (17592186044616 # 1)%Q.
    split; lra. }
  lia.
Qed.

(** C8, as amended: for a positive [os.totalmem()] that a double holds
    exactly and an [os.freemem()] between nothing and it, the snapshot has
    [used = total - free], and [usedPercent] is the double
    [(used / total) * 100] rounded to two decimals: it is within half a
    hundredth and [2^-44] of [100 * used / total].  [getMemoryInfo] is a
    total function: it has no outcome other than its record. *)
Theorem getMemoryInfo_invariant (totalmem freemem : Z) :
  0 < totalmem ≤ 2 ^ 53 → 0 ≤ freemem ≤ totalmem →
  let memory := getMemoryInfo totalmem freemem in
  total memory = totalmem ∧ free memory = freemem ∧
  used memory = total memory - free memory ∧
  ∃ h, usedPercent memory = Hundredths h ∧
       rounded_in_doubles (100 * used memory) (total memory) h.
Proof.
  intros [Htotal _] Hfree memory. repeat split.
  unfold memory, getMemoryInfo. cbn [usedPercent used total].
  apply percent_in_doubles; lia.
Qed.

Lemma getMemoryInfo_invariant_witness :
  let memory := getMemoryInfo 17179869184 1717986918 in
  total memory = 17179869184 ∧ free memory = 1717986918 ∧
  used memory = total memory - free memory ∧
  ∃ h, usedPercent memory = Hundredths h ∧
       rounded_in_doubles (100 * used memory) (total memory) h.
Proof.
  apply (getMemoryInfo_invariant 17179869184 1717986918);
    change (2 ^ 53) with 9007199254740992; lia.
Defined.

(** C8 as stated fails where the percentage is so near a tie of the
    rounding to two decimals that its double is on the other side: with
    [2^50] bytes of which 757336572337691 are free, the percentage is
    32.735000000000003, which rounds to 32.74, and [usedPercent] is
    32.73. *)
Lemma getMemoryInfo_double_rounding :
  usedPercent uneven_memory = Hundredths 3273 ∧
  ¬ rounded_to_2_decimals
      (100 * used uneven_memory) (total uneven_memory) 3273 ∧
  rounded_to_2_decimals
    (100 * used uneven_memory) (total uneven_memory) 3274.
Proof.
  split; [by vm_compute|].
  change (used uneven_memory) with 368563334504933.
  change (total uneven_memory) with 1125899906842624.
  unfold rounded_to_2_decimals. lia.
Qed.

Lemma getCPUUsage_loop (cpus : list CpuCore) (totalIdle totalTick : Z) :
  fold_left
    (fun '(totalIdle, totalTick) cpu =>
       let totalTick :=
         fold_left (fun acc ticks => acc + ticks)
           (tick_categories (times cpu)) totalTick in
       (totalIdle + idle (times cpu), totalTick))
    cpus (totalIdle, totalTick)
  = (totalIdle + sum_ticks idle cpus, totalTick + sum_ticks all_ticks cpus).
Proof.
  revert totalIdle totalTick.
  induction cpus as [|cpu cpus IH]; intros totalIdle totalTick; simpl.
  - f_equal; lia.
  - rewrite IH. unfold all_ticks. f_equal; lia.
Qed.

(** [getCPUUsage] is one minus the idle share of all ticks of the read. *)
Lemma getCPUUsage_ratio (cpus : list CpuCore) :
  getCPUUsage cpus
  = js_sub_from 1 (js_div (sum_ticks idle cpus) (sum_ticks all_ticks cpus)).
Proof. unfold getCPUUsage. by rewrite getCPUUsage_loop. Qed.

Lemma sum_ticks_bounds (cpus : list CpuCore) :
  counters_nonnegative cpus →
  0 ≤ sum_ticks idle cpus ≤ sum_ticks all_ticks cpus.
Proof.
  induction 1 as [|cpu cpus (? & ? & ? & ? & ?) _ IH]; simpl; [lia|].
  unfold all_ticks at 1. lia.
Qed.

(** The percentage of what is left of a whole [ticks] without its part
    [idle_ticks], as [getCPUUsage] and [getCPUInfo] compute it with
    [parseFloat(((1 - idle / ticks) * 100).toFixed(2))]: the quotient, the
    difference and the product are rounded to doubles, and the product to
    two decimals. *)
Lemma usage_in_doubles (idle_ticks ticks : Z) :
  0 < ticks → 0 ≤ idle_ticks ≤ ticks →
  ∃ h, parseFloat_toFixed2
         (js_mul (js_sub_from 1 (js_div idle_ticks ticks)) 100) = Hundredths h ∧
       rounded_in_doubles (100 * (ticks - idle_ticks)) ticks h.
Proof.
  intros Hd Hn. unfold js_div.
  destruct (Z.eqb_spec ticks 0) as [?|_]; [lia|].
  set (D := inject_Z ticks). set (N := inject_Z idle_ticks).
  assert (0 < D)%Q as HD
    by (unfold D; change 0%Q with (inject_Z 0); rewrite <- Zlt_Qlt; lia).
  assert (0 <= N <= D)%Q as HN
    by (unfold N, D; change 0%Q with (inject_Z 0); rewrite <- !Zle_Qle; lia).
  set (q := (N / D)%Q).
  assert (q * D == N)%Q as Hq by (unfold q; field; lra).
  assert (0 <= q <= 1)%Q as Hq01.
  { split; apply Qmult_le_r with D; try done; rewrite Hq; lra. }
  destruct (double_round_bound q 0) as (r1 & -> & Hr1 & He1); [lia|done|].
  change (2 ^ 0)%Q with 1%Q in Hr1.
  change (2 ^ (0 - 53))%Q with (1 # 9007199254740992)%Q in He1.
  cbn [js_sub_from]. change (inject_Z 1) with 1%Q.
  destruct (double_round_bound (1 - r1) 0) as (r2 & -> & Hr2 & He2);
    [lia|change (2 ^ 0)%Q with 1%Q; lra|].
  change (2 ^ 0)%Q with 1%Q in Hr2.
  change (2 ^ (0 - 53))%Q with (1 # 9007199254740992)%Q in He2.
  cbn [js_mul]. change (inject_Z 100) with 100%Q.
  destruct (double_round_bound (r2 * 100) 7) as (r3 & -> & Hr3 & He3);
    [lia|change (2 ^ 7)%Q with 128%Q; lra|].
  change (2 ^ (7 - 53))%Q with (1 # 70368744177664)%Q in He3.
  cbn [parseFloat_toFixed2]. eexists. split; [done|].
  pose proof (nearest_hundredth_close r3) as Hclose.
  set (h := nearest_hundredth r3) in *. set (H := inject_Z h) in *.
  assert (- (17592186044616 # 35184372088832) <= H - 10000 * (1 - q)
          <= 17592186044616 # 35184372088832)%Q as Hnear by (split; lra).
  assert ((H - 10000 * (1 - q)) * D == H * D - 10000 * (D - N))%Q as Hscaled.
  { unfold q. field. lra. }
  assert ((- (17592186044616 # 35184372088832)) * D
          <= H * D - 10000 * (D - N)
          <= (17592186044616 # 35184372088832) * D)%Q as [Hlow Hhigh].
  { rewrite <- Hscaled. split; apply Qmult_le_compat_r; lra. }
  unfold rounded_in_doubles.
  change (2 ^ 45) with 35184372088832.
  change (2 ^ 44 + 200) with 17592186044616.
  assert (- (17592186044616 * ticks)
          ≤ 35184372088832
            * (h * ticks + - (100 * (100 * (ticks + - idle_ticks))))
          ≤ 17592186044616 * ticks) as Hz.
  { rewrite !Zle_Qle.
    rewrite inject_Z_opp, !inject_Z_mult, inject_Z_plus, inject_Z_opp,
      !inject_Z_mult, inject_Z_plus, inject_Z_opp.
    fold D N H.
    change (inject_Z 100) with 100%Q.
    change (inject_Z 35184372088832) with (35184372088832 # 1)%Q.
    change (inject_Z 17592186044616) with (17592186044616 # 1)%Q.
    split; lra. }
  lia.
Qed.

(** Where the exact percentage or quotient is a tie of the rounding to two
    decimals, its double decides: 85.005 hundredths of the memory in use
    are printed as 85, and 1.005 seconds as 1. *)
Lemma collectors_at_ties :
  usedPercent (getMemoryInfo 2000000000 299900000) = Hundredths 8500 ∧
  uptime (getProcessInfo 0 1005000000 0) = Hundredths 100.
Proof. by vm_compute. Qed.

(** C9, as amended: when no tick counter is negative and the ticks of one
    reading of the counters sum to a positive number that a double holds
    exactly, [usagePercent] is the double [(1 - idle / all) * 100] rounded
    to two decimals, where [idle] and [all] are the sums, over the cores,
    of the idle ticks and of the ticks of all categories in the one
    reading that [getCPUUsage] makes: it is within half a hundredth and
    [2^-44] of [100 * (1 - idle / all)], and depends on nothing else.  The
    model name is ["Unknown"] when there is no core or the first core has
    no model name, and the model name of the first core otherwise. *)
Theorem getCPUInfo_usage (cpus : list CpuCore) (loadavg : list Q)
    (cpus_again : list CpuCore) :
  let idle_ticks := sum_ticks idle cpus_again in
  let ticks := sum_ticks all_ticks cpus_again in
  counters_nonnegative cpus_again →
  0 < ticks ≤ 2 ^ 53 →
  let cpu := getCPUInfo cpus loadavg cpus_again in
  (∃ h, usagePercent cpu = Hundredths h ∧
        rounded_in_doubles (100 * (ticks - idle_ticks)) ticks h) ∧
  (∀ cpus' loadavg',
     usagePercent (getCPUInfo cpus' loadavg' cpus_again) = usagePercent cpu) ∧
  (cpus = [] → model cpu = lit "Unknown") ∧
  (∀ first rest, cpus = first :: rest →
     model cpu = if decide (core_model first = []) then lit "Unknown"
                 else core_model first).
Proof.
  intros idle_ticks ticks Hcounters [Hticks _] cpu.
  split; [|split; [done|split]].
  - unfold cpu, getCPUInfo. cbn [usagePercent]. rewrite getCPUUsage_ratio.
    fold idle_ticks ticks.
    apply usage_in_doubles; [done|]. by apply sum_ticks_bounds.
  - by intros ->.
  - intros first rest ->. unfold cpu, getCPUInfo. simpl.
    by destruct (core_model first).
Qed.

Lemma getCPUInfo_usage_witness :
  let cpu := getCPUInfo busy_cpus [] busy_cpus in
  (∃ h, usagePercent cpu = Hundredths h ∧
        rounded_in_doubles
          (100 * (sum_ticks all_ticks busy_cpus - sum_ticks idle busy_cpus))
          (sum_ticks all_ticks busy_cpus) h) ∧
  (∀ cpus' loadavg',
     usagePercent (getCPUInfo cpus' loadavg' busy_cpus) = usagePercent cpu) ∧
  (busy_cpus = [] → model cpu = lit "Unknown") ∧
  (∀ first rest, busy_cpus = first :: rest →
     model cpu = if decide (core_model first = []) then lit "Unknown"
                 else core_model first).
Proof.
  apply (getCPUInfo_usage busy_cpus [] busy_cpus).
  - repeat constructor; by vm_compute.
  - by vm_compute.
Defined.

(** C9 as stated fails where the percentage is so near a tie of the
    rounding to two decimals that its double is on the other side: with
    764315915660 ticks in user mode and 286506818457 idle ticks, the
    percentage is 72.735000000000005, which rounds to 72.74, and
    [usagePercent] is 72.73. *)
Lemma getCPUInfo_double_rounding :
  let idle_ticks := sum_ticks idle uneven_cpus in
  let ticks := sum_ticks all_ticks uneven_cpus in
  usagePercent (getCPUInfo uneven_cpus [] uneven_cpus) = Hundredths 7273 ∧
  ¬ rounded_to_2_decimals (100 * (ticks - idle_ticks)) ticks 7273 ∧
  rounded_to_2_decimals (100 * (ticks - idle_ticks)) ticks 7274.
Proof.
  split; [by vm_compute|].
  change (sum_ticks idle uneven_cpus) with 286506818457.
  change (sum_ticks all_ticks uneven_cpus) with 1050822734117.
  unfold rounded_to_2_decimals. lia.
Qed.

(** ** Byte counts *)

(** The exponent [formatBytes] computes is the one of the largest power of
    1024 that does not exceed the byte count. *)
Lemma floor_log_1024_spec (bytes : Z) :
  0 < bytes →
  ∃ i, floor_log_1024 bytes = Some i ∧ 0 ≤ i ∧
       1024 ^ i ≤ bytes < 1024 ^ (i + 1).
Proof.
  intros Hpos. unfold floor_log_1024.
  destruct (Z.ltb_spec bytes 0) as [?|_]; [lia|].
  exists (Z.log2 bytes / 10).
  pose proof (Z.log2_nonneg bytes) as Hlog.
  destruct (Z.log2_spec bytes Hpos) as [Hlow Hhigh].
  pose proof (Z.mul_div_le (Z.log2 bytes) 10) as Hle.
  pose proof (Z.mul_succ_div_gt (Z.log2 bytes) 10) as Hgt.
  set (i := Z.log2 bytes / 10) in *.
  assert (0 ≤ i) as Hi by (apply Z.div_pos; lia).
  split; [done|]. split; [done|].
  change 1024 with (2 ^ 10). rewrite <- !Z.pow_mul_r by lia. split.
  - etransitivity; [|exact Hlow]. apply Z.pow_le_mono_r; lia.
  - eapply Z.lt_le_trans; [exact Hhigh|]. apply Z.pow_le_mono_r; lia.
Qed.

(** The unit grows with the byte count. *)
Lemma floor_log_1024_monotone (bytes bytes' i i' : Z) :
  0 < bytes ≤ bytes' →
  floor_log_1024 bytes = Some i → floor_log_1024 bytes' = Some i' → i ≤ i'.
Proof.
  unfold floor_log_1024. intros [Hpos Hle].
  destruct (Z.ltb_spec bytes 0), (Z.ltb_spec bytes' 0); try lia.
  intros [= <-] [= <-].
  apply Z.div_le_mono; [lia|]. by apply Z.log2_le_mono.
Qed.

(** Up to the last unit of the table [formatBytes] prints the byte count
    in the largest unit in which it is at least 1, rounded to two decimals;
    the division by the power of 1024 is exact.  The byte counts stop one
    kilobyte short of 1024 TB, so that the quotient of the two logarithms
    is not within a rounding error of 5. *)
Lemma formatBytes_units (bytes : Z) :
  0 < bytes ≤ 1024 ^ 5 - 1024 →
  ∃ i unit h,
    floor_log_1024 bytes = Some i ∧
    sizes !! Z.to_nat i = Some unit ∧
    1024 ^ i ≤ bytes < 1024 ^ (i + 1) ∧
    rounded_to_2_decimals bytes (1024 ^ i) h ∧
    formatBytes bytes = show_fixed2 (Hundredths h) ++ lit " " ++ unit.
Proof.
  intros [Hpos Hbound].
  assert (bytes < 1024 ^ 5) as Hbelow by lia.
  destruct (floor_log_1024_spec bytes Hpos) as (i & Hi & Hnonneg & Hlow & Hhigh).
  assert (i < 5) as Hsmall.
  { apply Z.nle_gt. intros Hlarge.
    assert (1024 ^ 5 ≤ 1024 ^ i) by (apply Z.pow_le_mono_r; lia). lia. }
  assert (0 < 1024 ^ i) as Hpow by (apply Z.pow_pos_nonneg; lia).
  assert (∃ unit, sizes !! Z.to_nat i = Some unit) as [unit Hunit].
  { apply lookup_lt_is_Some. simpl. lia. }
  assert (1024 ^ i = 2 ^ (10 * i)) as Hbase
    by (change 1024 with (2 ^ 10); by rewrite <- Z.pow_mul_r by lia).
  destruct (double_round_dyadic bytes (10 * i)) as (r & Hr & Hexact).
  { change (2 ^ 53) with (8 * 1024 ^ 5). lia. }
  { lia. }
  { by rewrite <- Hbase. }
  rewrite <- Hbase in Hr, Hexact.
  exists i, unit, (nearest_hundredth r).
  split; [done|]. split; [done|]. split; [done|]. split.
  - by apply nearest_hundredth_rounded.
  - unfold formatBytes. rewrite Hi.
    destruct (Z.eqb_spec bytes 0) as [?|_]; [lia|].
    unfold js_div, index.
    destruct (Z.eqb_spec (1024 ^ i) 0) as [?|_]; [lia|].
    destruct (Z.ltb_spec i 0) as [?|_]; [lia|].
    by rewrite Hr, Hunit.
Qed.

(** The three examples of the specification. *)
Lemma formatBytes_examples :
  formatBytes 0 = lit "0 Bytes" ∧
  formatBytes 1024 = lit "1 KB" ∧
  formatBytes 1536 = lit "1.5 KB".
Proof. by vm_compute. Qed.

(** C3, where the code departs from it: a byte count of 4 PiB is beyond the
    table of units, and [formatBytes] prints the word ["undefined"] in
    place of a unit of the list. *)
Theorem formatBytes_beyond_TB :
  formatBytes 4503599627370496 = lit "4 undefined" ∧
  floor_log_1024 4503599627370496 = Some 5 ∧
  index sizes 5 = None.
Proof. by vm_compute. Qed.

(** * Further properties *)

(** ** Byte counts and percentages *)

(** X1: a byte count from 1 up to one kilobyte short of 1024 TB is
    printed with the unit of the table for the largest power of 1024 that
    does not exceed it, and the number printed is the count in that unit
    rounded to two decimals, a number from 1 to 1024. *)
Theorem formatBytes_within_table (bytes : Z) :
  0 < bytes ≤ 1024 ^ 5 - 1024 →
  ∃ i unit h,
    sizes !! Z.to_nat i = Some unit ∧
    0 ≤ i ∧ 1024 ^ i ≤ bytes < 1024 ^ (i + 1) ∧
    rounded_to_2_decimals bytes (1024 ^ i) h ∧
    100 ≤ h ≤ 102400 ∧
    formatBytes bytes = show_fixed2 (Hundredths h) ++ lit " " ++ unit.
Proof.
  intros Hrange.
  destruct (formatBytes_units bytes Hrange)
    as (i & unit & h & Hi & Hunit & Hpow & Hround & Hformat).
  destruct (floor_log_1024_spec bytes (proj1 Hrange)) as (i' & Hi' & Hnonneg & _).
  assert (i' = i) as -> by congruence.
  exists i, unit, h. repeat split; try done; try apply Hpow.
  - unfold rounded_to_2_decimals in Hround.
    assert (0 < 1024 ^ i) by (apply Z.pow_pos_nonneg; lia). nia.
  - unfold rounded_to_2_decimals in Hround.
    assert (0 < 1024 ^ i) by (apply Z.pow_pos_nonneg; lia).
    assert (1024 ^ (i + 1) = 1024 * 1024 ^ i) as Hnext
      by (rewrite Z.pow_add_r by lia; lia).
    nia.
Qed.

Lemma formatBytes_within_table_witness :
  ∃ i unit h,
    sizes !! Z.to_nat i = Some unit ∧
    0 ≤ i ∧ 1024 ^ i ≤ 1048575 < 1024 ^ (i + 1) ∧
    rounded_to_2_decimals 1048575 (1024 ^ i) h ∧
    100 ≤ h ≤ 102400 ∧
    formatBytes 1048575 = show_fixed2 (Hundredths h) ++ lit " " ++ unit.
Proof.
  apply (formatBytes_within_table 1048575).
  change (1024 ^ 5) with 1125899906842624. lia.
Defined.

(** X2: up to one kilobyte short of 1024 TB the unit never gets smaller
    when the byte count grows. *)
Theorem formatBytes_unit_monotone (bytes bytes' : Z) :
  0 < bytes ≤ bytes' → bytes' ≤ 1024 ^ 5 - 1024 →
  ∃ i i' unit unit' h h',
    sizes !! Z.to_nat i = Some unit ∧
    sizes !! Z.to_nat i' = Some unit' ∧
    formatBytes bytes = show_fixed2 (Hundredths h) ++ lit " " ++ unit ∧
    formatBytes bytes' = show_fixed2 (Hundredths h') ++ lit " " ++ unit' ∧
    0 ≤ i ≤ i'.
Proof.
  intros [Hpos Hle] Hbound.
  destruct (formatBytes_units bytes) as (i & unit & h & Hi & Hunit & _ & _ & Hf);
    [lia|].
  destruct (formatBytes_units bytes')
    as (i' & unit' & h' & Hi' & Hunit' & _ & _ & Hf'); [lia|].
  exists i, i', unit, unit', h, h'. repeat split; try done.
  - destruct (floor_log_1024_spec bytes Hpos) as (j & Hj & ? & _). congruence.
  - by apply (floor_log_1024_monotone bytes bytes').
Qed.

Lemma formatBytes_unit_monotone_witness :
  ∃ i i' unit unit' h h',
    sizes !! Z.to_nat i = Some unit ∧
    sizes !! Z.to_nat i' = Some unit' ∧
    formatBytes 1023 = show_fixed2 (Hundredths h) ++ lit " " ++ unit ∧
    formatBytes 1536 = show_fixed2 (Hundredths h') ++ lit " " ++ unit' ∧
    0 ≤ i ≤ i'.
Proof.
  apply (formatBytes_unit_monotone 1023 1536);
    change (1024 ^ 5) with 1125899906842624; lia.
Defined.

(** X3: outside the table [formatBytes] prints no unit of the list: from
    1024 TB on it prints a number from 1 to 1024 and the word
    ["undefined"] for the unit; a negative count is printed as
    ["NaN undefined"]. *)
Theorem formatBytes_outside_table (bytes : Z) :
  (1024 ^ 5 ≤ bytes →
     ∃ h, 100 ≤ h ≤ 102400 ∧
          formatBytes bytes = show_fixed2 (Hundredths h) ++ lit " undefined") ∧
  (bytes < 0 → formatBytes bytes = lit "NaN undefined").
Proof.
  split.
  - intros Hlarge.
    assert (0 < bytes) as Hpos by (change (1024 ^ 5) with 1125899906842624 in *; lia).
    destruct (floor_log_1024_spec bytes Hpos) as (i & Hi & Hnonneg & Hlow & Hhigh).
    assert (5 ≤ i) as Hfive.
    { apply Z.nlt_ge. intros Hsmall.
      assert (1024 ^ (i + 1) ≤ 1024 ^ 5) by (apply Z.pow_le_mono_r; lia). lia. }
    assert (0 < 1024 ^ i) as Hpow by (apply Z.pow_pos_nonneg; lia).
    assert (1024 ^ (i + 1) = 1024 * 1024 ^ i) as Hnext
      by (rewrite Z.pow_add_r by lia; lia).
    set (q := (inject_Z bytes / inject_Z (1024 ^ i))%Q).
    assert (0 < inject_Z (1024 ^ i))%Q as HD
      by (change 0%Q with (inject_Z 0); by rewrite <- Zlt_Qlt).
    assert (q * inject_Z (1024 ^ i) == inject_Z bytes)%Q as Hq
      by (unfold q; field; lra).
    assert (1 <= q <= 2 ^ 10)%Q as [Hq1 Hq1024].
    { change (2 ^ 10)%Q with (inject_Z 1024). change 1%Q with (inject_Z 1).
      split; apply Qmult_le_r with (inject_Z (1024 ^ i)); try done;
        rewrite Hq, <- inject_Z_mult, <- Zle_Qle; lia. }
    destruct (double_round_bound q 10) as (r & Hr & [_ Hr1024] & [Hnear _]);
      [lia|split; lra|].
    change (2 ^ (10 - 53))%Q with (1 # 8796093022208)%Q in Hnear.
    change (2 ^ 10)%Q with 1024%Q in Hr1024.
    pose proof (nearest_hundredth_close r) as [Hclose Hclose'].
    set (h := nearest_hundredth r) in *.
    exists h. split.
    + assert (99 < h < 102401); [|lia].
      rewrite !Zlt_Qlt. change (inject_Z 99) with 99%Q.
      change (inject_Z 102401) with 102401%Q. split; lra.
    + unfold formatBytes. rewrite Hi.
      destruct (Z.eqb_spec bytes 0) as [?|_]; [lia|].
      unfold js_div, index.
      destruct (Z.eqb_spec (1024 ^ i) 0) as [?|_]; [lia|].
      destruct (Z.ltb_spec i 0) as [?|_]; [lia|].
      fold q. rewrite Hr.
      rewrite (lookup_ge_None_2 sizes (Z.to_nat i)); [done|]. simpl. lia.
  - intros Hnegative. unfold formatBytes, floor_log_1024.
    destruct (Z.eqb_spec bytes 0) as [?|_]; [lia|].
    destruct (Z.ltb_spec bytes 0) as [_|?]; [done|lia].
Qed.

Lemma formatBytes_outside_table_witness :
  (∃ h, 100 ≤ h ≤ 102400 ∧
        formatBytes (2 ^ 60) = show_fixed2 (Hundredths h) ++ lit " undefined") ∧
  formatBytes (-1) = lit "NaN undefined".
Proof.
  split.
  - apply (formatBytes_outside_table (2 ^ 60)). by vm_compute.
  - apply (formatBytes_outside_table (-1)). lia.
Defined.

(** A percentage rounded in doubles is less than a hundredth away from
    the exact one. *)
Lemma rounded_in_doubles_near (n d h : Z) :
  0 < d → rounded_in_doubles n d h → - d < h * d - 100 * n < d.
Proof.
  unfold rounded_in_doubles.
  change (2 ^ 45) with 35184372088832.
  change (2 ^ 44 + 200) with 17592186044616. lia.
Qed.

(** X4: when the free memory is between nothing and all of a positive
    total, [usedPercent] is a percentage from 0 to 100, 0 when all memory is
    free and 100 when none is; it is not above 85 while the memory used is
    at most 85 hundredths of the total, and it is above 85 once the memory
    used reaches 85.01 hundredths of it, and likewise for 70. *)
Theorem getMemoryInfo_percent_bounds (totalmem freemem : Z) :
  0 < totalmem → 0 ≤ freemem ≤ totalmem →
  let memory := getMemoryInfo totalmem freemem in
  ∃ h, usedPercent memory = Hundredths h ∧ 0 ≤ h ≤ 10000 ∧
       (freemem = totalmem → h = 0) ∧ (freemem = 0 → h = 10000) ∧
       (100 * used memory ≤ 85 * totalmem → ¬ exceeds (usedPercent memory) 85) ∧
       (8501 * totalmem ≤ 10000 * used memory → exceeds (usedPercent memory) 85) ∧
       (100 * used memory ≤ 70 * totalmem → ¬ exceeds (usedPercent memory) 70) ∧
       (7001 * totalmem ≤ 10000 * used memory → exceeds (usedPercent memory) 70).
Proof.
  intros Htotal Hfree memory.
  destruct (percent_in_doubles (totalmem - freemem) totalmem Htotal)
    as (h & Hh & Hround); [lia|].
  exists h. unfold memory, getMemoryInfo.
  cbn [usedPercent used]. rewrite Hh. cbn [exceeds].
  apply rounded_in_doubles_near in Hround; [|done].
  clear Hh.
  split_and!; [done|nia|nia|intros ->; nia|intros ->; nia|..];
    intros Hused; try (intros Habove); nia.
Qed.

Lemma getMemoryInfo_percent_bounds_witness :
  let memory := getMemoryInfo 17179869184 1717986918 in
  ∃ h, usedPercent memory = Hundredths h ∧ 0 ≤ h ≤ 10000 ∧
       (1717986918 = 17179869184 → h = 0) ∧ (1717986918 = 0 → h = 10000) ∧
       (100 * used memory ≤ 85 * 17179869184 →
          ¬ exceeds (usedPercent memory) 85) ∧
       (8501 * 17179869184 ≤ 10000 * used memory →
          exceeds (usedPercent memory) 85) ∧
       (100 * used memory ≤ 70 * 17179869184 →
          ¬ exceeds (usedPercent memory) 70) ∧
       (7001 * 17179869184 ≤ 10000 * used memory →
          exceeds (usedPercent memory) 70).
Proof.
  apply (getMemoryInfo_percent_bounds 17179869184 1717986918); lia.
Defined.

(** X5: when no tick counter is negative and some tick has been counted,
    [usagePercent] is a percentage from 0 to 100: 0 when every tick was
    idle, 100 when none was. *)
Theorem getCPUInfo_percent_bounds (cpus : list CpuCore) (loadavg : list Q)
    (cpus_again : list CpuCore) :
  counters_nonnegative cpus_again →
  0 < sum_ticks all_ticks cpus_again →
  ∃ h, usagePercent (getCPUInfo cpus loadavg cpus_again) = Hundredths h ∧
       0 ≤ h ≤ 10000 ∧
       (sum_ticks idle cpus_again = sum_ticks all_ticks cpus_again → h = 0) ∧
       (sum_ticks idle cpus_again = 0 → h = 10000).
Proof.
  intros Hcounters Hticks.
  pose proof (sum_ticks_bounds cpus_again Hcounters) as Hidle.
  destruct (usage_in_doubles (sum_ticks idle cpus_again)
              (sum_ticks all_ticks cpus_again) Hticks Hidle)
    as (h & Hh & Hround).
  exists h. unfold getCPUInfo. cbn [usagePercent].
  rewrite getCPUUsage_ratio, Hh.
  apply rounded_in_doubles_near in Hround; [|done].
  set (ticks := sum_ticks all_ticks cpus_again) in *.
  set (idle_ticks := sum_ticks idle cpus_again) in *.
  clear Hh.
  split_and!; [done|nia|nia|intros Hall; rewrite Hall in *; nia
              |intros Hnone; rewrite Hnone in *; nia].
Qed.

Lemma getCPUInfo_percent_bounds_witness :
  ∃ h, usagePercent (getCPUInfo busy_cpus [] busy_cpus) = Hundredths h ∧
       0 ≤ h ≤ 10000 ∧
       (sum_ticks idle busy_cpus = sum_ticks all_ticks busy_cpus → h = 0) ∧
       (sum_ticks idle busy_cpus = 0 → h = 10000).
Proof.
  apply (getCPUInfo_percent_bounds busy_cpus [] busy_cpus).
  - repeat constructor; by vm_compute.
  - by vm_compute.
Defined.

(** X6: when the reading has no core, or no tick counted on any core,
    [usagePercent] is [NaN]; it is then above no threshold, and the tick
    prints it as ["NaN"]. *)
Theorem getCPUInfo_without_ticks (cpus : list CpuCore) (loadavg : list Q)
    (cpus_again : list CpuCore) :
  counters_nonnegative cpus_again →
  sum_ticks all_ticks cpus_again = 0 →
  let cpu := getCPUInfo cpus loadavg cpus_again in
  usagePercent cpu = NotANumber ∧
  (∀ t, ¬ exceeds (usagePercent cpu) t) ∧
  show_fixed2 (usagePercent cpu) = lit "NaN".
Proof.
  intros Hcounters Hticks cpu.
  pose proof (sum_ticks_bounds cpus_again Hcounters) as Hidle.
  assert (usagePercent cpu = NotANumber) as Hnan.
  { unfold cpu, getCPUInfo. simpl. rewrite getCPUUsage_ratio, Hticks.
    replace (sum_ticks idle cpus_again) with 0 by lia. done. }
  rewrite Hnan. split_and!; [done|intros t Habove; exact Habove|done].
Qed.

Lemma getCPUInfo_without_ticks_witness :
  let cpu := getCPUInfo busy_cpus [] [] in
  usagePercent cpu = NotANumber ∧
  (∀ t, ¬ exceeds (usagePercent cpu) t) ∧
  show_fixed2 (usagePercent cpu) = lit "NaN".
Proof.
  apply (getCPUInfo_without_ticks busy_cpus [] []).
  - constructor.
  - reflexivity.
Defined.

(** ** Sequences of calls of the logger *)

Lemma log_world (message : jsstring) (type : option jsstring) (w : world) :
  ∃ out, (log message type w).1 = logged (entry_of w message type) out w.
Proof.
  destruct (log_delivery message type w) as (out & r & -> & _). by exists out.
Qed.

Lemma log_listeners_return (message : jsstring) (type : option jsstring)
    (w : world) :
  listeners_return w → listeners_return (log message type w).1.
Proof.
  intros Hreturn. destruct (log_world message type w) as [out ->]. exact Hreturn.
Qed.

(** When no listener throws, the code after a call of [log] runs, in the
    world the call leaves. *)
Lemma bind_log {B} (message : jsstring) (type : option jsstring)
    (f : unit → M B) (w : world) :
  listeners_return w →
  (log message type ≫= f) w = f tt (log message type w).1.
Proof.
  intros Hreturn.
  destruct (log_returns message type w Hreturn) as [out Hlog].
  unfold mbind, M_bind. by rewrite Hlog.
Qed.

Lemma perform_all_app (calls calls' : list call) (w : world) :
  perform_all (calls ++ calls') w = perform_all calls' (perform_all calls w).
Proof. revert w. induction calls as [|c calls IH]; intros w; simpl; done. Qed.

(** A sequence of calls reads the clock once per call and emits one entry
    per call; it touches neither the listeners nor the monitor nor the
    timers. *)
Lemma perform_all_frame (calls : list call) (w : world) :
  let w' := perform_all calls w in
  listeners w' = listeners w ∧ clock w' = clock w ∧
  clock_reads w' = (clock_reads w + length calls)%nat ∧
  timers w' = timers w ∧ next_timer w' = next_timer w ∧
  monitoring w' = monitoring w ∧ monitorInterval w' = monitorInterval w ∧
  emitted w' = emitted w ++ expected_entries (clock w) (clock_reads w) calls.
Proof.
  revert w. induction calls as [|c calls IH]; intros w; simpl.
  - split_and!; try done; try lia; by rewrite app_nil_r.
  - destruct (perform_logged c w) as [out Hc]. rewrite Hc.
    destruct (IH (logged {| timestamp := clock w (clock_reads w);
                            type := level_of c; message := message_of c |}
                    out w))
      as (Hl & Hc' & Hr & Ht & Hn & Hm & Hi & He).
    simpl in *. rewrite Hl, Hc', Hr, Ht, Hn, Hm, Hi, He.
    split_and!; try done; try lia; by rewrite <- app_assoc.
Qed.

Lemma perform_all_listeners_return (calls : list call) (w : world) :
  listeners_return w → listeners_return (perform_all calls w).
Proof.
  intros Hreturn. unfold listeners_return.
  by destruct (perform_all_frame calls w) as (-> & _).
Qed.

(** The code after a call of [info], [warn], [error] or [log] runs in the
    world [perform] gives, when no listener throws. *)
Lemma bind_perform {B} (c : call) (f : unit → M B) (w : world) :
  listeners_return w →
  (perform c ≫= f) w = f tt (perform_all [c] w).
Proof.
  intros Hreturn.
  destruct c as [message type|message|message|message]; simpl;
    unfold info, warn, error; by apply bind_log.
Qed.

Lemma perform_returns (c : call) (w : world) :
  listeners_return w → perform c w = (perform_all [c] w, Returned tt).
Proof.
  intros Hreturn.
  destruct c as [message type|message|message|message]; simpl;
    unfold info, warn, error;
    match goal with
    | |- log ?m ?t w = _ =>
        destruct (log_returns m t w Hreturn) as [out ->]
    end; done.
Qed.

(** [checkAlerts] is the sequence of its calls of the logger. *)
Lemma checkAlerts_perform (memory : MemoryInfo) (cpu : CPUInfo) (w : world) :
  listeners_return w →
  checkAlerts memory cpu w
  = (perform_all (alert_calls memory cpu) w, Returned tt).
Proof.
  intros Hreturn. unfold checkAlerts, alert_calls. rewrite perform_all_app.
  match goal with
  | |- (?check_memory ≫= ?check_cpu) w
       = (perform_all ?for_cpu (perform_all ?for_memory w), _) =>
      assert (check_memory w = (perform_all for_memory w, Returned tt))
        as Hmemory;
      [|assert (∀ w1, listeners_return w1 →
                  check_cpu tt w1 = (perform_all for_cpu w1, Returned tt))
          as Hcpu]
  end.
  - destruct (gt_int (usedPercent memory) 85);
      [exact (perform_returns (Error _) w Hreturn)|].
    destruct (gt_int (usedPercent memory) 70);
      [exact (perform_returns (Warn _) w Hreturn)|done].
  - intros w1 Hreturn1. cbn beta.
    destruct (gt_int (usagePercent cpu) 80);
      [exact (perform_returns (Error _) w1 Hreturn1)|].
    destruct (gt_int (usagePercent cpu) 60);
      [exact (perform_returns (Warn _) w1 Hreturn1)|done].
  - unfold mbind, M_bind. rewrite Hmemory. apply Hcpu.
    by apply perform_all_listeners_return.
Qed.

(** The listeners still return after any calls of the logger. *)
Ltac still_quiet :=
  solve [repeat first [assumption | apply perform_all_listeners_return]].

Lemma bind_info {B} (message : jsstring) (f : unit → M B) (w : world) :
  listeners_return w →
  (info message ≫= f) w = f tt (perform_all [Info message] w).
Proof. apply (bind_perform (Info message)). Qed.

Lemma raised_perform_all (calls : list call) (w : world) :
  raised w (perform_all calls w)
  = (λ c, (level_of c, message_of c)) <$> calls.
Proof.
  destruct (perform_all_frame calls w) as (_ & _ & _ & _ & _ & _ & _ & Hemitted).
  rewrite (raised_logged w _ _ Hemitted). clear Hemitted.
  generalize (clock_reads w) as k.
  induction calls as [|c calls IH]; intros k; [done|].
  cbn [expected_entries]. rewrite !fmap_cons. by rewrite (IH (S k)).
Qed.

(** ** The tick *)

(** Up to the reading of the user, a tick is its first four calls of the
    logger; with the user read, it is all its calls: four, two more and
    those of [checkAlerts]. *)
Lemma collectSystemMetrics_perform (startTime : Z) (os : os_readings)
    (w : world) :
  listeners_return w →
  let memory := getMemoryInfo (os_totalmem os) (os_freemem os) in
  let cpu := getCPUInfo (os_cpus os) (os_loadavg os) (os_cpus_again os) in
  collectSystemMetrics startTime os w =
    match os_userInfo os with
    | UserInfoThrows e =>
        (perform_all (metric_calls_before_system startTime os) w, Thrown e)
    | _ =>
        (perform_all (metric_calls_before_system startTime os
                        ++ metric_calls_from_system os
                        ++ alert_calls memory cpu) w,
         Returned tt)
    end.
Proof.
  intros Hreturn memory cpu.
  unfold collectSystemMetrics, metric_calls_before_system,
    metric_calls_from_system.
  do 4 rewrite bind_info by still_quiet.
  rewrite <- !perform_all_app. cbn [app].
  match goal with
  | |- context [perform_all ?first_four w] =>
      set (calls4 := first_four); set (w4 := perform_all calls4 w)
  end.
  assert (listeners_return w4) as Hreturn4 by still_quiet.
  assert (∀ system,
            hostname system = os_hostname os →
            platform system = os_platform os →
            arch system = os_arch os →
            (mret system ≫= λ system,
               info (lit "System: " ++ platform system ++ lit " "
                       ++ arch system ++ lit " (" ++ hostname system
                       ++ lit ")");;
               info (lit "Network Interfaces: "
                       ++ show_nat
                            (interfaces
                               (getNetworkInfo (os_networkInterfaces os))));;
               checkAlerts memory cpu) w4
            = (perform_all
                 (calls4
                    ++ [Info (lit "System: " ++ os_platform os ++ lit " "
                                ++ os_arch os ++ lit " (" ++ os_hostname os
                                ++ lit ")");
                        Info (lit "Network Interfaces: "
                                ++ show_nat
                                     (interfaces
                                        (getNetworkInfo
                                           (os_networkInterfaces os))))]
                    ++ alert_calls memory cpu) w,
               Returned tt)) as Hrest.
  { intros system Hhost Hplatform Harch.
    unfold mbind at 1, M_bind at 1, mret, M_ret. cbn beta iota.
    rewrite Hhost, Hplatform, Harch.
    do 2 rewrite bind_info by still_quiet.
    rewrite checkAlerts_perform by still_quiet.
    unfold w4. rewrite <- !perform_all_app. reflexivity. }
  destruct (os_userInfo os) as [|user|e].
  - by apply Hrest.
  - by apply Hrest.
  - reflexivity.
Qed.

Lemma alert_calls_length (memory : MemoryInfo) (cpu : CPUInfo) :
  (length (alert_calls memory cpu) ≤ 2)%nat.
Proof.
  unfold alert_calls.
  destruct (gt_int (usedPercent memory) 85),
    (gt_int (usedPercent memory) 70), (gt_int (usagePercent cpu) 80),
    (gt_int (usagePercent cpu) 60); simpl; lia.
Qed.

Lemma sample_readings_in_range : readings_in_range 0 sample_readings.
Proof.
  unfold readings_in_range.
  change (1024 ^ 5 - 1024) with 1125899906841600.
  change (2 ^ 53) with 9007199254740992.
  change (2 ^ 64) with 18446744073709551616.
  split_and!; try (cbn; lia).
  - repeat constructor; by vm_compute.
  - by vm_compute.
Qed.

Lemma readings_without_user_in_range :
  readings_in_range 0 readings_without_user.
Proof.
  unfold readings_in_range.
  change (1024 ^ 5 - 1024) with 1125899906841600.
  change (2 ^ 53) with 9007199254740992.
  change (2 ^ 64) with 18446744073709551616.
  split_and!; try (cbn; lia).
  - repeat constructor; by vm_compute.
  - by vm_compute.
Qed.

(** X11: when no listener throws, the user can be read and the readings
    are in range, a tick returns after six INFO entries, for the memory,
    the processor, its usage, the process, the system and the network in
    this order, followed by the entries of [checkAlerts] for the memory and
    processor snapshots it took: six to eight entries and as many readings
    of the clock.  The first entry gives the memory in use as a percentage
    of the total, rounded in doubles, and the two byte counts.  The tick
    leaves the monitor and the timers as they were. *)
Theorem collectSystemMetrics_entries (startTime : Z) (os : os_readings)
    (w : world) :
  listeners_return w →
  (∀ e, os_userInfo os ≠ UserInfoThrows e) →
  readings_in_range startTime os →
  let memory := getMemoryInfo (os_totalmem os) (os_freemem os) in
  let cpu := getCPUInfo (os_cpus os) (os_loadavg os) (os_cpus_again os) in
  let calls := metric_calls_before_system startTime os
               ++ metric_calls_from_system os ++ alert_calls memory cpu in
  let w' := (collectSystemMetrics startTime os w).1 in
  (collectSystemMetrics startTime os w).2 = Returned tt ∧
  raised w w' = (λ c, (level_of c, message_of c)) <$> calls ∧
  (6 ≤ length calls ≤ 8)%nat ∧
  (∃ h, rounded_in_doubles (100 * (os_totalmem os - os_freemem os))
          (os_totalmem os) h ∧
        calls !! 0%nat
        = Some (Info (lit "Memory: " ++ show_fixed2 (Hundredths h)
                        ++ lit "% ("
                        ++ formatBytes (os_totalmem os - os_freemem os)
                        ++ lit "/" ++ formatBytes (os_totalmem os)
                        ++ lit ")"))) ∧
  clock_reads w' = (clock_reads w + length calls)%nat ∧
  monitoring w' = monitoring w ∧ monitorInterval w' = monitorInterval w ∧
  timers w' = timers w ∧ next_timer w' = next_timer w.
Proof.
  intros Hreturn Huser (Htotal & Hfree & _) memory cpu calls w'.
  assert (collectSystemMetrics startTime os w
          = (perform_all calls w, Returned tt)) as Htick.
  { rewrite collectSystemMetrics_perform by done.
    destruct (os_userInfo os) as [|user|e]; try done. by destruct (Huser e). }
  unfold w'. rewrite Htick. cbn [fst snd].
  destruct (perform_all_frame calls w)
    as (_ & _ & Hreads & Htimers & Hnext & Hmonitoring & Hhandle & _).
  assert (length calls
          = (6 + length (alert_calls memory cpu))%nat) as Hlength.
  { unfold calls. rewrite !length_app.
    change (length (metric_calls_before_system startTime os)) with 4%nat.
    change (length (metric_calls_from_system os)) with 2%nat. lia. }
  pose proof (alert_calls_length memory cpu) as Halerts.
  split_and!; [reflexivity|apply raised_perform_all|lia|lia| |lia
              |assumption..].
  destruct (percent_in_doubles (os_totalmem os - os_freemem os)
              (os_totalmem os)) as (h & Hh & Hround); [lia|lia|].
  exists h. split; [exact Hround|].
  rewrite <- Hh. reflexivity.
Qed.

Lemma collectSystemMetrics_entries_witness :
  let w := initial_world None noon in
  let w' := (collectSystemMetrics 0 sample_readings w).1 in
  (collectSystemMetrics 0 sample_readings w).2 = Returned tt ∧
  length (raised w w') = 8%nat.
Proof.
  intros w w'.
  destruct (collectSystemMetrics_entries 0 sample_readings w
              (initial_world_listeners_return None noon))
    as (Hreturned & Hraised & _).
  - intros e. discriminate.
  - exact sample_readings_in_range.
  - split; [exact Hreturned|]. unfold w'. cbv zeta in Hraised.
    rewrite Hraised, length_fmap. by vm_compute.
Defined.

(** X13: when reading the user throws and the readings are in range, the
    tick ends with that exception after its first four entries: the system
    and network entries are not written and the alerts are not
    evaluated. *)
Theorem collectSystemMetrics_user_unreadable (startTime : Z)
    (os : os_readings) (w : world) (e : exception) :
  listeners_return w →
  os_userInfo os = UserInfoThrows e →
  readings_in_range startTime os →
  let w' := (collectSystemMetrics startTime os w).1 in
  (collectSystemMetrics startTime os w).2 = Thrown e ∧
  raised w w' = (λ c, (level_of c, message_of c))
                  <$> metric_calls_before_system startTime os ∧
  length (raised w w') = 4%nat.
Proof.
  intros Hreturn Huser _ w'. unfold w'.
  rewrite collectSystemMetrics_perform by done. rewrite Huser. cbn [fst snd].
  split; [reflexivity|]. rewrite raised_perform_all.
  split; [reflexivity|]. by rewrite length_fmap.
Qed.

Lemma collectSystemMetrics_user_unreadable_witness :
  let w := initial_world None noon in
  let w' := (collectSystemMetrics 0 readings_without_user w).1 in
  (collectSystemMetrics 0 readings_without_user w).2
    = Thrown (SystemError (lit "ENOENT")) ∧
  raised w w' = (λ c, (level_of c, message_of c))
                  <$> metric_calls_before_system 0 readings_without_user ∧
  length (raised w w') = 4%nat.
Proof.
  apply (collectSystemMetrics_user_unreadable 0 readings_without_user
           (initial_world None noon) (SystemError (lit "ENOENT"))).
  - apply initial_world_listeners_return.
  - reflexivity.
  - exact readings_without_user_in_range.
Defined.

(** ** Starting and stopping *)

(** What [startMonitoring] does to an idle monitor: it sets the flag and
    logs, and only if the call of the logger returns does it arm the timer
    and keep its handle. *)
Lemma startMonitoring_idle (interval : option Z) (w : world) :
  monitoring w = false →
  let flagged := set_monitoring true w in
  let started :=
    entry_of flagged (lit "System monitoring started") (Some INFO) in
  ∃ out r,
    delivery started
      (Some (from_option id [] (log_file w) ++ line_of started))
      (listeners w) (console w) out r ∧
    startMonitoring interval w =
      match r with
      | Returned _ =>
          (set_monitorInterval (Some (next_timer w))
             (set_timers
                (<[next_timer w := from_option id 5000 interval]> (timers w))
                (S (next_timer w)) (logged started out flagged)),
           Returned tt)
      | Thrown e => (logged started out flagged, Thrown e)
      end.
Proof.
  intros Hidle flagged started.
  destruct (log_delivery (lit "System monitoring started") (Some INFO) flagged)
    as (out & r & Hlog & Hdelivery).
  exists out, r. split; [exact Hdelivery|].
  unfold startMonitoring, info, setInterval, modify, gets, mbind, M_bind.
  cbn beta iota. rewrite Hidle. cbn beta iota. fold flagged. rewrite Hlog.
  by destruct r as [[]|e].
Qed.

(** X7: when no listener throws, [startMonitoring] on an idle monitor
    returns with the monitor running, one INFO entry
    ["System monitoring started"] logged, and one more timer armed, with
    the interval given, or 5000 when none is given, under the next free
    handle, which the monitor keeps; the timers armed before stay armed. *)
Theorem startMonitoring_arms_timer (interval : option Z) (w : world) :
  listeners_return w →
  monitoring w = false →
  let w' := (startMonitoring interval w).1 in
  (startMonitoring interval w).2 = Returned tt ∧
  monitoring w' = true ∧
  monitorInterval w' = Some (next_timer w) ∧
  timers w' = <[next_timer w := from_option id 5000 interval]> (timers w) ∧
  next_timer w' = S (next_timer w) ∧
  (∀ h, h ≠ next_timer w → timers w' !! h = timers w !! h) ∧
  raised w w' = [(INFO, lit "System monitoring started")].
Proof.
  intros Hreturn Hidle w'.
  destruct (startMonitoring_idle interval w Hidle) as (out & r & Hdel & Hstart).
  assert (r = Returned tt) as -> by (by eapply delivery_returns).
  unfold w'. rewrite Hstart. cbn [fst snd].
  split_and!; try reflexivity.
  - intros h Hh. cbn. by apply lookup_insert_ne.
  - by rewrite (raised_logged w
                  [entry_of (set_monitoring true w)
                     (lit "System monitoring started") (Some INFO)]).
Qed.

Lemma startMonitoring_arms_timer_witness :
  let w := initial_world None noon in
  let w' := (startMonitoring None w).1 in
  (startMonitoring None w).2 = Returned tt ∧
  monitoring w' = true ∧
  monitorInterval w' = Some 0%nat ∧
  timers w' = {[ 0%nat := 5000 ]}.
Proof.
  intros w w'.
  destruct (startMonitoring_arms_timer None w
              (initial_world_listeners_return None noon) eq_refl)
    as (Hreturned & Hrunning & Hhandle & Htimers & _).
  split_and!; [exact Hreturned|exact Hrunning|exact Hhandle|].
  unfold w'. cbv zeta in Htimers. rewrite Htimers. reflexivity.
Defined.

(** X8: when a listener throws at the entry ["System monitoring started"],
    [startMonitoring] ends with that exception after it has set the flag
    and written the line, and before it arms the timer: the monitor counts
    as running with no timer armed for it, and every later
    [startMonitoring] returns at once without arming one. *)
Theorem startMonitoring_listener_throws (interval : option Z) (w : world)
    (e : exception) :
  monitoring w = false →
  (startMonitoring interval w).2 = Thrown e →
  let w' := (startMonitoring interval w).1 in
  monitoring w' = true ∧
  timers w' = timers w ∧ next_timer w' = next_timer w ∧
  monitorInterval w' = monitorInterval w ∧
  raised w w' = [(INFO, lit "System monitoring started")] ∧
  ∀ interval', startMonitoring interval' w' = (w', Returned tt).
Proof.
  intros Hidle Hthrown w'.
  destruct (startMonitoring_idle interval w Hidle) as (out & r & _ & Hstart).
  unfold w'. rewrite Hstart in *. destruct r as [[]|e']; [done|].
  cbn [fst snd].
  split_and!; try reflexivity.
  by rewrite (raised_logged w
                [entry_of (set_monitoring true w)
                   (lit "System monitoring started") (Some INFO)]).
Qed.

Lemma startMonitoring_listener_throws_witness :
  let w := world_with_failing_listener in
  let w' := (startMonitoring (Some 3000) w).1 in
  monitoring w' = true ∧
  timers w' = timers w ∧ next_timer w' = next_timer w ∧
  monitorInterval w' = monitorInterval w ∧
  raised w w' = [(INFO, lit "System monitoring started")] ∧
  ∀ interval', startMonitoring interval' w' = (w', Returned tt).
Proof.
  apply (startMonitoring_listener_throws (Some 3000)
           world_with_failing_listener
           (ListenerError (lit "listener failed"))); reflexivity.
Defined.

Lemma stopMonitoring_running_returns (w : world) :
  listeners_return w →
  monitoring w = true →
  let disarmed :=
    set_monitoring false
      (from_option (λ h, set_timers (delete h (timers w)) (next_timer w) w)
         w (monitorInterval w)) in
  ∃ out,
    stopMonitoring w =
      (logged (entry_of disarmed (lit "System monitoring stopped") (Some INFO))
         out disarmed, Returned tt).
Proof.
  intros Hreturn Hrunning disarmed.
  assert (listeners_return disarmed) as Hreturn'.
  { unfold disarmed. by destruct (monitorInterval w). }
  destruct (log_returns (lit "System monitoring stopped") (Some INFO) disarmed
              Hreturn') as [out Hlog].
  exists out. rewrite <- Hlog.
  unfold stopMonitoring, clearInterval, info, modify, gets, mbind, M_bind.
  cbn beta iota. rewrite Hrunning. cbn [negb]. cbn beta iota.
  unfold disarmed. by destruct (monitorInterval w).
Qed.

(** X9: when no listener throws and the handles of the armed timers are
    below the next free handle, starting an idle monitor and stopping it
    leaves the armed timers exactly as they were, the monitor idle, and two
    INFO entries logged, the start and the stop; the monitor keeps the
    handle of the timer it cleared, and the handles of the armed timers are
    still below the next free one. *)
Theorem start_then_stop (interval : option Z) (w : world) :
  listeners_return w →
  handles_below w →
  monitoring w = false →
  let w1 := (startMonitoring interval w).1 in
  let w2 := (stopMonitoring w1).1 in
  (stopMonitoring w1).2 = Returned tt ∧
  monitoring w2 = false ∧
  timers w2 = timers w ∧
  monitorInterval w2 = Some (next_timer w) ∧
  handles_below w2 ∧
  raised w w2 = [(INFO, lit "System monitoring started");
                 (INFO, lit "System monitoring stopped")].
Proof.
  intros Hreturn Hbelow Hidle w1 w2.
  destruct (startMonitoring_idle interval w Hidle) as (out & r & Hdel & Hstart).
  assert (r = Returned tt) as -> by (by eapply delivery_returns).
  assert (timers w !! next_timer w = None) as Hfresh.
  { destruct (timers w !! next_timer w) eqn:Hlookup; [|done].
    pose proof (Hbelow (next_timer w) (mk_is_Some _ _ Hlookup)). lia. }
  unfold w2, w1. rewrite Hstart. cbn [fst].
  match goal with
  | |- context [stopMonitoring ?running] => set (w1' := running)
  end.
  destruct (stopMonitoring_running_returns w1' Hreturn eq_refl)
    as (out' & Hstop).
  rewrite Hstop. cbn [fst snd].
  split_and!; try reflexivity.
  - cbn. by apply delete_insert_id.
  - intros h Hh. cbn in Hh |- *.
    rewrite delete_insert_id in Hh by done.
    pose proof (Hbelow h Hh). lia.
  - rewrite (raised_logged w
               [entry_of (set_monitoring true w)
                  (lit "System monitoring started") (Some INFO);
                entry_of
                  (set_monitoring false
                     (set_timers (delete (next_timer w) (timers w1'))
                        (next_timer w1') w1'))
                  (lit "System monitoring stopped") (Some INFO)]);
      [reflexivity|]. cbn. by rewrite <- app_assoc.
Qed.

Lemma start_then_stop_witness :
  let w := initial_world None noon in
  let w2 := (stopMonitoring (startMonitoring (Some 3000) w).1).1 in
  monitoring w2 = false ∧ timers w2 = ∅ ∧
  raised w w2 = [(INFO, lit "System monitoring started");
                 (INFO, lit "System monitoring stopped")].
Proof.
  intros w w2.
  destruct (start_then_stop (Some 3000) w
              (initial_world_listeners_return None noon))
    as (_ & Hidle & Htimers & _ & _ & Hraised).
  - intros h [x Hx]. cbn in Hx. by rewrite lookup_empty in Hx.
  - reflexivity.
  - split_and!; [exact Hidle|exact Htimers|exact Hraised].
Defined.

(** ** The console *)

Lemma perform_mirrored (c : call) (w : world) :
  listeners w = [console_mirror] →
  perform c w =
    (logged {| timestamp := clock w (clock_reads w); type := level_of c;
               message := message_of c |}
       (console w ++ [mirror_line c]) w,
     Returned tt).
Proof.
  intros Hlisteners.
  destruct c as [message [type|]|message|message|message];
    unfold perform, info, warn, error, log, toISOString_now, appendFileSync,
      emit, modify, gets, mbind, M_bind;
    cbn; rewrite Hlisteners; reflexivity.
Qed.

Lemma console_mirrors_calls_core (calls : list call) (w : world) :
  listeners w = [console_mirror] →
  console (perform_all calls w) = console w ++ (mirror_line <$> calls).
Proof.
  revert w. induction calls as [|c calls IH]; intros w Hlisteners; simpl.
  - by rewrite app_nil_r.
  - rewrite (perform_mirrored c w Hlisteners). cbn [fst].
    rewrite IH by done. cbn. by rewrite <- app_assoc.
Qed.

(** X10: when the console listener of the program is the only listener,
    every call of the logger returns and prints one line on the console,
    the level in brackets and the message: after any calls the console
    holds, after what it held, one such line per call, in the order of the
    calls. *)
Theorem console_mirrors_calls (calls : list call) (w : world) :
  listeners w = [console_mirror] →
  console (perform_all calls w) = console w ++ (mirror_line <$> calls) ∧
  Forall (λ c, ∀ w1, listeners w1 = [console_mirror] →
                     (perform c w1).2 = Returned tt) calls.
Proof.
  intros Hlisteners. split.
  - by apply console_mirrors_calls_core.
  - apply Forall_forall. intros c _ w1 Hw1.
    by rewrite (perform_mirrored c w1 Hw1).
Qed.

Lemma console_mirrors_calls_witness :
  console (perform_all sample_calls (initial_world None noon))
  = mirror_line <$> sample_calls.
Proof.
  apply (console_mirrors_calls sample_calls (initial_world None noon)).
  reflexivity.
Defined.

(** ** Reports of what was logged *)

Lemma split_app_separator (x rest : jsstring) (sep : N) :
  split (x ++ sep :: rest) sep = split x sep ++ split rest sep.
Proof.
  induction x as [|c x IH]; simpl.
  - by rewrite N.eqb_refl.
  - destruct (N.eqb c sep); [by rewrite IH|].
    rewrite IH. pose proof (split_not_nil x sep).
    by destruct (split x sep).
Qed.

Lemma line_count_app_LF (x rest : jsstring) :
  line_count (x ++ LF :: rest) = (line_count x + line_count rest)%nat.
Proof.
  unfold line_count. by rewrite split_app_separator, filter_app, length_app.
Qed.

Lemma line_count_cons (c : N) (s : jsstring) :
  (line_count s ≤ line_count (c :: s))%nat.
Proof.
  unfold line_count. simpl.
  pose proof (split_not_nil s LF).
  destruct (N.eqb c LF).
  - rewrite filter_cons. case_decide; simpl; lia.
  - destruct (split s LF) as [|piece pieces]; [done|].
    rewrite !filter_cons.
    destruct (decide (¬ blank piece)) as [Hpiece|Hpiece].
    + rewrite decide_True; [done|].
      intros Hblank. apply Hpiece. unfold blank in *.
      by apply Forall_cons in Hblank as [_ ?].
    + case_decide; simpl; lia.
Qed.

(** A text has at least one line that is not blank as soon as it is not
    all white space. *)
Lemma line_count_not_blank (s : jsstring) :
  ¬ blank s → (1 ≤ line_count s)%nat.
Proof.
  induction s as [|c s IH]; intros Hs.
  - destruct Hs. constructor.
  - destruct (is_white_space c) eqn:Hc.
    + etransitivity; [|apply line_count_cons]. apply IH.
      intros Hblank. apply Hs. by constructor.
    + unfold line_count. simpl.
      destruct (N.eqb_spec c LF) as [->|_]; [done|].
      pose proof (split_not_nil s LF).
      destruct (split s LF) as [|piece pieces]; [done|].
      rewrite filter_cons, decide_True; [simpl; lia|].
      intros Hblank. unfold blank in Hblank.
      apply Forall_cons in Hblank as [? _]. congruence.
Qed.

Lemma line_count_entries (lines : list jsstring) :
  Forall (λ line, ¬ blank line) lines →
  (length lines ≤ line_count (concat ((λ line, line ++ [LF]) <$> lines)))%nat.
Proof.
  induction 1 as [|line lines Hline _ IH]; [simpl; lia|].
  rewrite fmap_cons. cbn [concat]. rewrite <- app_assoc. cbn [app].
  rewrite line_count_app_LF. pose proof (line_count_not_blank line Hline).
  simpl. lia.
Qed.

Lemma line_count_app (s t : jsstring) :
  (line_count t ≤ line_count (s ++ t))%nat.
Proof.
  induction s as [|c s IH]; [done|].
  etransitivity; [exact IH|]. apply line_count_cons.
Qed.

Lemma log_line_not_blank (stamp : jsstring) (c : call) :
  ¬ blank (log_line stamp c).
Proof.
  unfold log_line, blank. rewrite Forall_app. intros [_ Hrest].
  simpl in Hrest. apply Forall_cons in Hrest as [_ Hrest].
  apply Forall_cons in Hrest as [Hbracket _]. done.
Qed.

Lemma expected_lines_not_blank (clock : nat → jsstring) (k : nat)
    (calls : list call) :
  Forall (λ line, ¬ blank line) (expected_lines clock k calls).
Proof.
  revert k. induction calls as [|c calls IH]; intros k; simpl; constructor;
    [apply log_line_not_blank|apply IH].
Qed.

Lemma perform_all_file_exists (calls : list call) (w : world) :
  calls ≠ [] ∨ is_Some (log_file w) → is_Some (log_file (perform_all calls w)).
Proof.
  revert w. induction calls as [|c calls IH]; intros w Hsome; simpl.
  - by destruct Hsome.
  - destruct (perform_logged c w) as [out ->]. apply IH. right. by eexists.
Qed.

(** What [generateReport] returns for a log file with two or more lines
    that are not blank. *)
Lemma generateReport_two_lines (w : world) (content : jsstring) :
  log_file w = Some content → (2 ≤ line_count content)%nat →
  ∃ errors warnings startTime endTime,
    generateReport w =
      (w, Returned (report_text (line_count content) errors warnings
                      startTime endTime)).
Proof.
  intros Hfile Hcount.
  rewrite (generateReport_present w content Hfile), filter_truthy_trim.
  unfold line_count in *.
  destruct (filter _ (split content LF)) as [|first rest] eqn:Hlines;
    [simpl in Hcount; lia|].
  rewrite index_before_last.
  destruct (reverse (first :: rest) !! 1%nat) as [before_last|] eqn:Hrev.
  - by eexists _, _, _, _.
  - apply lookup_ge_None in Hrev. rewrite length_reverse in Hrev. lia.
Qed.

(** X14: after two or more calls of the logger, whatever the file held
    before, whatever the messages, and whether the listeners, which write
    to the console only, return or throw, [generateReport] returns a report
    block, never the no-data text and never an exception; its total is the
    number of lines of the file that are not blank, at least the number of
    calls. *)
Theorem generateReport_after_calls (calls : list call) (w : world) :
  (2 ≤ length calls)%nat →
  let w' := perform_all calls w in
  ∃ content errors warnings startTime endTime,
    log_file w' = Some content ∧
    (length calls ≤ line_count content)%nat ∧
    generateReport w' =
      (w', Returned (report_text (line_count content) errors warnings
                       startTime endTime)).
Proof.
  intros Hcalls w'.
  destruct (perform_all_file_exists calls w) as [content Hfile].
  { left. intros ->. simpl in Hcalls. lia. }
  pose proof (perform_all_log_file calls w) as Hcontent.
  fold w' in Hfile, Hcontent. rewrite Hfile in Hcontent. simpl in Hcontent.
  assert (length calls ≤ line_count content)%nat as Hcount.
  { rewrite Hcontent. etransitivity; [|apply line_count_app].
    etransitivity; [|apply line_count_entries, expected_lines_not_blank].
    by rewrite expected_lines_length. }
  destruct (generateReport_two_lines w' content Hfile)
    as (errors & warnings & startTime & endTime & Hreport); [lia|].
  by exists content, errors, warnings, startTime, endTime.
Qed.

Lemma generateReport_after_calls_witness :
  let w' := perform_all [multiline_call; multiline_call]
              (initial_world (Some one_entry_log) noon) in
  ∃ content errors warnings startTime endTime,
    log_file w' = Some content ∧
    (length [multiline_call; multiline_call] ≤ line_count content)%nat ∧
    generateReport w' =
      (w', Returned (report_text (line_count content) errors warnings
                       startTime endTime)).
Proof.
  apply (generateReport_after_calls [multiline_call; multiline_call]
           (initial_world (Some one_entry_log) noon)).
  simpl. lia.
Defined.

Lemma expected_lines_lookup (clock : nat → jsstring) (k i : nat)
    (calls : list call) :
  expected_lines clock k calls !! i
  = log_line (clock (k + i)%nat) <$> calls !! i.
Proof.
  revert k i. induction calls as [|c calls IH]; intros k [|i]; simpl;
    try done.
  - by rewrite Nat.add_0_r.
  - rewrite IH. by replace (S k + i)%nat with (k + S i)%nat by lia.
Qed.

Lemma expected_lines_without_LF (clock : nat → jsstring) (k : nat)
    (calls : list call) :
  (∀ i, LF ∉ clock i) →
  Forall (λ c, (LF ∉ level_of c) ∧ (LF ∉ message_of c)) calls →
  Forall (λ line : jsstring, LF ∉ line) (expected_lines clock k calls).
Proof.
  intros Hclock Hcalls. revert k.
  induction Hcalls as [|c calls [Hlevel Hmessage] _ IH]; intros k; simpl;
    constructor; [|apply IH].
  unfold log_line. rewrite !not_elem_of_app.
  repeat split; try done; try apply Hclock; by_computation.
Qed.

Lemma filter_all_not_blank (lines : list jsstring) :
  Forall (λ line, ¬ blank line) lines →
  filter (λ line, ¬ blank line) lines = lines.
Proof.
  induction 1 as [|line lines Hline _ IH]; [done|].
  by rewrite filter_cons, decide_True, IH.
Qed.

Lemma log_line_first_token (stamp : jsstring) (c : call) :
  SPACE ∉ stamp → index (split (log_line stamp c) SPACE) 0 = Some stamp.
Proof.
  intros Hstamp. unfold log_line.
  change (lit " [" ++ level_of c ++ lit "] " ++ message_of c)
    with (SPACE :: (lit "[" ++ level_of c ++ lit "] " ++ message_of c)).
  by rewrite split_app_sep.
Qed.

(** The report of a log file made of the lines of calls whose levels and
    messages hold no line feed, written under a clock whose readings hold
    neither line feed nor space. *)
Lemma generateReport_expected_lines (w : world) (clock : nat → jsstring)
    (k : nat) (calls : list call) :
  log_file w
    = Some (concat ((λ line, line ++ [LF]) <$> expected_lines clock k calls)) →
  (∀ i, (LF ∉ clock i) ∧ (SPACE ∉ clock i)) →
  Forall (λ c, (LF ∉ level_of c) ∧ (LF ∉ message_of c)) calls →
  (2 ≤ length calls)%nat →
  ∃ errors warnings,
    counts (λ line, contains line (lit "[ERROR]"))
      (expected_lines clock k calls) errors ∧
    counts (λ line, contains line (lit "[WARN]"))
      (expected_lines clock k calls) warnings ∧
    generateReport w =
      (w, Returned (report_text (length calls) errors warnings
                      (Some (clock k))
                      (Some (clock (k + (length calls - 2))%nat)))).
Proof.
  intros Hfile Hclock Hcalls Hlength.
  set (lines := expected_lines clock k calls) in *.
  assert (length lines = length calls) as Hlines
    by apply expected_lines_length.
  assert (List.filter (λ line, truthy (trim line))
            (split (concat ((λ line, line ++ [LF]) <$> lines)) LF) = lines)
    as Hsplit.
  { rewrite <- join_terminated, split_join.
    - rewrite filter_truthy_trim, filter_app, filter_all_not_blank
        by apply expected_lines_not_blank.
      rewrite filter_cons, decide_False; [by rewrite app_nil_r|].
      intros Hnot. apply Hnot. constructor.
    - by destruct lines.
    - apply Forall_app. split.
      + apply expected_lines_without_LF; [apply Hclock|done].
      + constructor; [apply not_elem_of_nil|constructor]. }
  rewrite (generateReport_present w _ Hfile), Hsplit.
  assert (∃ c0, calls !! 0%nat = Some c0) as [c0 Hc0].
  { apply lookup_lt_is_Some. lia. }
  assert (lines !! 0%nat = Some (log_line (clock k) c0)) as Hfirst.
  { unfold lines. by rewrite expected_lines_lookup, Hc0, Nat.add_0_r. }
  destruct lines as [|first rest] eqn:Hl; [done|].
  injection Hfirst as ->. rewrite <- Hl in *.
  assert (∃ c', calls !! (length calls - 2)%nat = Some c') as [c' Hc'].
  { apply lookup_lt_is_Some. lia. }
  assert (index lines (Z.of_nat (length lines) - 2)
          = Some (log_line (clock (k + (length calls - 2))%nat) c'))
    as Hindex.
  { unfold index. destruct (Z.ltb_spec (Z.of_nat (length lines) - 2) 0); [lia|].
    replace (Z.to_nat (Z.of_nat (length lines) - 2))
      with (length calls - 2)%nat by lia.
    unfold lines. by rewrite expected_lines_lookup, Hc'. }
  rewrite Hindex, !log_line_first_token by apply Hclock.
  rewrite Hlines.
  eexists _, _. split_and!; [| |reflexivity].
  - apply counts_filter. intros line. apply includes_contains.
  - apply counts_filter. intros line. apply includes_contains.
Qed.

(** The lines of the calls at a level hold the tag of the level. *)
Lemma counts_level_lines (level : jsstring) (clock : nat → jsstring)
    (k : nat) (calls : list call) (m n : nat) :
  counts (λ c, level_of c = level) calls m →
  counts (λ line, contains line (lit "[" ++ level ++ lit "]"))
    (expected_lines clock k calls) n →
  (m ≤ n)%nat.
Proof.
  revert k m n. induction calls as [|c calls IH]; intros k m n Hm Hn.
  - inversion Hm. lia.
  - simpl in Hn.
    assert (level_of c = level →
            contains (log_line (clock k) c) (lit "[" ++ level ++ lit "]"))
      as Htag.
    { intros <-. exists (clock k ++ [SPACE]), (SPACE :: message_of c).
      unfold log_line. simpl. by rewrite <- !app_assoc. }
    inversion Hm as [|? ? m' Hc Hm'|? ? m' Hc Hm']; subst;
      inversion Hn as [|? ? n' Hl Hn'|? ? n' Hl Hn']; subst.
    + apply le_n_S. by eapply IH.
    + destruct Hl. by apply Htag.
    + apply le_S. by eapply IH.
    + by eapply IH.
Qed.

Lemma iso_timestamp_without_space (s : jsstring) :
  is_iso_timestamp s = true → SPACE ∉ s.
Proof.
  intros Hshape%has_shape_chars Hin.
  rewrite Forall_forall in Hshape. destruct (Hshape SPACE Hin) as [Hd|Hp].
  - done.
  - revert Hp. by_computation.
Qed.

(** X15: on a log file written from nothing by two or more calls whose
    levels and messages hold no line feed, under a clock that yields
    ISO-8601 timestamps, [generateReport] returns the report with the number
    of calls as total, the timestamp of the first call as start time and
    the timestamp of the call before the last one as end time; its error
    and warning counts are the numbers of written lines that contain
    ["[ERROR]"] and ["[WARN]"], which are at least the numbers of calls at
    the levels ERROR and WARN. *)
Theorem generateReport_of_calls (calls : list call) (w : world) :
  log_file w = None ∨ log_file w = Some [] →
  (∀ i, is_iso_timestamp (clock w i) = true) →
  Forall (λ c, (LF ∉ level_of c) ∧ (LF ∉ message_of c)) calls →
  (2 ≤ length calls)%nat →
  let w' := perform_all calls w in
  let lines := expected_lines (clock w) (clock_reads w) calls in
  ∃ errors warnings,
    generateReport w' =
      (w', Returned (report_text (length calls) errors warnings
                       (Some (clock w (clock_reads w)))
                       (Some (clock w (clock_reads w
                                       + (length calls - 2))%nat)))) ∧
    counts (λ line, contains line (lit "[ERROR]")) lines errors ∧
    counts (λ line, contains line (lit "[WARN]")) lines warnings ∧
    (∀ m, counts (λ c, level_of c = ERROR) calls m → (m ≤ errors)%nat) ∧
    (∀ m, counts (λ c, level_of c = WARN) calls m → (m ≤ warnings)%nat).
Proof.
  intros Hempty Hclock Hcalls Hlength w' lines.
  assert (log_file w' = Some (concat ((λ line, line ++ [LF]) <$> lines)))
    as Hfile.
  { destruct (perform_all_file_exists calls w) as [content Hcontent].
    { left. intros ->. simpl in Hlength. lia. }
    pose proof (perform_all_log_file calls w) as Hall.
    fold w' in Hcontent, Hall. rewrite Hcontent in Hall |- *. simpl in Hall.
    rewrite Hall. by destruct Hempty as [->| ->]. }
  destruct (generateReport_expected_lines w' (clock w) (clock_reads w) calls
              Hfile) as (errors & warnings & Herrors & Hwarnings & Hreport);
    try done.
  { intros i. split; [by apply iso_timestamp_without_LF
                     |by apply iso_timestamp_without_space]. }
  exists errors, warnings. split_and!; try done.
  - intros m Hm. by eapply (counts_level_lines ERROR).
  - intros m Hm. by eapply (counts_level_lines WARN).
Qed.

Lemma generateReport_of_calls_witness :
  let w := initial_world None noon in
  let w' := perform_all sample_calls w in
  let lines := expected_lines (clock w) (clock_reads w) sample_calls in
  ∃ errors warnings,
    generateReport w' =
      (w', Returned (report_text (length sample_calls) errors warnings
                       (Some (clock w (clock_reads w)))
                       (Some (clock w (clock_reads w
                                       + (length sample_calls - 2))%nat)))) ∧
    counts (λ line, contains line (lit "[ERROR]")) lines errors ∧
    counts (λ line, contains line (lit "[WARN]")) lines warnings ∧
    (∀ m, counts (λ c, level_of c = ERROR) sample_calls m → (m ≤ errors)%nat) ∧
    (∀ m, counts (λ c, level_of c = WARN) sample_calls m → (m ≤ warnings)%nat).
Proof.
  apply (generateReport_of_calls sample_calls (initial_world None noon)).
  - left. reflexivity.
  - intros i. reflexivity.
  - repeat constructor; by_computation.
  - simpl. lia.
Defined.

(** ** The program *)

(** The module, once loaded, has made the calls of [startup_calls] and
    armed one timer. *)
Lemma startup_world (file : option jsstring) (clock : nat → jsstring)
    (version : jsstring) (pid : N) :
  let w := initial_world file clock in
  let logged4 := perform_all (startup_calls version pid) w in
  startup version pid w =
    (set_monitorInterval (Some 0%nat)
       (set_timers {[ 0%nat := 3000 ]} 1 (set_monitoring true logged4)),
     Returned tt).
Proof.
  intros w logged4. unfold logged4, startup_calls, perform_all.
  rewrite !perform_mirrored by reflexivity. cbn [fst].
  unfold startup, startMonitoring, info, log, toISOString_now, appendFileSync,
    emit, setInterval, modify, gets, mbind, M_bind.
  reflexivity.
Qed.

(** X16: loading the module on any log file logs four INFO entries, first
    ["System monitoring started"] and then the initialization marker, the
    version and the process identifier, mirrors them on the console in
    this order, and leaves the monitor running with one timer of 3000
    milliseconds armed. *)
Theorem startup_entries (file : option jsstring) (clock : nat → jsstring)
    (version : jsstring) (pid : N) :
  let w := initial_world file clock in
  let w' := (startup version pid w).1 in
  (startup version pid w).2 = Returned tt ∧
  raised w w' = [(INFO, lit "System monitoring started");
                 (INFO, lit "System Monitor Backend Initialized");
                 (INFO, lit "Node.js Version: " ++ version);
                 (INFO, lit "Process ID: " ++ show_N pid)] ∧
  console w' = [lit "[INFO] System monitoring started";
                lit "[INFO] System Monitor Backend Initialized";
                lit "[INFO] Node.js Version: " ++ version;
                lit "[INFO] Process ID: " ++ show_N pid] ∧
  monitoring w' = true ∧ monitorInterval w' = Some 0%nat ∧
  timers w' = {[ 0%nat := 3000 ]} ∧
  from_option id [] (log_file w')
  = from_option id [] file
    ++ concat ((λ line, line ++ [LF])
                 <$> expected_lines clock 0 (startup_calls version pid)).
Proof.
  intros w w'.
  pose proof (startup_world file clock version pid) as Hstart.
  cbv zeta in Hstart. fold w in Hstart. unfold w'. rewrite Hstart.
  cbn [fst snd].
  assert (∀ x,
            let armed :=
              set_monitorInterval (Some 0%nat)
                (set_timers {[ 0%nat := 3000 ]} 1 (set_monitoring true x)) in
            raised w armed = raised w x ∧ console armed = console x ∧
            log_file armed = log_file x) as Harmed
    by (intros x; split_and!; reflexivity).
  destruct (Harmed (perform_all (startup_calls version pid) w))
    as (-> & -> & ->).
  split_and!.
  - reflexivity.
  - rewrite raised_perform_all. reflexivity.
  - rewrite console_mirrors_calls_core by reflexivity. reflexivity.
  - reflexivity.
  - reflexivity.
  - reflexivity.
  - exact (perform_all_log_file (startup_calls version pid) w).
Qed.

(** ** Printed numbers hold no line feed *)

Lemma uint_chars_digits (d : Decimal.uint) :
  Forall (λ c, is_digit c = true) (uint_chars d).
Proof. induction d; simpl; by constructor. Qed.

Lemma show_N_without_LF (n : N) : LF ∉ show_N n.
Proof.
  intros Hin. pose proof (uint_chars_digits (N.to_uint n)) as Hdigits.
  rewrite Forall_forall in Hdigits. by apply Hdigits in Hin.
Qed.

Lemma digit_not_LF (d : Z) : digit d ≠ LF.
Proof. unfold digit, LF. lia. Qed.

Lemma show_fixed2_without_LF (x : fixed2) : LF ∉ show_fixed2 x.
Proof.
  destruct x as [h| |[|]]; try by_computation.
  unfold show_fixed2. rewrite !not_elem_of_app. split_and!.
  - destruct (h <? 0); [by_computation|apply not_elem_of_nil].
  - apply show_N_without_LF.
  - destruct (Z.abs h mod 100 =? 0); [apply not_elem_of_nil|].
    simpl. rewrite !not_elem_of_cons. split_and!; [done| |].
    + intros Heq. by apply (digit_not_LF (Z.abs h mod 100 / 10)).
    + destruct (Z.abs h mod 100 mod 10 =? 0); [apply not_elem_of_nil|].
      rewrite not_elem_of_cons. split; [|apply not_elem_of_nil].
      intros Heq. by apply (digit_not_LF (Z.abs h mod 100 mod 10)).
Qed.

Lemma formatBytes_without_LF (bytes : Z) : LF ∉ formatBytes bytes.
Proof.
  unfold formatBytes. destruct (bytes =? 0); [by_computation|].
  destruct (floor_log_1024 bytes) as [i|].
  - rewrite !not_elem_of_app. split_and!.
    + apply show_fixed2_without_LF.
    + by_computation.
    + unfold index. destruct (i <? 0); [by_computation|].
      destruct (sizes !! Z.to_nat i) as [unit|] eqn:Hunit; [|by_computation].
      apply list_elem_of_lookup_2 in Hunit. simpl.
      revert unit Hunit. apply Forall_forall.
      repeat constructor; by_computation.
  - by_computation.
Qed.

(** A piece of a message holds no line feed: a literal, by evaluation; a
    printed number, a printed byte count or a text of the environment, by
    the fact about it. *)
Ltac plain_piece :=
  first
    [ assumption
    | match goal with
      | |- _ ∉ lit _ => by_computation
      | |- _ ∉ show_fixed2 _ => apply show_fixed2_without_LF
      | |- _ ∉ show_N _ => apply show_N_without_LF
      | |- _ ∉ show_nat _ => apply show_N_without_LF
      | |- _ ∉ formatBytes _ => apply formatBytes_without_LF
      | |- _ ∉ usedFormatted _ => apply formatBytes_without_LF
      | |- _ ∉ totalFormatted _ => apply formatBytes_without_LF
      | |- _ ∉ memoryUsedFormatted _ => apply formatBytes_without_LF
      end ].

Lemma alert_calls_without_LF (memory : MemoryInfo) (cpu : CPUInfo) :
  Forall (λ c, (LF ∉ level_of c) ∧ (LF ∉ message_of c))
    (alert_calls memory cpu).
Proof.
  assert (∀ subject p, LF ∉ subject → LF ∉ critical subject p) as Hcritical.
  { intros subject p Hsubject. unfold critical. rewrite !not_elem_of_app.
    split_and!; [by_computation|by_computation|done|by_computation
                |apply show_fixed2_without_LF|by_computation]. }
  assert (∀ subject p, LF ∉ subject → LF ∉ warning subject p) as Hwarning.
  { intros subject p Hsubject. unfold warning. rewrite !not_elem_of_app.
    split_and!; [by_computation|by_computation|done|by_computation
                |apply show_fixed2_without_LF|by_computation]. }
  assert (∀ subject p,
            LF ∉ subject →
            (LF ∉ level_of (Error (critical subject p))) ∧
            (LF ∉ message_of (Error (critical subject p)))) as Herror.
  { intros subject p Hsubject. split; [by_computation|by apply Hcritical]. }
  assert (∀ subject p,
            LF ∉ subject →
            (LF ∉ level_of (Warn (warning subject p))) ∧
            (LF ∉ message_of (Warn (warning subject p)))) as Hwarn.
  { intros subject p Hsubject. split; [by_computation|by apply Hwarning]. }
  assert (LF ∉ lit "Memory") as Hmemory by by_computation.
  assert (LF ∉ lit "CPU") as Hcpu by by_computation.
  unfold alert_calls. apply Forall_app. split.
  - destruct (gt_int (usedPercent memory) 85);
      [|destruct (gt_int (usedPercent memory) 70)].
    + constructor; [by apply Herror|constructor].
    + constructor; [by apply Hwarn|constructor].
    + constructor.
  - destruct (gt_int (usagePercent cpu) 80);
      [|destruct (gt_int (usagePercent cpu) 60)].
    + constructor; [by apply Herror|constructor].
    + constructor; [by apply Hwarn|constructor].
    + constructor.
Qed.

(** X12: when no listener throws, the user can be read, the readings are
    in range, and neither the readings of the clock nor the host name, the
    platform, the architecture and the model name of the first core hold a
    line feed, a tick appends six to eight lines to the log file, one per
    entry, in the order of the entries and each followed by a line feed;
    none of them is blank or broken in two. *)
Theorem collectSystemMetrics_lines (startTime : Z) (os : os_readings)
    (w : world) :
  listeners_return w →
  (∀ e, os_userInfo os ≠ UserInfoThrows e) →
  readings_in_range startTime os →
  (∀ i, LF ∉ clock w i) →
  (LF ∉ os_hostname os) ∧ (LF ∉ os_platform os) ∧ (LF ∉ os_arch os) →
  (∀ cpu, os_cpus os !! 0%nat = Some cpu → LF ∉ core_model cpu) →
  let memory := getMemoryInfo (os_totalmem os) (os_freemem os) in
  let cpu := getCPUInfo (os_cpus os) (os_loadavg os) (os_cpus_again os) in
  let calls := metric_calls_before_system startTime os
               ++ metric_calls_from_system os ++ alert_calls memory cpu in
  let lines := expected_lines (clock w) (clock_reads w) calls in
  let w' := (collectSystemMetrics startTime os w).1 in
  from_option id [] (log_file w')
  = from_option id [] (log_file w)
    ++ concat ((λ line, line ++ [LF]) <$> lines) ∧
  (6 ≤ length lines ≤ 8)%nat ∧
  Forall (λ line : jsstring, (LF ∉ line) ∧ ¬ blank line) lines.
Proof.
  intros Hreturn Huser _ Hclock (Hhost & Hplatform & Harch) Hmodel
    memory cpu calls lines w'.
  assert (collectSystemMetrics startTime os w
          = (perform_all calls w, Returned tt)) as Htick.
  { rewrite collectSystemMetrics_perform by done.
    destruct (os_userInfo os) as [|user|e]; try done. by destruct (Huser e). }
  assert (length calls = (6 + length (alert_calls memory cpu))%nat) as Hlength.
  { unfold calls. rewrite !length_app.
    change (length (metric_calls_before_system startTime os)) with 4%nat.
    change (length (metric_calls_from_system os)) with 2%nat. lia. }
  pose proof (alert_calls_length memory cpu) as Halerts.
  unfold w'. rewrite Htick. cbn [fst].
  split; [apply perform_all_log_file|].
  split; [unfold lines; rewrite expected_lines_length; lia|].
  assert (LF ∉ model cpu) as Hcpu_model.
  { unfold cpu, getCPUInfo. cbn [model].
    destruct (os_cpus os !! 0%nat) as [first|] eqn:Hfirst; [|by_computation].
    destruct (truthy (core_model first)); [by apply Hmodel|by_computation]. }
  assert (LF ∉ INFO) as HINFO by by_computation.
  assert (Forall (λ c, (LF ∉ level_of c) ∧ (LF ∉ message_of c)) calls)
    as Hcalls.
  { unfold calls. rewrite !Forall_app. split_and!.
    - unfold metric_calls_before_system.
      repeat first [apply Forall_nil
                   |apply Forall_cons; split; [split; [exact HINFO|]|]];
        try exact I;
        cbn [message_of]; rewrite !not_elem_of_app; split_and!; plain_piece.
    - unfold metric_calls_from_system.
      repeat first [apply Forall_nil
                   |apply Forall_cons; split; [split; [exact HINFO|]|]];
        try exact I;
        cbn [message_of]; rewrite !not_elem_of_app; split_and!; plain_piece.
    - apply alert_calls_without_LF. }
  pose proof (expected_lines_without_LF (clock w) (clock_reads w) calls
                Hclock Hcalls) as Hplain.
  pose proof (expected_lines_not_blank (clock w) (clock_reads w) calls)
    as Hnot_blank.
  fold lines in Hplain, Hnot_blank.
  rewrite Forall_forall in Hplain, Hnot_blank. apply Forall_forall.
  intros line Hline. split; [by apply Hplain|by apply Hnot_blank].
Qed.

Lemma collectSystemMetrics_lines_witness :
  let w := initial_world None noon in
  let w' := (collectSystemMetrics 0 sample_readings w).1 in
  line_count (from_option id [] (log_file w')) = 8%nat.
Proof.
  intros w w'.
  destruct (collectSystemMetrics_lines 0 sample_readings w
              (initial_world_listeners_return None noon))
    as (Hfile & _ & _).
  - intros e. discriminate.
  - exact sample_readings_in_range.
  - intros i. by_computation.
  - split_and!; by_computation.
  - intros cpu [= <-]. by_computation.
  - unfold w'. cbv zeta in Hfile. rewrite Hfile. by vm_compute.
Defined.

(** ** Shutting down *)

(** The handler of [SIGINT] when the monitor stops normally and the report
    is generated. *)
Lemma on_SIGINT_returns (p : process) (w2 : world) (report : jsstring) :
  stopMonitoring
    (console_log (LF :: lit "Shutting down monitor...") (env p)).1
  = (w2, Returned tt) →
  generateReport w2 = (w2, Returned report) →
  on_SIGINT p =
    ({| env := set_console
                 (console w2 ++ [lit "Report saved to monitor-report.txt"]) w2;
        report_file := Some report;
        exit_code := Some 0 |},
     Returned tt).
Proof.
  intros Hstop Hreport.
  unfold on_SIGINT, mbind, M_bind.
  change (console_log (LF :: lit "Shutting down monitor...") (env p))
    with ((console_log (LF :: lit "Shutting down monitor...") (env p)).1,
          @Returned unit tt).
  cbn beta iota. rewrite Hstop. cbn beta iota. rewrite Hreport. reflexivity.
Qed.

Lemma line_count_nil : line_count [] = 0%nat.
Proof. reflexivity. Qed.

(** What stopping a running monitor does to the log file. *)
Lemma stopMonitoring_file (w : world) :
  listeners_return w →
  monitoring w = true →
  ∃ w2,
    stopMonitoring w = (w2, Returned tt) ∧
    monitoring w2 = false ∧
    log_file w2
      = Some (from_option id [] (log_file w)
              ++ log_line (clock w (clock_reads w))
                   (Info (lit "System monitoring stopped")) ++ [LF]).
Proof.
  intros Hreturn Hrunning.
  destruct (stopMonitoring_running_returns w Hreturn Hrunning) as (out & Hstop).
  eexists. split; [exact Hstop|]. split; [reflexivity|].
  destruct (monitorInterval w); cbn; unfold line_of, log_line; cbn;
    repeat (rewrite <- app_assoc; cbn [app]); reflexivity.
Qed.

(** X17: when no listener throws, the monitor is running and the log file
    ends with a line feed and has a line that is not blank, as it does once
    an entry has been logged, the handler of [SIGINT] returns: the monitor
    is idle, the report file holds a report block whose total counts the
    lines the file had and at least one more, for the stop entry, and the
    process exits with status 0. *)
Theorem on_SIGINT_running (p : process) (body : jsstring) :
  listeners_return (env p) →
  monitoring (env p) = true →
  log_file (env p) = Some (body ++ [LF]) →
  (1 ≤ line_count (body ++ [LF]))%nat →
  let p' := (on_SIGINT p).1 in
  (on_SIGINT p).2 = Returned tt ∧
  exit_code p' = Some 0 ∧
  monitoring (env p') = false ∧
  ∃ total errors warnings startTime endTime,
    report_file p'
      = Some (report_text total errors warnings startTime endTime) ∧
    (line_count (body ++ [LF]) + 1 ≤ total)%nat.
Proof.
  intros Hreturn Hrunning Hfile Hcount p'.
  set (w1 := (console_log (LF :: lit "Shutting down monitor...") (env p)).1).
  destruct (stopMonitoring_file w1 Hreturn Hrunning)
    as (w2 & Hstop & Hidle & Hfile2).
  change (log_file w1) with (log_file (env p)) in Hfile2.
  change (clock w1 (clock_reads w1))
    with (clock (env p) (clock_reads (env p))) in Hfile2.
  rewrite Hfile in Hfile2. cbn [from_option id] in Hfile2.
  set (line := log_line (clock (env p) (clock_reads (env p)))
                 (Info (lit "System monitoring stopped"))) in *.
  rewrite <- app_assoc in Hfile2. cbn [app] in Hfile2.
  assert (line_count (body ++ LF :: (line ++ [LF]))
          = (line_count (body ++ [LF]) + line_count line)%nat) as Htotal.
  { rewrite !line_count_app_LF, line_count_nil. lia. }
  pose proof (line_count_not_blank line (log_line_not_blank _ _)) as Hline.
  destruct (generateReport_two_lines w2 _ Hfile2)
    as (errors & warnings & startTime & endTime & Hreport); [lia|].
  unfold p'. rewrite (on_SIGINT_returns p w2 _ Hstop Hreport). cbn [fst snd].
  split_and!; [reflexivity|reflexivity|exact Hidle|].
  eexists _, _, _, _, _. split; [reflexivity|]. lia.
Qed.

Lemma listeners_return_mirror (w : world) :
  listeners w = [console_mirror] → listeners_return w.
Proof.
  intros Hlisteners l Hl entry file out. rewrite Hlisteners in Hl.
  by apply list_elem_of_singleton in Hl as ->.
Qed.

Lemma on_SIGINT_running_witness :
  let p' := (on_SIGINT sample_process).1 in
  (on_SIGINT sample_process).2 = Returned tt ∧
  exit_code p' = Some 0 ∧
  monitoring (env p') = false ∧
  ∃ total errors warnings startTime endTime,
    report_file p'
      = Some (report_text total errors warnings startTime endTime) ∧
    (line_count (sample_startup_body ++ [LF]) + 1 ≤ total)%nat.
Proof.
  apply (on_SIGINT_running sample_process sample_startup_body).
  - apply listeners_return_mirror. by vm_compute.
  - by vm_compute.
  - by vm_compute.
  - vm_compute. lia.
Defined.

Lemma stopMonitoring_mirrored (w : world) :
  listeners w = [console_mirror] →
  monitoring w = true →
  let disarmed :=
    set_monitoring false
      (from_option (λ h, set_timers (delete h (timers w)) (next_timer w) w)
         w (monitorInterval w)) in
  stopMonitoring w =
    (logged (entry_of disarmed (lit "System monitoring stopped") (Some INFO))
       (console w ++ [lit "[INFO] System monitoring stopped"]) disarmed,
     Returned tt).
Proof.
  intros Hlisteners Hrunning disarmed.
  unfold stopMonitoring, clearInterval, info, log, toISOString_now,
    appendFileSync, emit, modify, gets, mbind, M_bind.
  cbn beta iota. rewrite Hrunning. cbn [negb]. cbn beta iota.
  unfold disarmed. destruct (monitorInterval w); cbn;
    rewrite Hlisteners; reflexivity.
Qed.

(** X18: when the module is loaded on an absent or empty log file, under
    a clock that yields ISO-8601 timestamps and with a version string
    without line feed, and is interrupted before any tick, the handler
    returns: the report written has a total of five entries, the start
    time is the timestamp of the first entry and the end time the
    timestamp of the fourth, the process identifier, not that of the last
    entry, the stop; the console has shown the four entries of the
    startup, the shutdown notice, the stop entry and the confirmation; no
    timer is left armed and the process exits with status 0. *)
Theorem immediate_shutdown_report (file report : option jsstring)
    (stamp : nat → jsstring) (version : jsstring) (pid : N) :
  file = None ∨ file = Some [] →
  (∀ i, is_iso_timestamp (stamp i) = true) →
  LF ∉ version →
  let p' := (on_SIGINT (loaded file report stamp version pid)).1 in
  (on_SIGINT (loaded file report stamp version pid)).2 = Returned tt ∧
  exit_code p' = Some 0 ∧
  (∃ errors warnings,
     report_file p'
       = Some (report_text 5 errors warnings
                 (Some (stamp 0%nat)) (Some (stamp 3%nat)))) ∧
  console (env p')
    = [lit "[INFO] System monitoring started";
       lit "[INFO] System Monitor Backend Initialized";
       lit "[INFO] Node.js Version: " ++ version;
       lit "[INFO] Process ID: " ++ show_N pid;
       LF :: lit "Shutting down monitor...";
       lit "[INFO] System monitoring stopped";
       lit "Report saved to monitor-report.txt"] ∧
  monitoring (env p') = false ∧
  timers (env p') = ∅.
Proof.
  intros Hempty Hstamp Hversion p'.
  pose proof (startup_world file stamp version pid) as Hstart.
  cbv zeta in Hstart.
  set (calls := startup_calls version pid) in *.
  set (w0 := initial_world file stamp) in *.
  destruct (perform_all_frame calls w0)
    as (Hlisteners & Hclock0 & Hreads & _ & _ & _ & _ & _).
  pose proof (perform_all_log_file calls w0) as Hfile.
  pose proof (console_mirrors_calls_core calls w0 eq_refl) as Hconsole.
  destruct (perform_all_file_exists calls w0) as [content Hcontent];
    [by left|].
  change (listeners w0) with [console_mirror] in Hlisteners.
  change (clock w0) with stamp in Hclock0, Hfile.
  change (clock_reads w0) with 0%nat in Hreads, Hfile.
  change (length calls) with 4%nat in Hreads.
  change (log_file w0) with file in Hfile.
  change (console w0) with (@nil jsstring) in Hconsole.
  set (x := perform_all calls w0) in *. clearbody x.
  rewrite Hcontent in Hfile. cbn [from_option id] in Hfile.
  assert (from_option id [] file = []) as Hnone
    by (by destruct Hempty as [->| ->]).
  rewrite Hnone in Hfile. cbn [app] in Hfile.
  set (armed := set_monitorInterval (Some 0%nat)
                  (set_timers {[ 0%nat := 3000 ]} 1 (set_monitoring true x)))
    in *.
  set (P := {| env := armed; report_file := report; exit_code := None |}).
  assert (loaded file report stamp version pid = P) as HP.
  { unfold loaded. fold w0. by rewrite Hstart. }
  unfold p'. rewrite HP. clear HP p'.
  set (w1 := (console_log (LF :: lit "Shutting down monitor...") (env P)).1).
  assert (∀ y line,
    listeners (console_log line y).1 = listeners y ∧
    monitoring (console_log line y).1 = monitoring y) as Hframe
    by (intros; split; reflexivity).
  destruct (Hframe (env P) (LF :: lit "Shutting down monitor...")) as [Hl1 Hm1].
  fold w1 in Hl1, Hm1.
  assert (listeners (env P) = listeners x ∧ monitoring (env P) = true) as [Hl0 Hm0]
    by (split; reflexivity).
  rewrite Hl0, Hlisteners in Hl1. rewrite Hm0 in Hm1.
  pose proof (stopMonitoring_mirrored w1 Hl1 Hm1) as Hstop.
  cbv zeta in Hstop.
  match type of Hstop with _ = (?stopped, _) => set (w2 := stopped) in * end.
  set (calls5 := calls ++ [Info (lit "System monitoring stopped")]).
  assert (log_file w2
          = Some (concat ((λ line, line ++ [LF])
                            <$> expected_lines stamp 0 calls5))) as Hfile2.
  { transitivity
      (Some (content
             ++ log_line (stamp 4%nat) (Info (lit "System monitoring stopped"))
             ++ [LF])).
    - unfold w2, w1, P, armed, console_log, modify. cbn.
      rewrite Hcontent, Hclock0, Hreads. cbn.
      unfold line_of, log_line. cbn.
      repeat (rewrite <- app_assoc; cbn [app]). reflexivity.
    - rewrite Hfile. f_equal. unfold calls5, calls, startup_calls.
      cbn [app expected_lines]. rewrite !fmap_cons. cbn [concat fmap list_fmap].
      repeat (rewrite <- app_assoc; cbn [app]). reflexivity. }
  destruct (generateReport_expected_lines w2 stamp 0 calls5 Hfile2)
    as (errors & warnings & _ & _ & Hreport).
  { intros i. split; [by apply iso_timestamp_without_LF
                     |by apply iso_timestamp_without_space]. }
  { unfold calls5, calls, startup_calls. cbn [app].
    repeat first [apply Forall_nil
                 |apply Forall_cons; split; [split; [by_computation|]|]];
      try exact I; cbn [message_of]; try by_computation;
      rewrite !not_elem_of_app; split_and!; plain_piece. }
  { unfold calls5. rewrite length_app. simpl. lia. }
  change (length calls5) with 5%nat in Hreport.
  change (0 + (5 - 2))%nat with 3%nat in Hreport.
  rewrite (on_SIGINT_returns P w2 _ Hstop Hreport). cbn [fst snd].
  split; [reflexivity|]. split; [reflexivity|].
  split; [by exists errors, warnings|].
  unfold w2, w1, P, armed, console_log, modify. cbn.
  rewrite Hconsole. split_and!.
  - reflexivity.
  - reflexivity.
  - apply delete_singleton_eq.
Qed.

Lemma immediate_shutdown_report_witness :
  let p' := (on_SIGINT (loaded None None noon (lit "v20.11.0") 4242)).1 in
  (on_SIGINT (loaded None None noon (lit "v20.11.0") 4242)).2 = Returned tt ∧
  exit_code p' = Some 0 ∧
  (∃ errors warnings,
     report_file p'
       = Some (report_text 5 errors warnings
                 (Some (noon 0%nat)) (Some (noon 3%nat)))) ∧
  console (env p')
    = [lit "[INFO] System monitoring started";
       lit "[INFO] System Monitor Backend Initialized";
       lit "[INFO] Node.js Version: " ++ lit "v20.11.0";
       lit "[INFO] Process ID: " ++ show_N 4242;
       LF :: lit "Shutting down monitor...";
       lit "[INFO] System monitoring stopped";
       lit "Report saved to monitor-report.txt"] ∧
  monitoring (env p') = false ∧
  timers (env p') = ∅.
Proof.
  apply (immediate_shutdown_report None None noon (lit "v20.11.0") 4242).
  - by left.
  - intros i. by vm_compute.
  - by_computation.
Defined.

(** X19: [generateReport] never changes the world, log file included,
    whatever its outcome; it throws exactly when the log file has one
    single line that is not blank, and what it then throws is the
    [TypeError] of the call of [split] on [lines[-1]], which is
    [undefined]. *)
Theorem generateReport_throws_one_line (w : world) :
  (generateReport w).1 = w ∧
  ((∃ e, (generateReport w).2 = Thrown e)
   ↔ line_count (default [] (log_file w)) = 1%nat) ∧
  (∀ e, (generateReport w).2 = Thrown e → e = TypeError).
Proof.
  destruct (log_file w) as [content|] eqn:Hfile.
  - rewrite (generateReport_present w content Hfile), filter_truthy_trim.
    cbn [fst snd from_option id]. unfold line_count.
    destruct (filter _ (split content LF)) as [|first rest] eqn:Hlines.
    { split; [done|]. split; [|done]. split; [by intros [e ?]|done]. }
    rewrite index_before_last.
    destruct (reverse (first :: rest) !! 1%nat) as [before_last|] eqn:Hrev.
    + split; [done|]. split; [|done]. split; [by intros [e ?]|].
      intros Hone. apply lookup_lt_Some in Hrev.
      rewrite length_reverse in Hrev. lia.
    + split; [done|]. split; [|by intros e [= <-]].
      split; [|by exists TypeError].
      intros _. apply lookup_ge_None in Hrev.
      rewrite length_reverse in Hrev. simpl in *. lia.
  - rewrite (generateReport_absent w Hfile). cbn [fst snd from_option].
    rewrite line_count_nil.
    split; [done|]. split; [|done]. split; [by intros [e ?]|done].
Qed.
